(** * MLH: entity marshalling and point queries

    A shallow embedding of the marshalling engine of [utils.py] (type
    factories, [Entity], [EntityFactory]) and of the point machinery of
    [Farmbot.py] ([Point] and its variants, [PointQuery], [deserialize]),
    followed by the properties established about them.

    Conventions.
    - A Python [str] is a [string] whose characters are read as the code
      points 0..255.
    - A Python exception is a constructor of [exn]; messages are not kept.
    - An operation that can raise returns a [Res]; an operation that also
      reads or writes interpreter state is a function of the monad [M].
    - Python's recursion limit is the [depth] argument of the functions that
      call factories: a call at depth 0 raises [RecursionError]. *)

From Stdlib Require Import ZArith NArith Lia List String Ascii Bool Floats DecimalString.
From stdpp Require Import base list.

#[local] Set Warnings "-register-all".
#[local] Set Warnings "-inexact-float".
Import ListNotations.

Local Open Scope string_scope.
Local Open Scope list_scope.
Local Open Scope Z_scope.

(** ** Results and exceptions *)

Inductive exn : Type :=
| TypeError
| ValueError
| KeyError
| AttributeError
| RecursionError
| OverflowError
| SyntaxError.

Inductive Res (A : Type) : Type :=
| Ok (a : A)
| Raise (e : exn).
Arguments Ok {A} a.
Arguments Raise {A} e.


Definition res_bind {A B : Type} (r : Res A) (k : A -> Res B) : Res B :=
  match r with
  | Ok a => k a
  | Raise e => Raise e
  end.

(** ** Text: the [str] methods and character classes the code relies on *)

Module Text.

Definition code (c : ascii) : N := N_of_ascii c.

Definition in_range (lo hi : N) (c : ascii) : bool :=
  ((lo <=? code c) && (code c <=? hi))%N.

(** [str.isspace] on one character, which is also the class [\s] of [re]. *)
Definition is_space (c : ascii) : bool :=
  in_range 9 13 c || in_range 28 32 c || (code c =? 133)%N || (code c =? 160)%N.

Definition is_digit (c : ascii) : bool := in_range 48 57 c.

Definition is_lower (c : ascii) : bool := in_range 97 122 c.

Definition lower_char (c : ascii) : ascii :=
  if in_range 65 90 c || (in_range 192 222 c && negb (code c =? 215)%N)
  then ascii_of_N (code c + 32)
  else c.

Fixpoint lower (s : string) : string :=
  match s with
  | EmptyString => EmptyString
  | String c r => String (lower_char c) (lower r)
  end.

Fixpoint lstrip (s : string) : string :=
  match s with
  | EmptyString => EmptyString
  | String c r => if is_space c then lstrip r else s
  end.

Fixpoint rstrip (s : string) : string :=
  match s with
  | EmptyString => EmptyString
  | String c r =>
      match rstrip r with
      | EmptyString => if is_space c then EmptyString else String c EmptyString
      | r' => String c r'
      end
  end.

Definition strip (s : string) : string := rstrip (lstrip s).

(** [re.sub('\\s+', ' ', s)]: every maximal run of white space becomes one
    blank; [in_run] tells that the previous character was white space. *)
Fixpoint sub_spaces (in_run : bool) (s : string) : string :=
  match s with
  | EmptyString => EmptyString
  | String c r =>
      if is_space c
      then if in_run then sub_spaces true r else String " " (sub_spaces true r)
      else String c (sub_spaces false r)
  end.

Definition is_empty (s : string) : bool :=
  match s with
  | EmptyString => true
  | String _ _ => false
  end.

Definition startswith (p s : string) : bool := String.prefix p s.

Definition digit_value (c : ascii) : Z := Z.of_N (code c) - 48.

(** [int(s)] for a string of the digits 0..9. *)
Fixpoint digits_value (acc : Z) (s : string) : Z :=
  match s with
  | EmptyString => acc
  | String c r => digits_value (10 * acc + digit_value c) r
  end.

Definition digit_char (d : Z) : ascii := ascii_of_N (Z.to_N (d mod 10) + 48).

(** The last [w] decimal digits of [n], most significant first. *)
Fixpoint zero_padded (w : nat) (n : Z) : string :=
  match w with
  | O => EmptyString
  | S w' => (zero_padded w' (n / 10) ++ String (digit_char n) EmptyString)%string
  end.

Definition decimal (n : Z) : string := NilZero.string_of_int (Z.to_int n).

End Text.

(** ** A backtracking matcher for the patterns of the program

    The patterns of the program only repeat character classes, so the
    repetition constructors take a class.  Alternatives are tried in order
    and repetitions are greedy, as in [re]; the continuation [k] receives the
    rest of the subject and the groups captured so far. *)

Module Re.

Inductive re : Type :=
| Eps
| Chr (c : ascii)
| Cls (p : ascii -> bool)
| Seq (a b : re)
| Alt (a b : re)
| Opt (a : re)
| Plus (p : ascii -> bool)
| Upto (n : nat) (p : ascii -> bool)
| Grp (i : nat) (a : re).

Definition caps : Type := list (nat * string).

Fixpoint group (i : nat) (cs : caps) : option string :=
  match cs with
  | [] => None
  | (j, s) :: r => if Nat.eqb i j then Some s else group i r
  end.

(** What was read between the subject [s] and its suffix [s']. *)
Definition consumed (s s' : string) : string :=
  substring 0 (String.length s - String.length s') s.

Section Run.
Context {A : Type}.

(** [p+]: the longest run first, then shorter ones. *)
Fixpoint plus_from (p : ascii -> bool) (k : string -> option A) (s : string) : option A :=
  match s with
  | EmptyString => None
  | String c s' =>
      if p c
      then match plus_from p k s' with
           | Some x => Some x
           | None => k s'
           end
      else None
  end.

(** [p{0,n}], greedy. *)
Fixpoint upto_from (n : nat) (p : ascii -> bool) (k : string -> option A) (s : string) : option A :=
  match n with
  | O => k s
  | S n' =>
      match s with
      | EmptyString => k s
      | String c s' =>
          if p c
          then match upto_from n' p k s' with
               | Some x => Some x
               | None => k s
               end
          else k s
      end
  end.

Fixpoint run (r : re) (s : string) (cs : caps) (k : string -> caps -> option A) : option A :=
  match r with
  | Eps => k s cs
  | Chr c =>
      match s with
      | EmptyString => None
      | String c' s' => if Ascii.eqb c c' then k s' cs else None
      end
  | Cls p =>
      match s with
      | EmptyString => None
      | String c' s' => if p c' then k s' cs else None
      end
  | Seq a b => run a s cs (fun s' cs' => run b s' cs' k)
  | Alt a b =>
      match run a s cs k with
      | Some x => Some x
      | None => run b s cs k
      end
  | Opt a =>
      match run a s cs k with
      | Some x => Some x
      | None => k s cs
      end
  | Plus p => plus_from p (fun s' => k s' cs) s
  | Upto n p => upto_from n p (fun s' => k s' cs) s
  | Grp i a => run a s cs (fun s' cs' => k s' ((i, consumed s s') :: cs'))
  end.
End Run.

(** [pattern.fullmatch(s)]: the groups of the first match that ends at the
    end of [s]. *)
Definition fullmatch (r : re) (s : string) : option caps :=
  run r s [] (fun s' cs => if Text.is_empty s' then Some cs else None).

(** [pattern.match(s)]: the groups of the first match at the start of [s]
    and what is left of [s] after it. *)
Definition match_prefix (r : re) (s : string) : option (caps * string) :=
  run r s [] (fun s' cs => Some (cs, s')).

Fixpoint lit (s : string) : re :=
  match s with
  | EmptyString => Eps
  | String c r => Seq (Chr c) (lit r)
  end.

Fixpoint seqs (l : list re) : re :=
  match l with
  | [] => Eps
  | [a] => a
  | a :: r => Seq a (seqs r)
  end.

Fixpoint alts (l : list re) : re :=
  match l with
  | [] => Cls (fun _ => false)
  | [a] => a
  | a :: r => Alt a (alts r)
  end.

(** A letter matched under [re.IGNORECASE]. *)
Definition chr_nocase (c : ascii) : re :=
  Cls (fun x => Ascii.eqb (Text.lower_char x) (Text.lower_char c)).

End Re.

(** ** Calendar: [datetime], [date] and [timedelta] *)

Record datetime : Type := mk_datetime {
  year : Z; month : Z; day : Z;
  hour : Z; minute : Z; second : Z; microsecond : Z }.

Record date : Type := mk_date { dyear : Z; dmonth : Z; dday : Z }.

(** A [timedelta] is its length in microseconds: Python keeps the normal form
    (days, seconds, microseconds) of the same number, and a [timedelta] is
    false exactly when it is zero. *)
Definition timedelta : Type := Z.

Module Cal.

Definition MAXORDINAL : Z := 3652059.
Definition DAY_US : Z := 86400000000.

Definition is_leap (y : Z) : bool :=
  (y mod 4 =? 0) && (negb (y mod 100 =? 0) || (y mod 400 =? 0)).

Definition days_in_month (y m : Z) : Z :=
  if m =? 2 then (if is_leap y then 29 else 28)
  else if (m =? 4) || (m =? 6) || (m =? 9) || (m =? 11) then 30
  else 31.

Definition days_before_year (y : Z) : Z :=
  let p := y - 1 in p * 365 + p / 4 - p / 100 + p / 400.

(** Days of the year before the first of month [m], not counting a leap day. *)
Definition DAYS_BEFORE_MONTH (m : Z) : Z :=
  match m with
  | 1 => 0 | 2 => 31 | 3 => 59 | 4 => 90 | 5 => 120 | 6 => 151
  | 7 => 181 | 8 => 212 | 9 => 243 | 10 => 273 | 11 => 304 | 12 => 334
  | _ => 0
  end.

Definition DAYS_IN_MONTH (m : Z) : Z :=
  match m with
  | 2 => 28
  | 4 | 6 | 9 | 11 => 30
  | _ => 31
  end.

Definition days_before_month (y m : Z) : Z :=
  DAYS_BEFORE_MONTH m + (if (2 <? m) && is_leap y then 1 else 0).

Definition ymd2ord (y m d : Z) : Z :=
  days_before_year y + days_before_month y m + d.

Definition ord2ymd (n0 : Z) : Z * Z * Z :=
  let n := n0 - 1 in
  let n400 := n / 146097 in
  let n := n mod 146097 in
  let y := n400 * 400 + 1 in
  let n100 := n / 36524 in
  let n := n mod 36524 in
  let n4 := n / 1461 in
  let n := n mod 1461 in
  let n1 := n / 365 in
  let n := n mod 365 in
  let y := y + n100 * 100 + n4 * 4 + n1 in
  if (n1 =? 4) || (n100 =? 4) then (y - 1, 12, 31)
  else
    let leapyear := (n1 =? 3) && (negb (n4 =? 24) || (n100 =? 3)) in
    let m := Z.shiftr (n + 50) 5 in
    let preceding := DAYS_BEFORE_MONTH m + (if (2 <? m) && leapyear then 1 else 0) in
    if n <? preceding
    then
      let m' := m - 1 in
      let preceding' := preceding - (DAYS_IN_MONTH m' + (if (m' =? 2) && leapyear then 1 else 0)) in
      (y, m', n - preceding' + 1)
    else (y, m, n - preceding + 1).

(** The constructor [datetime(y, m, d, H, M, S, f)] with its range checks. *)
Definition make_datetime (y m d H M S f : Z) : Res datetime :=
  if (1 <=? y) && (y <=? 9999) && (1 <=? m) && (m <=? 12)
     && (1 <=? d) && (d <=? days_in_month y m)
     && (0 <=? H) && (H <=? 23) && (0 <=? M) && (M <=? 59)
     && (0 <=? S) && (S <=? 59) && (0 <=? f) && (f <=? 999999)
  then Ok (mk_datetime y m d H M S f)
  else Raise ValueError.

Definition make_date (y m d : Z) : Res date :=
  if (1 <=? y) && (y <=? 9999) && (1 <=? m) && (m <=? 12)
     && (1 <=? d) && (d <=? days_in_month y m)
  then Ok (mk_date y m d)
  else Raise ValueError.

Definition toordinal (d : datetime) : Z := ymd2ord (year d) (month d) (day d).

Definition to_us (d : datetime) : Z :=
  ((toordinal d * 86400 + hour d * 3600 + minute d * 60 + second d) * 1000000)
  + microsecond d.

Definition of_us (t : Z) : datetime :=
  let days := t / DAY_US in
  let r := t mod DAY_US in
  let secs := r / 1000000 in
  let '(y, m, d) := ord2ymd days in
  mk_datetime y m d (secs / 3600) ((secs mod 3600) / 60) (secs mod 60) (r mod 1000000).

(** [timedelta] called with the single keyword [kw] set to [n]: the
    keywords it accepts, and the bound of 999999999 days on its magnitude. *)
Definition unit_us (kw : string) : option Z :=
  if String.eqb kw "weeks" then Some (7 * DAY_US)
  else if String.eqb kw "days" then Some DAY_US
  else if String.eqb kw "hours" then Some 3600000000
  else if String.eqb kw "minutes" then Some 60000000
  else if String.eqb kw "seconds" then Some 1000000
  else if String.eqb kw "milliseconds" then Some 1000
  else if String.eqb kw "microseconds" then Some 1
  else None.

Definition timedelta_kw (kw : string) (n : Z) : Res timedelta :=
  match unit_us kw with
  | None => Raise TypeError
  | Some u =>
      let t := n * u in
      if Z.abs (t / DAY_US) <=? 999999999 then Ok t else Raise OverflowError
  end.

(** [d + td] on a [datetime]. *)
Definition datetime_add (d : datetime) (td : timedelta) : Res datetime :=
  let t := to_us d + td in
  let days := t / DAY_US in
  if (0 <? days) && (days <=? MAXORDINAL) then Ok (of_us t) else Raise OverflowError.

(** [d + td] on a [date]: only the days of [td] count. *)
Definition date_add (d : date) (td : timedelta) : Res date :=
  let o := ymd2ord (dyear d) (dmonth d) (dday d) + td / DAY_US in
  if (0 <? o) && (o <=? MAXORDINAL)
  then let '(y, m, dd) := ord2ymd o in Ok (mk_date y m dd)
  else Raise OverflowError.

Definition date_of (d : datetime) : date := mk_date (year d) (month d) (day d).

Definition fields (d : datetime) : list Z :=
  [year d; month d; day d; hour d; minute d; second d; microsecond d].

Fixpoint cmp_fields (a b : list Z) : comparison :=
  match a, b with
  | x :: a', y :: b' =>
      match Z.compare x y with
      | Eq => cmp_fields a' b'
      | c => c
      end
  | [], [] => Eq
  | [], _ :: _ => Lt
  | _ :: _, [] => Gt
  end.

Definition compare (a b : datetime) : comparison := cmp_fields (fields a) (fields b).

(** The directive [%Y] of [strftime] is the one of the C library, which on
    Linux writes the year as a plain decimal number: a year, from 1 to
    9999, comes out with as many digits as it has, fewer than four below
    1000. *)
Definition year_width (y : Z) : nat :=
  if y <? 10 then 1 else if y <? 100 then 2 else if y <? 1000 then 3 else 4.

Definition format_year (y : Z) : string := Text.zero_padded (year_width y) y.

(** [strftime] with the formats of [dump_datetime] and [dump_date]. *)
Definition format_datetime (d : datetime) : string :=
  (format_year (year d) ++ "-" ++ Text.zero_padded 2 (month d) ++ "-"
   ++ Text.zero_padded 2 (day d) ++ "T" ++ Text.zero_padded 2 (hour d) ++ ":"
   ++ Text.zero_padded 2 (minute d) ++ ":" ++ Text.zero_padded 2 (second d) ++ "."
   ++ Text.zero_padded 6 (microsecond d) ++ "Z")%string.

Definition format_date (d : date) : string :=
  (format_year (dyear d) ++ "-" ++ Text.zero_padded 2 (dmonth d) ++ "-"
   ++ Text.zero_padded 2 (dday d))%string.

(** The patterns [strptime] derives from the directives. *)
Definition d09 : Re.re := Re.Cls Text.is_digit.
Definition dr (lo hi : N) : Re.re := Re.Cls (Text.in_range lo hi).
Definition c (s : string) : Re.re := Re.lit s.

Definition rx_Y : Re.re := Re.seqs [d09; d09; d09; d09].
Definition rx_m : Re.re :=
  Re.alts [Re.Seq (c "1") (dr 48 50); Re.Seq (c "0") (dr 49 57); dr 49 57].
Definition rx_d : Re.re :=
  Re.alts [Re.Seq (c "3") (dr 48 49); Re.Seq (dr 49 50) d09; Re.Seq (c "0") (dr 49 57);
           dr 49 57; Re.Seq (c " ") (dr 49 57)].
Definition rx_H : Re.re :=
  Re.alts [Re.Seq (c "2") (dr 48 51); Re.Seq (dr 48 49) d09; d09].
Definition rx_M : Re.re := Re.alts [Re.Seq (dr 48 53) d09; d09].
Definition rx_S : Re.re :=
  Re.alts [Re.Seq (c "6") (dr 48 49); Re.Seq (dr 48 53) d09; d09].
Definition rx_f : Re.re := Re.Seq d09 (Re.Upto 5 Text.is_digit).

(** ["%Y-%m-%dT%H:%M:%S.%fZ"] *)
Definition rx_datetime : Re.re :=
  Re.seqs [Re.Grp 1 rx_Y; c "-"; Re.Grp 2 rx_m; c "-"; Re.Grp 3 rx_d;
           Re.chr_nocase "T"; Re.Grp 4 rx_H; c ":"; Re.Grp 5 rx_M; c ":"; Re.Grp 6 rx_S;
           c "."; Re.Grp 7 rx_f; Re.chr_nocase "Z"].

(** ["%Y-%m-%d"] *)
Definition rx_date : Re.re :=
  Re.seqs [Re.Grp 1 rx_Y; c "-"; Re.Grp 2 rx_m; c "-"; Re.Grp 3 rx_d].

Definition field (i : nat) (cs : Re.caps) : Z :=
  match Re.group i cs with
  | Some s => Text.digits_value 0 (Text.lstrip s)
  | None => 0
  end.

(** ["%f"] reads up to six digits and pads them on the right. *)
Definition fraction (i : nat) (cs : Re.caps) : Z :=
  match Re.group i cs with
  | Some s => Text.digits_value 0 s * 10 ^ (6 - Z.of_nat (String.length s))
  | None => 0
  end.

(** [datetime.strptime(s, "%Y-%m-%dT%H:%M:%S.%fZ")] *)
Definition strptime_datetime (s : string) : Res datetime :=
  match Re.match_prefix rx_datetime s with
  | None => Raise ValueError
  | Some (cs, rest) =>
      if Text.is_empty rest
      then make_datetime (field 1 cs) (field 2 cs) (field 3 cs)
                         (field 4 cs) (field 5 cs) (field 6 cs) (fraction 7 cs)
      else Raise ValueError
  end.

(** [datetime.strptime(s, "%Y-%m-%d").date()] *)
Definition strptime_date (s : string) : Res date :=
  match Re.match_prefix rx_date s with
  | None => Raise ValueError
  | Some (cs, rest) =>
      if Text.is_empty rest
      then make_date (field 1 cs) (field 2 cs) (field 3 cs)
      else Raise ValueError
  end.

End Cal.

(** ** Floating point: [float] is the kernel's binary64 *)

Module Flt.

(** The float nearest to an integer (ties to even). *)
Definition of_Z (z : Z) : float := SF2Prim (binary_normalize prec emax z 0 false).

(** [float(n)] for an [int]: too large an integer raises. *)
Definition of_int (z : Z) : Res float :=
  let f := of_Z z in
  if is_infinity f then Raise OverflowError else Ok f.

(** The float nearest to [n / d], for positive [n] and [d]: the quotient is
    taken with 64 bits or more and one sticky bit, then rounded once. *)
Definition of_ratio (n d : Z) : spec_float :=
  let k := Z.max 0 (Z.log2 d - Z.log2 n + 64) in
  let m := n * 2 ^ k in
  let sticky := if m mod d =? 0 then 0 else 1 in
  binary_normalize prec emax (2 * (m / d) + sticky) (- (k + 1)) false.

(** The float nearest to [m * 10 ^ e10], for [m >= 0]. *)
Definition of_decimal (neg : bool) (m e10 : Z) : float :=
  if m <=? 0 then (if neg then neg_zero else zero)
  else
    let sf :=
      if 0 <=? e10
      then binary_normalize prec emax (m * 10 ^ e10) 0 false
      else of_ratio m (10 ^ (- e10)) in
    let f := SF2Prim sf in
    if neg then (- f)%float else f.

(** [a / b] on two [int]s, for [b > 0]. *)
Definition div_int (a b : Z) : Res float :=
  let f :=
    if a =? 0 then zero
    else if 0 <? a then SF2Prim (of_ratio a b)
    else (- SF2Prim (of_ratio (- a) b))%float in
  if is_infinity f then Raise OverflowError else Ok f.

(** The longest prefix of [s] in the class [p], and the rest. *)
Fixpoint span (p : ascii -> bool) (s : string) : string * string :=
  match s with
  | EmptyString => (EmptyString, EmptyString)
  | String c r =>
      if p c
      then let '(a, b) := span p r in (String c a, b)
      else (EmptyString, s)
  end.

(** Underscores may stand between two digits, and are dropped. *)
Fixpoint drop_underscores (after_digit : bool) (s : string) : option string :=
  match s with
  | EmptyString => Some EmptyString
  | String c r =>
      if Ascii.eqb c "_"
      then
        match r with
        | String c' _ =>
            if after_digit && Text.is_digit c' then drop_underscores false r else None
        | EmptyString => None
        end
      else option_map (String c) (drop_underscores (Text.is_digit c) r)
  end.

Definition split_sign (s : string) : bool * string :=
  match s with
  | String c r =>
      if Ascii.eqb c "-" then (true, r)
      else if Ascii.eqb c "+" then (false, r)
      else (false, s)
  | EmptyString => (false, s)
  end.

(** The exponent part of a decimal literal, or nothing. *)
Definition exponent (s : string) : option Z :=
  match s with
  | EmptyString => Some 0
  | String c r =>
      if Ascii.eqb (Text.lower_char c) "e"
      then
        let '(neg, ds) := split_sign r in
        let '(a, b) := span Text.is_digit ds in
        if Text.is_empty a || negb (Text.is_empty b) then None
        else Some (if neg then - Text.digits_value 0 a else Text.digits_value 0 a)
      else None
  end.

(** [float(s)] for a [str]: [None] stands for [ValueError]. *)
Definition of_text (s : string) : option float :=
  match drop_underscores false (Text.strip s) with
  | None => None
  | Some t =>
      let '(neg, body) := split_sign t in
      let low := Text.lower body in
      if String.eqb low "inf" || String.eqb low "infinity"
      then Some (if neg then neg_infinity else infinity)
      else if String.eqb low "nan" then Some nan
      else
        let '(ip, r1) := span Text.is_digit body in
        let '(fp, r2) :=
          match r1 with
          | String c r' => if Ascii.eqb c "." then span Text.is_digit r' else (EmptyString, r1)
          | EmptyString => (EmptyString, r1)
          end in
        if Text.is_empty ip && Text.is_empty fp then None
        else
          match exponent r2 with
          | None => None
          | Some e =>
              Some (of_decimal neg (Text.digits_value 0 (ip ++ fp)%string)
                               (e - Z.of_nat (String.length fp)))
          end
  end.

(** [int(f)]: truncation towards zero. *)
Definition to_int (f : float) : Res Z :=
  match Prim2SF f with
  | S754_zero _ => Ok 0
  | S754_finite s m e =>
      let a := if 0 <=? e then Zpos m * 2 ^ e else Zpos m / 2 ^ (- e) in
      Ok (if s then - a else a)
  | S754_infinity _ => Raise OverflowError
  | S754_nan => Raise ValueError
  end.

(** [f == z] for an [int] [z], decided on the exact values. *)
Definition eq_int (f : float) (z : Z) : bool :=
  match Prim2SF f with
  | S754_zero _ => z =? 0
  | S754_finite s m e =>
      let a := if s then Zneg m else Zpos m in
      if 0 <=? e then z =? a * 2 ^ e else z * 2 ^ (- e) =? a
  | _ => false
  end.

End Flt.

(** ** Data model *)

(** The [Entity] classes declared in [Farmbot.py] (and [Entity] itself). *)
Inductive cls : Type :=
| Entity | Identifiable | Coordinate | Device | Tool
| Point | Plant | ToolSlot
| Command | Sequence | LocationData | InformationalSettings
| Pin | ProcessInfo | Alert | BotStateTree.

#[global] Instance cls_eq_dec : EqDecision cls.
Proof. solve_decision. Defined.

(** The type expressions that annotate fields: what [get_factory] is asked
    to resolve.  [Optional[t]] is [TUnion [t; TNoneType]]. *)
Inductive ptype : Type :=
| TAny | TBool | TStr | TInt | TFloat | TDate | TDatetime
| TNoneType
| TUnion (args : list ptype)
| TList (item : ptype)
| TDict (key val : ptype)
| TClass (c : cls)
| TOther (name : string).

Definition Optional (t : ptype) : ptype := TUnion [t; TNoneType].

Fixpoint ptype_eqb (a b : ptype) : bool :=
  match a, b with
  | TAny, TAny | TBool, TBool | TStr, TStr | TInt, TInt | TFloat, TFloat
  | TDate, TDate | TDatetime, TDatetime | TNoneType, TNoneType => true
  | TUnion l, TUnion l' =>
      (fix all2 (l l' : list ptype) : bool :=
         match l, l' with
         | [], [] => true
         | x :: r, y :: r' => ptype_eqb x y && all2 r r'
         | _, _ => false
         end) l l'
  | TList x, TList y => ptype_eqb x y
  | TDict k v, TDict k' v' => ptype_eqb k k' && ptype_eqb v v'
  | TClass c, TClass c' => bool_decide (c = c')
  | TOther n, TOther n' => String.eqb n n'
  | _, _ => false
  end.

(** The conversion functions, as the closures and functions [get_factory]
    hands out.  The comment of each constructor is its Python text. *)
Inductive Factory : Type :=
| FAny        (* lambda val: val *)
| FBool       (* lambda val: bool(ast.literal_eval(val) if isinstance(val, str) else val) *)
| FStr        (* str *)
| FInt        (* lambda val: int(ast.literal_eval(val) if isinstance(val, str) else val) *)
| FFloat      (* lambda val: float(ast.literal_eval(val) if isinstance(val, str) else val) *)
| FParseDate  (* parse_date *)
| FParseDatetime (* parse_datetime *)
| FOptional (cell : nat)
              (* lambda val: None if val in (None, 'None') else factory(val)
                 where [factory] is the local variable of the activation of
                 get_factory that made the closure, kept in [cell] *)
| FNone       (* lambda val: None *)
| FList (item_factory : Factory)
              (* lambda val: [item_factory(item) for item in (...)] *)
| FDict (key_factory value_factory : Factory)
              (* lambda val: {key_factory(item[0]): value_factory(item[1]) for item in (...).items()} *)
| FMake (ef : nat).
              (* the bound method [make] of the EntityFactory object [ef] *)

(** Values.  A [dict] lives in the heap and a value holds its location, so
    that two holders of one [dict] see each other's writes; an object of an
    [Entity] class holds its class, its identity and the location of its
    [__dict__].  Lists and tuples are kept by value. *)
Inductive value : Type :=
| VNone
| VBool (b : bool)
| VInt (z : Z)
| VFloat (f : float)
| VStr (s : string)
| VDatetime (d : datetime)
| VDate (d : date)
| VList (items : list value)
| VTuple (items : list value)
| VDict (l : nat)
| VObj (c : cls) (id : nat) (l : nat).

Abbreviation dict := (list (value * value)) (only parsing).

(** What [ast.literal_eval] returns, before its dicts are allocated. *)
Inductive lit : Type :=
| LNone
| LBool (b : bool)
| LInt (z : Z)
| LFloat (f : float)
| LStr (s : string)
| LList (items : list lit)
| LTuple (items : list lit)
| LDict (items : list (lit * lit)).

(** The query plan of [PointQuery]: the closures of the local predicates and
    the filter sent to the server. *)
Inductive getter : Type :=
| GetMeta (key : string)    (* lambda v, key=key: v['meta'][key] *)
| GetField (key : string).  (* lambda v, key=key: v[key] *)

Inductive cmpop : Type := op_lt | op_le | op_gt | op_ge.

Inductive predicate : Type :=
| PDate (get : getter) (op : cmpop) (date : datetime)
    (* lambda v, get=get, op=op, date=date: op(parse_datetime(get(v)), date) *)
| PNum (get : getter) (op : cmpop) (number : float)
    (* lambda v, get=get, op=op, number=number: op(float(get(v)), number) *)
| PNe (get : getter) (val : value).
    (* lambda v, get=get, value=value: get(v) != value *)

(** An entry of [self.filter]: a value, or the sub-filter under ['meta']. *)
Inductive fentry : Type :=
| FValue (v : value)
| FSub (m : list (string * value)).

Definition qfilter : Type := list (string * fentry).

(** The calls of [device.log], by call site; the text rendered by
    [json.dumps] is not built. *)
Inductive log_entry : Type :=
| LogApplied (point : value)
| LogBuiltFilter (f : qfilter) (n_predicates : nat)
| LogDeserializeFailed (type_name : string) (data : value).

Abbreviation props := (list (string * Factory)) (only parsing).

(** The interpreter state the code reads and writes. *)
Record State : Type := mk_State {
  heap : list dict;                          (* the dict objects, by location *)
  next_id : nat;                             (* object identities given out so far *)
  factories : list (ptype * Factory);        (* utils.factories *)
  cells : list (option Factory);             (* closure cells *)
  efactories : list (cls * option props);    (* the EntityFactory objects: cls, props *)
  point_types : option (list (string * cls));(* Farmbot.__point_types *)
  log : list log_entry;                      (* what device.log received *)
  clock : datetime                           (* what datetime.utcnow() returns *)
}.

Definition M (A : Type) : Type := State -> Res A * State.

Definition ret {A : Type} (a : A) : M A := fun st => (Ok a, st).

Definition raise {A : Type} (e : exn) : M A := fun st => (Raise e, st).

Definition bind {A B : Type} (m : M A) (k : A -> M B) : M B :=
  fun st =>
    match m st with
    | (Ok a, st') => k a st'
    | (Raise e, st') => (Raise e, st')
    end.

Definition lift {A : Type} (r : Res A) : M A := fun st => (r, st).

Definition gets {A : Type} (f : State -> A) : M A := fun st => (Ok (f st), st).

Definition modify (f : State -> State) : M unit := fun st => (Ok tt, f st).

Notation "'let*' x ':=' m 'in' k" := (bind m (fun x => k))
  (at level 10, x name, m at level 100, k at level 200).
Notation "'let*' ' p ':=' m 'in' k" := (bind m (fun p => k))
  (at level 10, p strict pattern, m at level 100, k at level 200).
Notation "'run*' m 'in' k" := (bind m (fun _ => k))
  (at level 10, m at level 100, k at level 200).

Definition set_heap (h : list dict) (st : State) : State :=
  mk_State h (next_id st) (factories st) (cells st) (efactories st) (point_types st) (log st) (clock st).

Definition set_next_id (n : nat) (st : State) : State :=
  mk_State (heap st) n (factories st) (cells st) (efactories st) (point_types st) (log st) (clock st).

Definition set_factories (f : list (ptype * Factory)) (st : State) : State :=
  mk_State (heap st) (next_id st) f (cells st) (efactories st) (point_types st) (log st) (clock st).

Definition set_cells (c : list (option Factory)) (st : State) : State :=
  mk_State (heap st) (next_id st) (factories st) c (efactories st) (point_types st) (log st) (clock st).

Definition set_efactories (e : list (cls * option props)) (st : State) : State :=
  mk_State (heap st) (next_id st) (factories st) (cells st) e (point_types st) (log st) (clock st).

Definition set_point_types (p : option (list (string * cls))) (st : State) : State :=
  mk_State (heap st) (next_id st) (factories st) (cells st) (efactories st) p (log st) (clock st).

Definition device_log (e : log_entry) : M unit :=
  modify (fun st =>
    mk_State (heap st) (next_id st) (factories st) (cells st) (efactories st) (point_types st)
             (log st ++ [e]) (clock st)).

(** The library functions that are taken as given: [ast.literal_eval], [str]
    on values other than [None], booleans, integers and strings, and
    [datetime.utcfromtimestamp]. *)
Record PyLib : Type := mk_PyLib {
  literal_eval : string -> Res lit;
  str_other : list dict -> value -> string;
  utcfromtimestamp : value -> Res datetime
}.

(** ** Built-in operations on values *)

Definition heap_get (h : list dict) (l : nat) : dict := default [] (h !! l).

Definition is_nil {A : Type} (l : list A) : bool :=
  match l with
  | [] => true
  | _ :: _ => false
  end.

(** [bool(v)] *)
Definition truthy (h : list dict) (v : value) : bool :=
  match v with
  | VNone => false
  | VBool b => b
  | VInt z => negb (z =? 0)
  | VFloat f => negb (f =? 0)%float
  | VStr s => negb (Text.is_empty s)
  | VDatetime _ | VDate _ => true
  | VList l | VTuple l => negb (is_nil l)
  | VDict l => negb (is_nil (heap_get h l))
  | VObj _ _ _ => true
  end.

Definition datetime_eqb (a b : datetime) : bool :=
  match Cal.compare a b with
  | Eq => true
  | _ => false
  end.

Definition date_eqb (a b : date) : bool :=
  (dyear a =? dyear b) && (dmonth a =? dmonth b) && (dday a =? dday b).

Definition Z_of_bool (b : bool) : Z := if b then 1 else 0.

(** [a == b] on values that are not lists or dicts: numbers by value across
    [bool], [int] and [float], objects by identity, tuples member by member. *)
Fixpoint key_eqb (a b : value) : bool :=
  match a, b with
  | VNone, VNone => true
  | VBool x, VBool y => Bool.eqb x y
  | VBool x, VInt y | VInt y, VBool x => Z_of_bool x =? y
  | VBool x, VFloat y | VFloat y, VBool x => Flt.eq_int y (Z_of_bool x)
  | VInt x, VInt y => x =? y
  | VInt x, VFloat y | VFloat y, VInt x => Flt.eq_int y x
  | VFloat x, VFloat y => (x =? y)%float
  | VStr x, VStr y => String.eqb x y
  | VDatetime x, VDatetime y => datetime_eqb x y
  | VDate x, VDate y => date_eqb x y
  | VObj _ i _, VObj _ j _ => Nat.eqb i j
  | VTuple l, VTuple l' =>
      (fix all2 (l l' : list value) : bool :=
         match l, l' with
         | [], [] => true
         | x :: r, y :: r' => key_eqb x y && all2 r r'
         | _, _ => false
         end) l l'
  | _, _ => false
  end.

(** A value that can be a key of a [dict]. *)
Fixpoint hashable (v : value) : bool :=
  match v with
  | VList _ | VDict _ => false
  | VTuple l => forallb hashable l
  | _ => true
  end.

Fixpoint dict_get (k : value) (d : dict) : option value :=
  match d with
  | [] => None
  | (k', v) :: r => if key_eqb k' k then Some v else dict_get k r
  end.

(** [d[k] = v]: a key already present keeps its place. *)
Fixpoint dict_set (k v : value) (d : dict) : dict :=
  match d with
  | [] => [(k, v)]
  | (k', v') :: r => if key_eqb k' k then (k', v) :: r else (k', v') :: dict_set k v r
  end.

Fixpoint dict_del (k : value) (d : dict) : dict :=
  match d with
  | [] => []
  | (k', v') :: r => if key_eqb k' k then r else (k', v') :: dict_del k r
  end.

Definition dict_setdefault (k : value) (d : dict) : dict :=
  match dict_get k d with
  | Some _ => d
  | None => dict_set k VNone d
  end.

Definition dict_update (kw : list (string * value)) (d : dict) : dict :=
  fold_left (fun acc kv => dict_set (VStr (fst kv)) (snd kv) acc) kw d.

Definition alloc_dict (d : dict) : M nat :=
  fun st => (Ok (length (heap st)), set_heap (heap st ++ [d]) st).

Definition read_dict (l : nat) : M dict := gets (fun st => heap_get (heap st) l).

Definition write_dict (l : nat) (d : dict) : M unit :=
  modify (fun st => set_heap (<[l := d]> (heap st)) st).

Definition fresh_id : M nat :=
  fun st => (Ok (next_id st), set_next_id (S (next_id st)) st).

(** [for item in v] *)
Definition py_iter (h : list dict) (v : value) : Res (list value) :=
  match v with
  | VList l | VTuple l => Ok l
  | VStr s => Ok (map (fun c => VStr (String c EmptyString)) (list_ascii_of_string s))
  | VDict l => Ok (map fst (heap_get h l))
  | _ => Raise TypeError
  end.

(** [v.items()] *)
Definition py_items (h : list dict) (v : value) : Res (list (value * value)) :=
  match v with
  | VDict l => Ok (heap_get h l)
  | _ => Raise AttributeError
  end.

(** [v[key]] for a [str] key. *)
Definition getitem (h : list dict) (v : value) (key : string) : Res value :=
  match v with
  | VDict l =>
      match dict_get (VStr key) (heap_get h l) with
      | Some x => Ok x
      | None => Raise KeyError
      end
  | _ => Raise TypeError
  end.

(** The keys [json] writes: [str], [int], [float], [bool] and [None]. *)
Definition json_key (k : value) : bool :=
  match k with
  | VNone | VBool _ | VInt _ | VFloat _ | VStr _ => true
  | _ => false
  end.

(** [json.dumps(v)] with the encoder hook of utils.py installed, which
    renders a record as the text of its [__dict__] and an instant or a date
    with [dump_datetime] or [dump_date]: the exception it raises, if any
    (the text it makes is not modelled).  A key that is no [str], number
    or [None] raises [TypeError]; a dict inside itself raises [ValueError],
    [seen] holding the dicts that are being written; a record inside itself
    runs into the recursion limit, [depth] nested calls being left. *)
Fixpoint json_dumps (depth : nat) (h : list dict) (seen : list nat) (v : value) : Res unit :=
  match v with
  | VNone | VBool _ | VInt _ | VFloat _ | VStr _ => Ok tt
  | _ =>
      match depth with
      | O => Raise RecursionError
      | S depth' =>
          match v with
          | VList items | VTuple items =>
              fold_left (fun acc x => res_bind acc (fun _ => json_dumps depth' h seen x))
                        items (Ok tt)
          | VDict l =>
              if existsb (Nat.eqb l) seen then Raise ValueError
              else
                fold_left (fun acc kv =>
                             res_bind acc (fun _ =>
                               if json_key (fst kv)
                               then json_dumps depth' h (l :: seen) (snd kv)
                               else Raise TypeError))
                          (heap_get h l) (Ok tt)
          | VObj _ _ l => json_dumps depth' h [] (VDict l)
          | _ => Ok tt
          end
      end
  end.

(** [int(s)] for a [str]. *)
Definition int_of_text (s : string) : Res Z :=
  match Flt.drop_underscores false (Text.strip s) with
  | None => Raise ValueError
  | Some t =>
      let '(neg, ds) := Flt.split_sign t in
      let '(a, b) := Flt.span Text.is_digit ds in
      if Text.is_empty a || negb (Text.is_empty b) then Raise ValueError
      else Ok (if neg then - Text.digits_value 0 a else Text.digits_value 0 a)
  end.

(** [int(v)] *)
Definition py_int (v : value) : Res Z :=
  match v with
  | VBool b => Ok (Z_of_bool b)
  | VInt z => Ok z
  | VFloat f => Flt.to_int f
  | VStr s => int_of_text s
  | _ => Raise TypeError
  end.

(** [float(v)] *)
Definition py_float (v : value) : Res float :=
  match v with
  | VBool b => Ok (Flt.of_Z (Z_of_bool b))
  | VInt z => Flt.of_int z
  | VFloat f => Ok f
  | VStr s =>
      match Flt.of_text s with
      | Some f => Ok f
      | None => Raise ValueError
      end
  | _ => Raise TypeError
  end.

(** [a += b] for a left operand that is no record, as far as the values of
    this model go. *)
Definition py_iadd (h : list dict) (a b : value) : Res value :=
  match a, b with
  | VStr s, VStr t => Ok (VStr (s ++ t)%string)
  | VList l, _ => res_bind (py_iter h b) (fun l' => Ok (VList (l ++ l')))
  | VTuple l, VTuple l' => Ok (VTuple (l ++ l'))
  | (VBool _ | VInt _), (VBool _ | VInt _) =>
      res_bind (py_int a) (fun x => res_bind (py_int b) (fun y => Ok (VInt (x + y))))
  | VFloat _, (VBool _ | VInt _ | VFloat _) | (VBool _ | VInt _), VFloat _ =>
      res_bind (py_float a) (fun x => res_bind (py_float b) (fun y => Ok (VFloat (x + y)%float)))
  | _, _ => Raise TypeError
  end.

Definition compare_op (op : cmpop) (c : comparison) : bool :=
  match op, c with
  | op_lt, Lt => true
  | op_le, (Lt | Eq) => true
  | op_gt, Gt => true
  | op_ge, (Gt | Eq) => true
  | _, _ => false
  end.

(** [op(a, b)] on two floats. *)
Definition float_op (op : cmpop) (a b : float) : bool :=
  match op with
  | op_lt => (a <? b)%float
  | op_le => (a <=? b)%float
  | op_gt => (b <? a)%float
  | op_ge => (b <=? a)%float
  end.

(** ** utils.py: dates and offsets *)

Definition unit_words (days : bool) : list string :=
  if days then ["year"; "week"; "day"]
  else ["year"; "week"; "day"; "hour"; "minute"; "second"].

(** [({pattern})] *)
Definition rx_units (days : bool) : Re.re := Re.alts (map Re.lit (unit_words days)).

(** [f'in ([0-9]+) ({pattern})s?'] *)
Definition rx_in (days : bool) : Re.re :=
  Re.seqs [Re.lit "in "; Re.Grp 1 (Re.Plus Text.is_digit); Re.Chr " ";
           Re.Grp 2 (rx_units days); Re.Opt (Re.Chr "s")].

(** [f'([0-9]+) ({pattern})s? ago'] *)
Definition rx_ago (days : bool) : Re.re :=
  Re.seqs [Re.Grp 1 (Re.Plus Text.is_digit); Re.Chr " ";
           Re.Grp 2 (rx_units days); Re.Opt (Re.Chr "s"); Re.lit " ago"].

Definition group_text (i : nat) (cs : Re.caps) : string := default EmptyString (Re.group i cs).

(** [timedelta] called with the keyword [match.group(2) + 's'] set to
    [sign * int(match.group(1))]. *)
Definition offset_of_match (sign : Z) (cs : Re.caps) : Res timedelta :=
  Cal.timedelta_kw (group_text 2 cs ++ "s")%string
                   (sign * Text.digits_value 0 (group_text 1 cs)).

Definition parse_offset (h : list dict) (offset : value) (days : bool) : Res (option timedelta) :=
  if truthy h offset then
    match offset with
    | VStr s =>
        let offset := Text.sub_spaces false (Text.lower (Text.strip s)) in
        let fixed :=
          if days then
            if String.eqb offset "today" then Some 0
            else if String.eqb offset "yesterday" then Some (- Cal.DAY_US)
            else if String.eqb offset "tomorrow" then Some Cal.DAY_US
            else None
          else
            if String.eqb offset "now" then Some 0 else None in
        match fixed with
        | Some td => Ok (Some td)
        | None =>
            match Re.fullmatch (rx_in days) offset with
            | Some cs => res_bind (offset_of_match 1 cs) (fun td => Ok (Some td))
            | None =>
                match Re.fullmatch (rx_ago days) offset with
                | Some cs => res_bind (offset_of_match (-1) cs) (fun td => Ok (Some td))
                | None => Ok None
                end
            end
        end
    | _ => Raise AttributeError
    end
  else Ok None.

(** [if offset:] on what [parse_offset] returned: [None] and the zero
    [timedelta] are both false. *)
Definition offset_truthy (o : option timedelta) : option timedelta :=
  match o with
  | Some td => if td =? 0 then None else Some td
  | None => None
  end.

(** [val if val < 10000000000 else val / 1000] on a number. *)
Definition timestamp_arg (val : value) : Res value :=
  match val with
  | VInt z => if z <? 10000000000 then Ok val else res_bind (Flt.div_int z 1000) (fun f => Ok (VFloat f))
  | VFloat f => if (f <? 10000000000)%float then Ok val else Ok (VFloat (f / 1000)%float)
  | _ => Ok val
  end.

Definition dump_datetime (val : option datetime) : option string :=
  match val with
  | Some d => Some (Cal.format_datetime d)
  | None => None
  end.

Definition dump_date (val : option date) : option string :=
  match val with
  | Some d => Some (Cal.format_date d)
  | None => None
  end.

Definition utc_now (st : State) : datetime := clock st.

Section Library.

Variable lib : PyLib.

Definition parse_datetime (st : State) (val : value) (default : option datetime)
  : Res (option datetime) :=
  if negb (truthy (heap st) val) then Ok default
  else
    match val with
    | VDatetime d => Ok (Some d)
    | VBool _ | VInt _ | VFloat _ =>
        res_bind (timestamp_arg val) (fun ts =>
        res_bind (utcfromtimestamp lib ts) (fun d => Ok (Some d)))
    | _ =>
        res_bind (parse_offset (heap st) val false) (fun offset =>
        match offset_truthy offset with
        | Some td => res_bind (Cal.datetime_add (clock st) td) (fun d => Ok (Some d))
        | None =>
            match val with
            | VStr s => res_bind (Cal.strptime_datetime (Text.strip s)) (fun d => Ok (Some d))
            | _ => Raise AttributeError
            end
        end)
    end.

(** [parse_date] returns its argument when it is a [date], and a [datetime]
    is one: the result is a value. *)
Definition parse_date (st : State) (val : value) (default : value) : Res value :=
  if negb (truthy (heap st) val) then Ok default
  else
    match val with
    | VDate _ | VDatetime _ => Ok val
    | VBool _ | VInt _ | VFloat _ =>
        res_bind (timestamp_arg val) (fun ts =>
        res_bind (utcfromtimestamp lib ts) (fun d => Ok (VDate (Cal.date_of d))))
    | _ =>
        res_bind (parse_offset (heap st) val true) (fun offset =>
        match offset_truthy offset with
        | Some td => res_bind (Cal.date_add (Cal.date_of (clock st)) td) (fun d => Ok (VDate d))
        | None =>
            match val with
            | VStr s => res_bind (Cal.strptime_date (Text.strip s)) (fun d => Ok (VDate d))
            | _ => Raise AttributeError
            end
        end)
    end.

End Library.

(** ** The class table of Farmbot.py *)

Definition class_name (c : cls) : string :=
  match c with
  | Entity => "Entity" | Identifiable => "Identifiable" | Coordinate => "Coordinate"
  | Device => "Device" | Tool => "Tool" | Point => "Point" | Plant => "Plant"
  | ToolSlot => "ToolSlot" | Command => "Command" | Sequence => "Sequence"
  | LocationData => "LocationData" | InformationalSettings => "InformationalSettings"
  | Pin => "Pin" | ProcessInfo => "ProcessInfo" | Alert => "Alert"
  | BotStateTree => "BotStateTree"
  end.

(** The method resolution order of each class. *)
Definition mro (c : cls) : list cls :=
  match c with
  | Entity => [Entity]
  | Identifiable => [Identifiable; Entity]
  | Coordinate => [Coordinate; Entity]
  | Device => [Device; Identifiable; Entity]
  | Tool => [Tool; Identifiable; Entity]
  | Point => [Point; Identifiable; Coordinate; Entity]
  | Plant => [Plant; Point; Identifiable; Coordinate; Entity]
  | ToolSlot => [ToolSlot; Point; Identifiable; Coordinate; Entity]
  | Command => [Command; Entity]
  | Sequence => [Sequence; Identifiable; Entity]
  | LocationData => [LocationData; Entity]
  | InformationalSettings => [InformationalSettings; Entity]
  | Pin => [Pin; Entity]
  | ProcessInfo => [ProcessInfo; Entity]
  | Alert => [Alert; Entity]
  | BotStateTree => [BotStateTree; Entity]
  end.

(** [cls.__subclasses__()], in the order of the class statements. *)
Definition subclasses (c : cls) : list cls :=
  match c with
  | Entity => [Identifiable; Coordinate; Command; LocationData; InformationalSettings;
               Pin; ProcessInfo; Alert; BotStateTree]
  | Identifiable => [Device; Tool; Point; Sequence]
  | Coordinate => [Point]
  | Point => [Plant; ToolSlot]
  | _ => []
  end.

(** The annotations of the class body. *)
Definition annotations (c : cls) : list (string * ptype) :=
  match c with
  | Entity => []
  | Identifiable => [("id", TInt); ("created_at", TDatetime); ("updated_at", TDatetime)]
  | Coordinate => [("x", TInt); ("y", TInt); ("z", TInt)]
  | Device =>
      [("fbos_version", Optional TStr); ("last_saw_api", Optional TDatetime);
       ("last_saw_mq", Optional TDatetime); ("mounted_tool_id", Optional TInt);
       ("name", TStr); ("serial_number", TStr);
       ("throttled_at", Optional TDatetime); ("throttled_until", Optional TDatetime)]
  | Tool => [("name", TStr); ("status", TStr)]
  | Point =>
      [("device_id", TInt); ("pointer_type", TStr); ("name", TStr);
       ("meta", TDict TStr TAny); ("radius", TFloat); ("discarded_at", Optional TDatetime)]
  | Plant =>
      [("openfarm_slug", TStr); ("plant_stage", TStr); ("planted_at", Optional TDatetime)]
  | ToolSlot => [("tool_id", TInt); ("pullout_direction", Optional TInt)]
  | Command => [("kind", TStr); ("args", TDict TStr TAny)]
  | Sequence =>
      [("args", TDict TStr TAny); ("color", TStr); ("name", TStr); ("kind", TStr);
       ("body", TList (TClass Command))]
  | LocationData => [("position", TClass Coordinate)]
  | InformationalSettings =>
      [("busy", TBool); ("locked", TBool); ("commit", TStr); ("firmware_commit", TStr);
       ("target", TStr); ("env", TStr); ("node_name", TStr);
       ("currently_on_beta", Optional TBool); ("update_available", Optional TBool);
       ("memory_usage", Optional TInt); ("disk_usage", Optional TInt);
       ("soc_temp", Optional TInt); ("wifi_level", Optional TInt);
       ("controller_version", TStr); ("firmware_version", TStr); ("throttled", TStr);
       ("private_ip", TStr); ("sync_status", TStr); ("uptime", Optional TInt)]
  | Pin => [("mode", TInt); ("value", TFloat)]
  | ProcessInfo => [("farmwares", TDict TStr (TClass Entity))]
  | Alert =>
      [("id", Optional TInt); ("created_at", TDatetime); ("problem_tag", TStr);
       ("priority", TInt); ("slug", TStr)]
  | BotStateTree =>
      [("location_data", TClass LocationData);
       ("informational_settings", TClass InformationalSettings);
       ("pins", TDict TInt (TClass Pin)); ("configuration", TClass Entity);
       ("user_env", TDict TStr (Optional TStr)); ("jobs", TDict TStr (Optional TStr));
       ("process_info", TClass ProcessInfo);
       ("alerts", Optional (TDict TStr (TClass Alert)))]
  end.

Fixpoint assoc_get {A : Type} (k : string) (l : list (string * A)) : option A :=
  match l with
  | [] => None
  | (k', v) :: r => if String.eqb k' k then Some v else assoc_get k r
  end.

Fixpoint assoc_set {A : Type} (k : string) (v : A) (l : list (string * A)) : list (string * A) :=
  match l with
  | [] => [(k, v)]
  | (k', v') :: r => if String.eqb k' k then (k', v) :: r else (k', v') :: assoc_set k v r
  end.

Fixpoint assoc_del {A : Type} (k : string) (l : list (string * A)) : list (string * A) :=
  match l with
  | [] => []
  | (k', v') :: r => if String.eqb k' k then r else (k', v') :: assoc_del k r
  end.

Definition assoc_mem {A : Type} (k : string) (l : list (string * A)) : bool :=
  match assoc_get k l with
  | Some _ => true
  | None => false
  end.

(** [typing.get_type_hints(cls)]: the annotations along the reversed MRO, a
    later class overriding an earlier one. *)
Definition get_type_hints (c : cls) : list (string * ptype) :=
  fold_left (fun hints base =>
               fold_left (fun acc kv => assoc_set (fst kv) (snd kv) acc) (annotations base) hints)
            (rev (mro c)) [].

(** [typ.__name__], as Python 3.10 and later name the shapes of [typing]. *)
Definition type_name (t : ptype) : string :=
  match t with
  | TAny => "Any" | TBool => "bool" | TStr => "str" | TInt => "int" | TFloat => "float"
  | TDate => "date" | TDatetime => "datetime" | TNoneType => "NoneType"
  | TUnion [a; b] =>
      if ptype_eqb a TNoneType || ptype_eqb b TNoneType then "Optional" else "Union"
  | TUnion _ => "Union" | TList _ => "List" | TDict _ _ => "Dict"
  | TClass c => class_name c
  | TOther n => n
  end.

(** ** utils.py: the factory registry *)

(** The initial value of [utils.factories]. *)
Definition initial_factories : list (ptype * Factory) :=
  [(TAny, FAny); (TBool, FBool); (TStr, FStr); (TInt, FInt); (TFloat, FFloat);
   (TDate, FParseDate); (TDatetime, FParseDatetime)].

Fixpoint cache_get (t : ptype) (c : list (ptype * Factory)) : option Factory :=
  match c with
  | [] => None
  | (t', f) :: r => if ptype_eqb t' t then Some f else cache_get t r
  end.

Fixpoint cache_set (t : ptype) (f : Factory) (c : list (ptype * Factory)) : list (ptype * Factory) :=
  match c with
  | [] => [(t, f)]
  | (t', f') :: r => if ptype_eqb t' t then (t', f) :: r else (t', f') :: cache_set t f r
  end.

Definition new_cell (f : option Factory) : M nat :=
  fun st => (Ok (length (cells st)), set_cells (cells st ++ [f]) st).

Definition set_cell (c : nat) (f : option Factory) : M unit :=
  modify (fun st => set_cells (<[c := f]> (cells st)) st).

Definition read_cell (c : nat) : M (option Factory) :=
  gets (fun st => default None (cells st !! c)).

(** [EntityFactory(cls)]: a new object with [props = None]. *)
Definition new_entity_factory (c : cls) : M nat :=
  fun st => (Ok (length (efactories st)), set_efactories (efactories st ++ [(c, None)]) st).

Fixpoint get_factory (expected_type : ptype) : M Factory :=
  let* cached := gets (fun st => cache_get expected_type (factories st)) in
  match cached with
  | Some f => ret f
  | None =>
      let* factory :=
        match expected_type with
        | TUnion args =>
            let* '(nullable, factory) :=
              (fix loop (args : list ptype) (nullable : bool) (factory : option Factory)
                 : M (bool * option Factory) :=
                 match args with
                 | [] => ret (nullable, factory)
                 | type_ :: rest =>
                     if ptype_eqb type_ TNoneType then loop rest true factory
                     else
                       match factory with
                       | None =>
                           let* f := get_factory type_ in
                           loop rest nullable (Some f)
                       | Some _ => raise TypeError
                       end
                 end) args false None in
            if nullable then
              match factory with
              | Some f =>
                  (* The lambda closes over the variable [factory], which holds [f]
                     when the lambda is made; the assignment [factory = lambda ...]
                     then stores the lambda in that same variable. *)
                  let* c := new_cell (Some f) in
                  run* set_cell c (Some (FOptional c)) in
                  read_cell c
              | None => ret (Some FNone)
              end
            else ret factory
        | TList item_type =>
            let* item_factory := get_factory item_type in
            ret (Some (FList item_factory))
        | TDict key_type value_type =>
            let* key_factory := get_factory key_type in
            let* value_factory := get_factory value_type in
            ret (Some (FDict key_factory value_factory))
        | TClass c =>
            let* ef := new_entity_factory c in
            ret (Some (FMake ef))
        | _ => ret None
        end in
      match factory with
      | None => raise TypeError
      | Some f =>
          run* modify (fun st => set_factories (cache_set expected_type f (factories st)) st) in
          ret f
      end
  end.

Fixpoint map_m {A B : Type} (f : A -> M B) (l : list A) : M (list B) :=
  match l with
  | [] => ret []
  | a :: r =>
      let* b := f a in
      let* bs := map_m f r in
      ret (b :: bs)
  end.

Fixpoint for_each {A : Type} (f : A -> M unit) (l : list A) : M unit :=
  match l with
  | [] => ret tt
  | a :: r => run* f a in for_each f r
  end.

(** [EntityFactory.get_props] on the object [ef]. *)
Definition get_props (ef : nat) : M props :=
  let* o := gets (fun st => efactories st !! ef) in
  match o with
  | None => raise AttributeError
  | Some (c, Some (p :: ps)) => ret (p :: ps)
  | Some (c, _) =>
      let* ps := map_m (fun item => let* f := get_factory (snd item) in ret (fst item, f))
                       (get_type_hints c) in
      run* modify (fun st => set_efactories (<[ef := (c, Some ps)]> (efactories st)) st) in
      ret ps
  end.

(** [get_factory(cls).__self__.get_props()] *)
Definition class_props (c : cls) : M props :=
  let* f := get_factory (TClass c) in
  match f with
  | FMake ef => get_props ef
  | _ => raise AttributeError
  end.

(** ** Entity *)

(** [self.<name>] on an instance: the attributes read by the code are keys of
    [__dict__]. *)
Definition getattr (self : value) (name : string) : M value :=
  match self with
  | VObj _ _ l =>
      let* d := read_dict l in
      match dict_get (VStr name) d with
      | Some v => ret v
      | None => raise AttributeError
      end
  | _ => raise AttributeError
  end.

(** [self.<name> = v] *)
Definition setattr (self : value) (name : string) (v : value) : M unit :=
  match self with
  | VObj _ _ l =>
      let* d := read_dict l in
      write_dict l (dict_set (VStr name) v d)
  | _ => raise AttributeError
  end.

(** [Entity.__new__(cls, __dict__, **kwargs)] *)
Definition Entity_new (c : cls) (__dict__ : value) (kwargs : list (string * value)) : M value :=
  let* id := fresh_id in
  let* own := alloc_dict [] in
  let* given := gets (fun st => truthy (heap st) __dict__) in
  let* l :=
    if given then
      match __dict__ with
      | VDict l => ret l
      | _ => raise TypeError
      end
    else ret own in
  let* ps := class_props c in
  run* for_each (fun kv =>
                   let* d := read_dict l in
                   write_dict l (dict_setdefault (VStr (fst kv)) d)) ps in
  ret (VObj c id l).

(** [Entity.__init__(self, __dict__, **kwargs)] *)
Definition Entity_init (self : value) (__dict__ : value) (kwargs : list (string * value)) : M unit :=
  if is_nil kwargs then ret tt
  else
    match self with
    | VObj _ _ l =>
        let* d := read_dict l in
        write_dict l (dict_update kwargs d)
    | _ => raise AttributeError
    end.

(** ** Farmbot.py: points *)

(** The loop of [get_point_type] that fills [__point_types]; [None] when
    [fuel] iterations do not empty the queue.  The test
    [child not in __point_types] looks a class up among names, and holds. *)
Fixpoint scan_point_types (fuel : nat) (queue : list cls) (types : list (string * cls))
  : option (list (string * cls)) :=
  match fuel with
  | O => None
  | S n =>
      match rev queue with
      | [] => Some types
      | parent :: others =>
          let '(types', queue') :=
            fold_left (fun acc child =>
                         (assoc_set (class_name child) child (fst acc), snd acc ++ [child]))
                      (subclasses parent) (types, rev others) in
          scan_point_types n queue' types'
      end
  end.

Definition get_point_type (pointer_type : value) : M cls :=
  let* cached := gets point_types in
  let* types :=
    match cached with
    | Some (t :: ts) => ret (t :: ts)
    | _ =>
        match scan_point_types 17 [Point] [] with
        | Some types =>
            run* modify (set_point_types (Some types)) in
            ret types
        | None => raise RecursionError
        end
    end in
  if hashable pointer_type then
    match pointer_type with
    | VStr s => ret (default Point (assoc_get s types))
    | _ => ret Point
    end
  else raise TypeError.

Definition get_pointer_type (point_type : cls) : string :=
  match point_type with
  | Point => "GenericPointer"
  | _ => class_name point_type
  end.

(** [(__dict__ or kwargs).get('pointer_type')] *)
Definition discriminator (__dict__ : value) (kwargs : list (string * value)) : M value :=
  let* given := gets (fun st => truthy (heap st) __dict__) in
  if given then
    match __dict__ with
    | VDict l =>
        let* d := read_dict l in
        ret (default VNone (dict_get (VStr "pointer_type") d))
    | _ => raise AttributeError
    end
  else ret (default VNone (assoc_get "pointer_type" kwargs)).

(** [Point.__new__(cls, __dict__, **kwargs)] *)
Definition Point_new (c : cls) (__dict__ : value) (kwargs : list (string * value)) : M value :=
  let* given := gets (fun st => truthy (heap st) __dict__ || negb (is_nil kwargs)) in
  let* c' :=
    if bool_decide (c = Point) && given
    then
      let* pointer_type := discriminator __dict__ kwargs in
      get_point_type pointer_type
    else ret c in
  Entity_new c' __dict__ kwargs.

Definition is_none (v : value) : bool :=
  match v with
  | VNone => true
  | _ => false
  end.

Definition type_of (self : value) : cls :=
  match self with
  | VObj c _ _ => c
  | _ => Entity
  end.

(** [if self.<name> is None: self.<name> = v] *)
Definition default_attr (self : value) (name : string) (v : M value) : M unit :=
  let* cur := getattr self name in
  if is_none cur then
    let* x := v in
    setattr self name x
  else ret tt.

(** [Point.__init__(self, __dict__, **kwargs)] *)
Definition Point_init (self : value) (__dict__ : value) (kwargs : list (string * value)) : M unit :=
  run* Entity_init self __dict__ kwargs in
  let* pointer_type := getattr self "pointer_type" in
  let* has_type := gets (fun st => truthy (heap st) pointer_type) in
  run* (if has_type then ret tt
        else setattr self "pointer_type" (VStr (get_pointer_type (type_of self)))) in
  run* default_attr self "meta" (let* l := alloc_dict [] in ret (VDict l)) in
  run* default_attr self "x" (ret (VInt 0)) in
  run* default_attr self "y" (ret (VInt 0)) in
  run* default_attr self "z" (ret (VInt 0)) in
  default_attr self "radius" (ret (VFloat 0%float)).

Definition is_point_class (c : cls) : bool := bool_decide (Point ∈ mro c).

(** [cls(__dict__, **kwargs)]: [__new__], then [__init__] on its result. *)
Definition construct (c : cls) (__dict__ : value) (kwargs : list (string * value)) : M value :=
  if is_point_class c then
    let* self := Point_new c __dict__ kwargs in
    run* Point_init self __dict__ kwargs in
    ret self
  else
    let* self := Entity_new c __dict__ kwargs in
    run* Entity_init self __dict__ kwargs in
    ret self.

(** ** Farmbot.py: [Coordinate] *)

(** [a + b] for operands that are no records, as far as the values of this
    model go (there is no [timedelta] among them, so that nothing can be
    added to an instant). *)
Definition py_add (a b : value) : Res value :=
  match a, b with
  | VStr s, VStr t => Ok (VStr (s ++ t)%string)
  | VList l, VList l' => Ok (VList (l ++ l'))
  | VTuple l, VTuple l' => Ok (VTuple (l ++ l'))
  | (VBool _ | VInt _), (VBool _ | VInt _) =>
      res_bind (py_int a) (fun x => res_bind (py_int b) (fun y => Ok (VInt (x + y))))
  | VFloat _, (VBool _ | VInt _ | VFloat _) | (VBool _ | VInt _), VFloat _ =>
      res_bind (py_float a) (fun x => res_bind (py_float b) (fun y => Ok (VFloat (x + y)%float)))
  | _, _ => Raise TypeError
  end.

(** [-a] for an operand that is no record. *)
Definition py_neg (a : value) : Res value :=
  match a with
  | VBool _ | VInt _ => res_bind (py_int a) (fun x => Ok (VInt (- x)))
  | VFloat f => Ok (VFloat (- f)%float)
  | _ => Raise TypeError
  end.

(** The classes that inherit [__add__] and [__neg__]. *)
Definition is_coordinate (c : cls) : bool := bool_decide (Coordinate ∈ mro c).

(** [Coordinate({'x': x, 'y': y, 'z': z})] *)
Definition new_coordinate (x y z : value) : M value :=
  let* l := alloc_dict [(VStr "x", x); (VStr "y", y); (VStr "z", z)] in
  construct Coordinate (VDict l) [].

(** [Coordinate.__add__(self, other)], with [depth] calls left before the
    recursion limit: a coordinate that is itself a record of [Coordinate]
    is added by the same method. *)
Fixpoint Coordinate_add (depth : nat) (self other : value) : M value :=
  match depth with
  | O => raise RecursionError
  | S depth' =>
      let add (a b : value) : M value :=
        match a with
        | VObj c _ _ => if is_coordinate c then Coordinate_add depth' a b else raise TypeError
        | _ => lift (py_add a b)
        end in
      let* a := getattr self "x" in
      let* b := getattr other "x" in
      let* x := add a b in
      let* a := getattr self "y" in
      let* b := getattr other "y" in
      let* y := add a b in
      let* a := getattr self "z" in
      let* b := getattr other "z" in
      let* z := add a b in
      new_coordinate x y z
  end.

(** [Coordinate.__neg__(self)] *)
Fixpoint Coordinate_neg (depth : nat) (self : value) : M value :=
  match depth with
  | O => raise RecursionError
  | S depth' =>
      let neg (a : value) : M value :=
        match a with
        | VObj c _ _ => if is_coordinate c then Coordinate_neg depth' a else raise TypeError
        | _ => lift (py_neg a)
        end in
      let* a := getattr self "x" in
      let* x := neg a in
      let* a := getattr self "y" in
      let* y := neg a in
      let* a := getattr self "z" in
      let* z := neg a in
      new_coordinate x y z
  end.

(** [key in v] for a [str] key: a key of a dict, a part of a text, an item
    of a list or tuple. *)
Definition py_contains (h : list dict) (key : string) (v : value) : Res bool :=
  match v with
  | VDict l => Ok (bool_decide (is_Some (dict_get (VStr key) (heap_get h l))))
  | VStr s => Ok (bool_decide (is_Some (String.index 0 key s)))
  | VList l | VTuple l =>
      Ok (existsb (fun x => match x with VStr t => String.eqb t key | _ => false end) l)
  | _ => Raise TypeError
  end.

(** [other[key] if key in other else self.<key>] *)
Definition merged (self other : value) (key : string) : M value :=
  let* present := fun st => (py_contains (heap st) key other, st) in
  if present : bool then fun st => (getitem (heap st) other key, st)
  else getattr self key.

(** [Coordinate.merge(self, other)] *)
Definition Coordinate_merge (self other : value) : M value :=
  let* x := merged self other "x" in
  let* y := merged self other "y" in
  let* z := merged self other "z" in
  new_coordinate x y z.

(** [a += b]: a record has no [__iadd__], so that the sum is made by
    [__add__], which the classes of [Coordinate] have and the other records
    lack. *)
Definition iadd (depth : nat) (a b : value) : M value :=
  match a with
  | VObj c _ _ => if is_coordinate c then Coordinate_add depth a b else raise TypeError
  | _ => fun st => (py_iadd (heap st) a b, st)
  end.

(** ** Calling a factory *)

(** The value of a literal; its dicts are new objects. *)
Fixpoint value_of_lit (x : lit) : M value :=
  match x with
  | LNone => ret VNone
  | LBool b => ret (VBool b)
  | LInt z => ret (VInt z)
  | LFloat f => ret (VFloat f)
  | LStr s => ret (VStr s)
  | LList items =>
      let* vs := (fix go (l : list lit) : M (list value) :=
                    match l with
                    | [] => ret []
                    | a :: r =>
                        let* v := value_of_lit a in
                        let* vs := go r in
                        ret (v :: vs)
                    end) items in
      ret (VList vs)
  | LTuple items =>
      let* vs := (fix go (l : list lit) : M (list value) :=
                    match l with
                    | [] => ret []
                    | a :: r =>
                        let* v := value_of_lit a in
                        let* vs := go r in
                        ret (v :: vs)
                    end) items in
      ret (VTuple vs)
  | LDict items =>
      let* d := (fix go (l : list (lit * lit)) (acc : dict) : M dict :=
                   match l with
                   | [] => ret acc
                   | (a, b) :: r =>
                       let* k := value_of_lit a in
                       let* v := value_of_lit b in
                       if hashable k then go r (dict_set k v acc) else raise TypeError
                   end) items [] in
      let* l := alloc_dict d in
      ret (VDict l)
  end.

(** [val in (None, 'None')] *)
Definition in_none (val : value) : bool :=
  match val with
  | VNone => true
  | VStr s => String.eqb s "None"
  | _ => false
  end.

Section Factories.

Variable lib : PyLib.

(** [ast.literal_eval(val) if isinstance(val, str) else val] *)
Definition literal_or_self (val : value) : M value :=
  match val with
  | VStr s =>
      let* x := lift (literal_eval lib s) in
      value_of_lit x
  | _ => ret val
  end.

(** [str(val)] *)
Definition py_str (h : list dict) (val : value) : string :=
  match val with
  | VNone => "None"
  | VBool true => "True"
  | VBool false => "False"
  | VInt z => Text.decimal z
  | VStr s => s
  | _ => str_other lib h val
  end.

(** [data.get(key)] *)
Definition data_get (data : value) (key : string) : M value :=
  match data with
  | VDict l =>
      let* d := read_dict l in
      ret (default VNone (dict_get (VStr key) d))
  | _ => raise AttributeError
  end.

(** [data[key] = v] *)
Definition setitem (data : value) (key : string) (v : value) : M unit :=
  match data with
  | VDict l =>
      let* d := read_dict l in
      write_dict l (dict_set (VStr key) v d)
  | _ => raise TypeError
  end.

(** [factory(val)], with [depth] calls left before the recursion limit.
    [FMake ef] is [EntityFactory.make]. *)
Fixpoint call (depth : nat) (f : Factory) (val : value) : M value :=
  match depth with
  | O => raise RecursionError
  | S depth' =>
      match f with
      | FAny => ret val
      | FBool =>
          let* x := literal_or_self val in
          let* b := gets (fun st => truthy (heap st) x) in
          ret (VBool b)
      | FStr =>
          let* s := gets (fun st => py_str (heap st) val) in
          ret (VStr s)
      | FInt =>
          let* x := literal_or_self val in
          let* z := lift (py_int x) in
          ret (VInt z)
      | FFloat =>
          let* x := literal_or_self val in
          let* r := lift (py_float x) in
          ret (VFloat r)
      | FParseDate => fun st => (parse_date lib st val VNone, st)
      | FParseDatetime =>
          fun st =>
            match parse_datetime lib st val None with
            | Ok (Some d) => (Ok (VDatetime d), st)
            | Ok None => (Ok VNone, st)
            | Raise e => (Raise e, st)
            end
      | FOptional c =>
          if in_none val then ret VNone
          else
            let* factory := read_cell c in
            match factory with
            | Some g => call depth' g val
            | None => raise TypeError
            end
      | FNone => ret VNone
      | FList item_factory =>
          let* x := literal_or_self val in
          let* items := fun st => (py_iter (heap st) x, st) in
          let* vs := map_m (call depth' item_factory) items in
          ret (VList vs)
      | FDict key_factory value_factory =>
          let* x := literal_or_self val in
          let* items := fun st => (py_items (heap st) x, st) in
          let* d := fold_left (fun acc item =>
                                 let* d := acc in
                                 let* k := call depth' key_factory (fst item) in
                                 let* v := call depth' value_factory (snd item) in
                                 if hashable k then ret (dict_set k v d) else raise TypeError)
                              items (ret []) in
          let* l := alloc_dict d in
          ret (VDict l)
      | FMake ef =>
          let* ps := get_props ef in
          run* for_each (fun kv =>
                           let* old := data_get val (fst kv) in
                           let* v := call depth' (snd kv) old in
                           setitem val (fst kv) v) ps in
          let* o := gets (fun st => efactories st !! ef) in
          match o with
          | Some (c, _) => construct c val []
          | None => raise AttributeError
          end
      end
  end.

(** [EntityFactory.make(data)] on the object [ef]. *)
Definition make (depth : nat) (ef : nat) (data : value) : M value :=
  call depth (FMake ef) data.

(** ** Farmbot.py: [deserialize] *)

(** The message of the [except] block is made before it is logged:
    [json.dumps(data)] may raise, and then nothing is logged. *)
Definition deserialize (depth : nat) (typ : ptype) (data : value) : M value :=
  fun st =>
    match (let* f := get_factory typ in call depth f data) st with
    | (Ok v, st') => (Ok v, st')
    | (Raise ex, st') =>
        (run* (fun st => (json_dumps depth (heap st) [] data, st)) in
         run* device_log (LogDeserializeFailed (type_name typ) data) in
         raise ex) st'
    end.

(** ** Farmbot.py: [Point.apply] *)

Definition drop_first (s : string) : string :=
  match s with
  | EmptyString => EmptyString
  | String _ r => r
  end.

(** [(key in ('meta', 'id')) or (key not in props)] *)
Definition ismeta_of (ps : props) (key : string) : bool :=
  (String.eqb key "meta" || String.eqb key "id") || negb (assoc_mem key ps).

(** The start of the loop body of [Point.apply] (lines 137 to 140): a text
    that is an offset becomes the instant that far from now. *)
Definition update_value (val : value) : M value :=
  match val with
  | VStr _ =>
      let* offset := fun st => (parse_offset (heap st) val false, st) in
      match offset_truthy offset with
      | Some td =>
          let* d := fun st => (Cal.datetime_add (utc_now st) td, st) in
          ret (match dump_datetime (Some d) with Some s => VStr s | None => VNone end)
      | None => ret val
      end
  | _ => ret val
  end.

(** The end of the loop body (lines 141 to 153). *)
Definition store_update (depth : nat) (self : value) (key : string) (val : value) : M unit :=
  let append := Text.startswith "+" key in
  let key := if append then drop_first key else key in
  let* ps := class_props (type_of self) in
  let ismeta := ismeta_of ps key in
  let* data :=
    if ismeta then getattr self "meta"
    else
      match self with
      | VObj _ _ l => ret (VDict l)
      | _ => raise AttributeError
      end in
  match data with
  | VDict l =>
      let* d := read_dict l in
      if append then
        match dict_get (VStr key) d with
        | Some old =>
            let* new := iadd depth old val in
            let* d' := read_dict l in
            write_dict l (dict_set (VStr key) new d')
        | None => raise KeyError
        end
      else if is_none val && ismeta then
        match dict_get (VStr key) d with
        | Some _ => write_dict l (dict_del (VStr key) d)
        | None => raise KeyError
        end
      else write_dict l (dict_set (VStr key) val d)
  | _ => raise TypeError
  end.

(** One round of the loop of [Point.apply], with [depth] calls left before
    the recursion limit. *)
Definition apply_update (depth : nat) (self : value) (update : string * value) : M unit :=
  let '(key, val) := update in
  let* val := update_value val in
  store_update depth self key val.

(** [Point.apply(self, updates)], for the items of [updates] in order; the
    message logged at the end holds [json.dumps(self)]. *)
Definition Point_apply (depth : nat) (self : value) (updates : list (string * value)) : M unit :=
  run* for_each (apply_update depth self) updates in
  run* (fun st => (json_dumps depth (heap st) [] self, st)) in
  device_log (LogApplied self).

End Factories.

(** ** Farmbot.py: [PointQuery] *)

Definition sp1 : Re.re := Re.Plus Text.is_space.
Definition dg : Re.re := Re.Cls Text.is_digit.
Definition dg1 : Re.re := Re.Plus Text.is_digit.
Definition az1 : Re.re := Re.Plus Text.is_lower.

(** [PointQuery.__rxdate] *)
Definition rxdate : Re.re :=
  Re.Seq
    (Re.Opt (Re.Seq (Re.Grp 1 (Re.Alt (Re.lit "before") (Re.lit "after"))) sp1))
    (Re.Grp 2
       (Re.alts
          [Re.seqs [dg1; Re.Cls Text.is_space; az1; sp1; Re.lit "ago"];
           Re.seqs [Re.lit "in"; sp1; dg1; sp1; az1];
           Re.lit "now";
           Re.seqs [Re.lit "20"; Re.Cls (Text.in_range 49 57); dg; Re.Chr "-"; dg; dg;
                    Re.Chr "-"; dg; dg; Re.Chr "T"; dg; dg; Re.Chr ":"; dg; dg; Re.Chr ":";
                    dg; dg; Re.Seq (Re.Chr ".") dg1; Re.Chr "Z"]])).

(** [-?[0-9]+(?:\.[0-9]+)?(?:[eE][+-]?[0-9]+)?], the number of [__rxnum]. *)
Definition rx_number : Re.re :=
  Re.seqs
    [Re.Opt (Re.Chr "-"); dg1; Re.Opt (Re.Seq (Re.Chr ".") dg1);
     Re.Opt (Re.seqs [Re.Cls (fun c => Ascii.eqb c "e" || Ascii.eqb c "E");
                      Re.Opt (Re.Cls (fun c => Ascii.eqb c "+" || Ascii.eqb c "-"));
                      dg1])].

(** [PointQuery.__rxnum] *)
Definition rxnum : Re.re :=
  Re.seqs
    [Re.lit "at"; sp1; Re.Grp 1 (Re.Alt (Re.lit "least") (Re.lit "most")); sp1;
     Re.Grp 2 rx_number].

Record PointQuery : Type := mk_PointQuery {
  pq_predicates : list predicate;   (* self.predicates *)
  pq_filter : qfilter;              (* self.filter *)
  pq_factory : option Factory       (* self.factory, when the attribute is set *)
}.

(** The [query] argument: a literal in text, or the list of clauses. *)
Inductive query : Type :=
| QText (s : string)
| QClauses (l : list (string * value)).

(** [self.filter['meta'][key] = value] *)
Definition filter_set_meta (key : string) (v : value) (f : qfilter) : Res qfilter :=
  match assoc_get "meta" f with
  | Some (FSub m) => Ok (assoc_set "meta" (FSub (assoc_set key v m)) f)
  | Some (FValue _) => Raise TypeError
  | None => Raise KeyError
  end.

(** [self.filter[key] = value] *)
Definition filter_set (key : string) (v : value) (f : qfilter) : qfilter :=
  assoc_set key (FValue v) f.

(** [if not self.filter['meta']: del self.filter['meta']] *)
Definition drop_empty_meta (h : list dict) (f : qfilter) : Res qfilter :=
  match assoc_get "meta" f with
  | Some (FSub []) => Ok (assoc_del "meta" f)
  | Some (FSub _) => Ok f
  | Some (FValue v) => Ok (if truthy h v then f else assoc_del "meta" f)
  | None => Raise KeyError
  end.

(** [json.dumps(self.filter)]: the filter and its ['meta'] are dicts with
    text keys, made by [__init__] and held by nothing else. *)
Definition json_dumps_filter (depth : nat) (h : list dict) (f : qfilter) : Res unit :=
  match depth with
  | O => Raise RecursionError
  | S depth' =>
      fold_left (fun acc kv =>
                   res_bind acc (fun _ =>
                     match snd kv with
                     | FValue v => json_dumps depth' h [] v
                     | FSub m =>
                         match depth' with
                         | O => Raise RecursionError
                         | S depth'' =>
                             fold_left (fun acc kv =>
                                          res_bind acc (fun _ => json_dumps depth'' h [] (snd kv)))
                                       m (Ok tt)
                         end
                     end))
                f (Ok tt)
  end.

(** [a == b], with [depth] nested comparisons left. *)
Fixpoint py_eq (depth : nat) (h : list dict) (a b : value) : Res bool :=
  match depth with
  | O => Raise RecursionError
  | S depth' =>
      let fix all2 (l l' : list value) : Res bool :=
        match l, l' with
        | [], [] => Ok true
        | x :: r, y :: r' =>
            res_bind (py_eq depth' h x y) (fun e => if e then all2 r r' else Ok false)
        | _, _ => Ok false
        end in
      match a, b with
      | VList l, VList l' => all2 l l'
      | VDict x, VDict y =>
          if Nat.eqb x y then Ok true
          else
            let dx := heap_get h x in
            let dy := heap_get h y in
            if Nat.eqb (List.length dx) (List.length dy)
            then
              fold_left (fun (acc : Res bool) (kv : value * value) =>
                           res_bind acc (fun ok : bool =>
                             if ok then
                               match dict_get (fst kv) dy with
                               | Some v' => py_eq depth' h (snd kv) v'
                               | None => Ok false
                               end
                             else Ok false))
                        dx (Ok true)
            else Ok false
      | _, _ => Ok (key_eqb a b)
      end
  end.

Definition run_getter (h : list dict) (g : getter) (v : value) : Res value :=
  match g with
  | GetMeta key => res_bind (getitem h v "meta") (fun m => getitem h m key)
  | GetField key => getitem h v key
  end.

Section Queries.

Variable lib : PyLib.

(** [predicate(v)] *)
Definition apply_predicate (depth : nat) (st : State) (p : predicate) (v : value) : Res bool :=
  match p with
  | PDate get op date =>
      res_bind (run_getter (heap st) get v) (fun x =>
      res_bind (parse_datetime lib st x None) (fun d =>
      match d with
      | Some d' => Ok (compare_op op (Cal.compare d' date))
      | None => Raise TypeError
      end))
  | PNum get op number =>
      res_bind (run_getter (heap st) get v) (fun x =>
      res_bind (py_float x) (fun f => Ok (float_op op f number)))
  | PNe get val =>
      res_bind (run_getter (heap st) get v) (fun x =>
      res_bind (py_eq depth (heap st) x val) (fun e => Ok (negb e)))
  end.

(** The end of the loop body of [__init__] (lines 296 to 301). *)
Definition plain_clause (negate ismeta : bool) (get : getter) (key : string) (val : value)
                        (acc : list predicate * qfilter) : Res (list predicate * qfilter) :=
  let '(preds, flt) := acc in
  if negate then Ok (preds ++ [PNe get val], flt)
  else if ismeta then res_bind (filter_set_meta key val flt) (fun flt' => Ok (preds, flt'))
  else Ok (preds, filter_set key val flt).

(** The special number handling (lines 287 to 295), then the end of the
    loop body. *)
Definition number_clause (negate ismeta : bool) (get : getter) (key : string) (val : value)
                         (acc : list predicate * qfilter) : Res (list predicate * qfilter) :=
  match val with
  | VStr s =>
      match Re.fullmatch rxnum (Text.strip s) with
      | Some cs =>
          res_bind (py_float (VStr (group_text 2 cs))) (fun number =>
          let op :=
            if String.eqb (group_text 1 cs) "least"
            then (if negate then op_lt else op_ge)
            else (if negate then op_gt else op_le) in
          Ok (fst acc ++ [PNum get op number], snd acc))
      | None => plain_clause negate ismeta get key val acc
      end
  | _ => Raise AttributeError
  end.

(** One round of the loop of [PointQuery.__init__]. *)
Definition compile_clause (st : State) (ps : props) (acc : list predicate * qfilter)
                          (clause : string * value) : Res (list predicate * qfilter) :=
  let '(key, val) := clause in
  let negate := Text.startswith "!" key in
  let key := if negate then drop_first key else key in
  let ismeta := ismeta_of ps key in
  let get := if ismeta then GetMeta key else GetField key in
  match val with
  | VStr s =>
      match Re.fullmatch rxdate (Text.strip s) with
      | Some cs =>
          res_bind (parse_datetime lib st (VStr (group_text 2 cs)) None) (fun date =>
          match Re.group 1 cs with
          | None =>
              let val' := match dump_datetime date with Some t => VStr t | None => VNone end in
              number_clause negate ismeta get key val' acc
          | Some q =>
              let op :=
                if String.eqb q "before"
                then (if negate then op_ge else op_lt)
                else (if negate then op_le else op_gt) in
              match date with
              | Some d => Ok (fst acc ++ [PDate get op d], snd acc)
              | None => Raise TypeError
              end
          end)
      | None => number_clause negate ismeta get key val acc
      end
  | _ => plain_clause negate ismeta get key val acc
  end.

(** [for key, value in query]: one item of the literal, unpacked. *)
Definition unpack_clause (h : list dict) (item : value) : Res (string * value) :=
  res_bind (py_iter h item) (fun parts =>
  match parts with
  | [VStr k; x] => Ok (k, x)
  | [_; _] => Raise AttributeError
  | _ => Raise ValueError
  end).

(** [PointQuery.__init__(self, point_type, query)], with [depth] calls left
    before the recursion limit; the message logged at the end holds
    [json.dumps(self.filter)]. *)
Definition PointQuery_init (depth : nat) (point_type : cls) (q : query) : M PointQuery :=
  let* ps := class_props point_type in
  let* clauses :=
    match q with
    | QText s =>
        let* x := lift (literal_eval lib s) in
        let* v := value_of_lit x in
        let* items := fun st => (py_iter (heap st) v, st) in
        fun st => (Ok (map (unpack_clause (heap st)) items), st)
    | QClauses l => ret (map (@Ok (string * value)) l)
    end in
  let start : list predicate * qfilter :=
    ([], [("pointer_type", FValue (VStr (get_pointer_type point_type))); ("meta", FSub [])]) in
  let* acc :=
    fold_left (fun m r =>
                 let* acc := m in
                 let* clause := lift r in
                 fun st => (compile_clause st ps acc clause, st))
              clauses (ret start) in
  let* flt := fun st => (drop_empty_meta (heap st) (snd acc), st) in
  run* (fun st => (json_dumps_filter depth (heap st) flt, st)) in
  run* device_log (LogBuiltFilter flt (length (fst acc))) in
  ret (mk_PointQuery (fst acc) flt None).

(** [PointQuery.execute(self)]; [search_points] is [app.search_points]. *)
Definition execute (depth : nat) (search_points : qfilter -> M (list value)) (self : PointQuery)
  : M (list value) :=
  let* found := search_points (pq_filter self) in
  fold_left (fun m data =>
               let* result := m in
               let* factory :=
                 match pq_factory self with
                 | Some f => ret f
                 | None => raise AttributeError
                 end in
               let* point := call lib depth factory data in
               run* for_each (fun predicate =>
                                let* passed := fun st => (apply_predicate depth st predicate point, st) in
                                if negb passed then ret tt (* continue *) else ret tt)
                             (pq_predicates self) in
               ret (result ++ [point]))
            found (ret []).

End Queries.
(** * Properties *)

(** The state of a fresh interpreter, at the time [now]. *)
Definition initial_state (now : datetime) : State :=
  mk_State [] 0 initial_factories [] [] None [] now.

(** A library instance to run examples with: [literal_eval] reads [None],
    [True], [False] and decimal integers and rejects every other text;
    [utcfromtimestamp] takes whole seconds. *)
Definition example_lib : PyLib :=
  mk_PyLib
    (fun s =>
       let t := Text.strip s in
       if String.eqb t "None" then Ok LNone
       else if String.eqb t "True" then Ok (LBool true)
       else if String.eqb t "False" then Ok (LBool false)
       else match int_of_text t with
            | Ok z => Ok (LInt z)
            | Raise _ => Raise SyntaxError
            end)
    (fun _ _ => "?")
    (fun v =>
       match v with
       | VInt z =>
           let t := (719163 * 86400 + z) * 1000000 in
           if (0 <? t / Cal.DAY_US) && (t / Cal.DAY_US <=? Cal.MAXORDINAL)
           then Ok (Cal.of_us t) else Raise ValueError
       | _ => Raise ValueError
       end).

Definition example_now : datetime := mk_datetime 2024 6 1 12 0 0 0.

Definition example_state (h : list dict) : State := set_heap h (initial_state example_now).

(** The shapes [get_factory] resolves. *)
Fixpoint supported (t : ptype) : bool :=
  match t with
  | TAny | TBool | TStr | TInt | TFloat | TDate | TDatetime => true
  | TUnion [a; TNoneType] => supported a && negb (ptype_eqb a TNoneType)
  | TList a => supported a
  | TDict k v => supported k && supported v
  | TClass _ => true
  | _ => false
  end.

Definition is_primitive (t : ptype) : bool :=
  match t with
  | TAny | TBool | TStr | TInt | TFloat | TDate | TDatetime => true
  | _ => false
  end.

Definition point_registry : list (string * cls) := [("Plant", Plant); ("ToolSlot", ToolSlot)].

(** What the caches hold in every state the code can reach. *)
Record caches_ok (st : State) : Prop := mk_caches_ok {
  ok_primitive : forall t, is_primitive t = true -> cache_get t (factories st) <> None;
  ok_class : forall c f, cache_get (TClass c) (factories st) = Some f ->
             exists ef p, f = FMake ef /\ efactories st !! ef = Some (c, p);
  ok_optional : forall a f, cache_get (Optional a) (factories st) = Some f ->
                ptype_eqb a TNoneType = false ->
                exists c, f = FOptional c /\ cells st !! c = Some (Some (FOptional c));
  ok_props : forall ef c ps, efactories st !! ef = Some (c, Some ps) ->
             ps = [] \/ map fst ps = map fst (get_type_hints c);
  ok_points : point_types st = None \/ point_types st = Some [] \/
              point_types st = Some point_registry
}.

(** What the cache operations leave alone. *)
Definition same_world (st st' : State) : Prop :=
  heap st' = heap st /\ next_id st' = next_id st /\ point_types st' = point_types st /\
  log st' = log st /\ clock st' = clock st.

Definition grows (st st' : State) : Prop :=
  (forall ef x, efactories st !! ef = Some x -> efactories st' !! ef = Some x) /\
  (forall c x, cells st !! c = Some x -> cells st' !! c = Some x).

(** What [data] may be when a record is constructed from it: [None], or a
    dict of the heap. *)
Definition data_ok (h : list dict) (data : value) : Prop :=
  match data with
  | VNone => True
  | VDict l => (l < length h)%nat
  | _ => False
  end.

(** The location of the [__dict__] of a record constructed from [data] in
    the heap [h]: the dict passed when it is not empty, a new dict otherwise. *)
Definition store_of (h : list dict) (data : value) : nat :=
  match data with
  | VDict l => if is_nil (heap_get h l) then length h else l
  | _ => length h
  end.

(** The keys [__new__] makes sure of. *)
Definition with_defaults (names : list string) (d : dict) : dict :=
  fold_left (fun acc n => dict_setdefault (VStr n) acc) names d.

Definition field_names (c : cls) : list string := map fst (get_type_hints c).

(** [if self.<name> is None: self.<name> = v] on the dict of the record. *)
Definition default_field (name : string) (v : value) (d : dict) : dict :=
  match dict_get (VStr name) d with
  | Some cur => if is_none cur then dict_set (VStr name) v d else d
  | None => d
  end.

(** [if not self.pointer_type: self.pointer_type = get_pointer_type(type(self))] *)
Definition default_pointer_type (c : cls) (h : list dict) (d : dict) : dict :=
  match dict_get (VStr "pointer_type") d with
  | Some p => if truthy h p then d else dict_set (VStr "pointer_type") (VStr (get_pointer_type c)) d
  | None => d
  end.

Definition meta_missing (d : dict) : bool :=
  match dict_get (VStr "meta") d with
  | Some cur => is_none cur
  | None => false
  end.

(** What [Point.__init__] leaves in the dict [d] of a record of class [c]:
    [h] is the heap it runs in and [m] the location of a new dict. *)
Definition point_defaults (c : cls) (h : list dict) (m : nat) (d : dict) : dict :=
  default_field "radius" (VFloat 0%float)
    (default_field "z" (VInt 0)
       (default_field "y" (VInt 0)
          (default_field "x" (VInt 0)
             (default_field "meta" (VDict m) (default_pointer_type c h d))))).

(** The class [get_point_type] answers. *)
Definition point_class (pointer_type : value) : cls :=
  match pointer_type with
  | VStr s => default Point (assoc_get s point_registry)
  | _ => Point
  end.

(** [(__dict__ or kwargs).get('pointer_type')] in the heap [h]. *)
Definition discriminator_of (h : list dict) (data : value) (kwargs : list (string * value)) : value :=
  if truthy h data
  then match data with
       | VDict l => default VNone (dict_get (VStr "pointer_type") (heap_get h l))
       | _ => VNone
       end
  else default VNone (assoc_get "pointer_type" kwargs).

(** The class of the object [cls(data, **kwargs)] makes. *)
Definition constructed_class (c : cls) (h : list dict) (data : value)
                             (kwargs : list (string * value)) : cls :=
  if bool_decide (c = Point) && (truthy h data || negb (is_nil kwargs))
  then point_class (discriminator_of h data kwargs)
  else c.

(** The mapping a record is constructed from: the dict passed, or none. *)
Definition mapping_of (h : list dict) (data : value) : dict :=
  match data with
  | VDict l => heap_get h l
  | _ => []
  end.

(** The value a dict holds under a key after keyword fields were written
    over it: the last keyword field of that name, if any. *)
Definition overridden (k : string) (kw : list (string * value)) (o : option value) : option value :=
  fold_left (fun acc kv => if String.eqb (fst kv) k then Some (snd kv) else acc) kw o.

(** What the constructor was given for the field [k]: the keyword field, or
    else the entry of the mapping. *)
Definition supplied (h : list dict) (data : value) (kwargs : list (string * value)) (k : string)
  : option value :=
  overridden k kwargs (dict_get (VStr k) (mapping_of h data)).

(** The value given, unless it is absent or [None]. *)
Definition or_default (dflt : value) (o : option value) : value :=
  match o with
  | Some v => if is_none v then dflt else v
  | None => dflt
  end.

Definition absent_or_none (o : option value) : bool :=
  match o with
  | Some v => is_none v
  | None => true
  end.

(** The fields [Point.__init__] reads. *)
Definition point_keys : list string := ["pointer_type"; "meta"; "x"; "y"; "z"; "radius"].

(** ** What a pattern matches *)

Fixpoint string_all (p : ascii -> bool) (s : string) : bool :=
  match s with
  | EmptyString => true
  | String c r => p c && string_all p r
  end.

(** [matches r a cs cs']: the pattern [r] matches exactly the text [a], and
    the groups [cs] become [cs']. *)
Fixpoint matches (r : Re.re) (a : string) (cs cs' : Re.caps) : Prop :=
  match r with
  | Re.Eps => a = EmptyString /\ cs' = cs
  | Re.Chr c => a = String c EmptyString /\ cs' = cs
  | Re.Cls p => exists c, a = String c EmptyString /\ p c = true /\ cs' = cs
  | Re.Seq x y =>
      exists a1 a2 cs1, a = (a1 ++ a2)%string /\ matches x a1 cs cs1 /\ matches y a2 cs1 cs'
  | Re.Alt x y => matches x a cs cs' \/ matches y a cs cs'
  | Re.Opt x => matches x a cs cs' \/ (a = EmptyString /\ cs' = cs)
  | Re.Plus p => a <> EmptyString /\ string_all p a = true /\ cs' = cs
  | Re.Upto n p => (String.length a <= n)%nat /\ string_all p a = true /\ cs' = cs
  | Re.Grp i x => exists cs1, matches x a cs cs1 /\ cs' = (i, a) :: cs1
  end.

(** The first character of [r], if any, is outside the class [p]. *)
Definition stops (p : ascii -> bool) (r : string) : Prop :=
  match r with
  | EmptyString => True
  | String c _ => p c = false
  end.

(** The characters of the text of a number. *)
Definition number_char (c : ascii) : bool :=
  Text.is_digit c || Ascii.eqb c "-" || Ascii.eqb c "+" || Ascii.eqb c "." ||
  Ascii.eqb c "e" || Ascii.eqb c "E".

(** The text of a number as [__rxnum] takes it: an optional minus sign, an
    integer part, an optional fraction and an optional exponent. *)
Definition digits (a : string) : Prop :=
  a <> EmptyString /\ string_all Text.is_digit a = true.

Definition number_text (t : string) : Prop :=
  exists sg ip fr ex,
    t = (sg ++ ip ++ fr ++ ex)%string /\
    (sg = "" \/ sg = "-") /\
    digits ip /\
    (fr = "" \/ exists fd, fr = String "." fd /\ digits fd) /\
    (ex = "" \/
     exists c sgn ed,
       ex = String c (sgn ++ ed) /\ (c = "e" \/ c = "E")%char /\
       (sgn = "" \/ sgn = "+" \/ sgn = "-") /\ digits ed).

(** The comparison a numeric threshold stands for: [at least] is
    greater-or-equal (strictly less when negated), [at most] is
    less-or-equal (strictly greater when negated); [x] is the record's
    value and [n] the number of the clause. *)
Definition threshold_holds (word : string) (negate : bool) (x n : float) : bool :=
  if String.eqb word "least" then (if negate then (x <? n)%float else (n <=? x)%float)
  else if String.eqb word "most" then (if negate then (n <? x)%float else (x <=? n)%float)
  else false.

(** What the getter of a clause under [key] reads in the record [v] when
    [v] is a mapping: the entry [v[key]], or the entry [v['meta'][key]]
    when the key is routed to the metadata and ['meta'] is a mapping. *)
Definition record_field (h : list dict) (ismeta : bool) (key : string) (v : value)
  : option value :=
  match v with
  | VDict l =>
      if ismeta then
        match dict_get (VStr "meta") (heap_get h l) with
        | Some (VDict lm) => dict_get (VStr key) (heap_get h lm)
        | _ => None
        end
      else dict_get (VStr key) (heap_get h l)
  | _ => None
  end.



Definition is_str (v : value) : bool :=
  match v with
  | VStr _ => true
  | _ => false
  end.

(** [has_key h l k]: the dict at [l] in the heap [h] has the key [k]. *)
Definition has_key (h : list dict) (l : nat) (k : string) : Prop :=
  dict_get (VStr k) (heap_get h l) <> None.

(** No dict is dropped from the heap and no text key from a dict. *)
Definition heap_extends (h h' : list dict) : Prop :=
  (length h <= length h')%nat /\ forall l k, has_key h l k -> has_key h' l k.

(** The runs of [m] only add dicts and keys. *)
Definition monotone {A : Type} (m : M A) : Prop :=
  forall st, heap_extends (heap st) (heap (snd (m st))).

(** What [make] leaves of the mapping at [l] when it returns [self] for the
    class [c], from the state [st] to the state [st']: the record [self]
    keeps its attributes in the dict at [l] itself; every declared field of
    [c] is a key of that dict; no key it had is lost; and an attribute
    set on the record afterwards is read back from the dict at [l]. *)
Definition shares_the_mapping (c : cls) (l : nat) (st : State) (self : value) (st' : State)
  : Prop :=
  exists c' id,
    self = VObj c' id l /\
    (forall k, In k (field_names c) -> has_key (heap st') l k) /\
    (forall k, has_key (heap st) l k -> has_key (heap st') l k) /\
    (forall name v,
        dict_get (VStr name) (heap_get (heap (snd (setattr self name v st'))) l) = Some v).

(** A conversion that builds no record, with the cells [cs] of the
    optional conversions: the conversions of [Any], [bool], [str], [int],
    [float], dates and instants, lists and dicts of such, and an optional
    conversion whose cell holds that conversion itself, as [get_factory]
    leaves it. *)
Fixpoint plain (cs : list (option Factory)) (f : Factory) : bool :=
  match f with
  | FAny | FBool | FStr | FInt | FFloat | FParseDate | FParseDatetime | FNone => true
  | FOptional c =>
      match cs !! c with
      | Some (Some (FOptional c')) => Nat.eqb c' c
      | _ => false
      end
  | FList g => plain cs g
  | FDict k v => plain cs k && plain cs v
  | FMake _ => false
  end.

(** What a plain conversion makes of [None], when it returns. *)
Definition of_none (f : Factory) : option value :=
  match f with
  | FAny | FParseDate | FParseDatetime | FOptional _ | FNone => Some VNone
  | FBool => Some (VBool false)
  | FStr => Some (VStr "None")
  | _ => None
  end.

(** The runs of [m] in a state with the cells [cs] only add dicts to the
    heap. *)
Definition allocates {A : Type} (cs : list (option Factory)) (m : M A) : Prop :=
  forall st, cells st = cs -> exists x, snd (m st) = set_heap (heap st ++ x) st.

(** What [make] has written back when it returns in the state [st'], for
    the factory object [ef] of a class [c] and the mapping at [l] of the
    state [st]: the conversions of the class are resolved; and when the
    class is no point class and its conversions are plain, each declared
    key holds the value its conversion returned for what the mapping held
    under the key, [None] if it held nothing; a key that held nothing or
    [None] holds what the table [of_none] gives. *)
Definition written_back (lib : PyLib) (depth : nat) (ef : nat) (c : cls) (l : nat)
                        (st st' : State) : Prop :=
  exists ps st0,
    get_props ef st = (Ok ps, st0) /\
    (is_point_class c = false ->
     forallb (fun kf => plain (cells st0) (snd kf)) ps = true ->
     forall k f, In (k, f) ps ->
       let given := default VNone (dict_get (VStr k) (heap_get (heap st) l)) in
       exists h v sb,
         call lib (pred depth) f given (set_heap h st0) = (Ok v, sb) /\
         dict_get (VStr k) (heap_get (heap st') l) = Some v /\
         (given = VNone -> of_none f = Some v)).

(** The state in which [get_factory(Tool)] has been called once, with the
    mapping [{'id': 1}] in the heap. *)
Definition tool_state : State :=
  snd (get_factory (TClass Tool) (example_state [[(VStr "id", VInt 1)]])).

(** [m] returns from [st], with a result and a state that satisfy [Q]. *)
Definition returns {A : Type} (m : M A) (st : State) (Q : A -> State -> Prop) : Prop :=
  exists a st', m st = (Ok a, st') /\ Q a st'.

(** What the resolved factory of [Optional[t]] does, in the state [st']
    that resolution leaves: it answers [None] to [None] and ['None'], and
    on every other input it runs into the recursion limit, whatever the
    limit is. *)
Definition never_delegates (lib : PyLib) (f : Factory) (st' : State) : Prop :=
  forall depth val,
    call lib (S depth) f val st'
    = (if in_none val then Ok VNone else Raise RecursionError, st').

(** What C7 says of the record [self] and the state [st'] that
    [cls(data, **kwargs)] returns from the heap [h]. *)
Definition point_fields_filled (h : list dict) (data : value) (kwargs : list (string * value))
                               (self : value) (st' : State) : Prop :=
  exists c' id l,
    self = VObj c' id l /\ is_point_class c' = true /\
    let given := supplied h data kwargs in
    let field := fun k => dict_get (VStr k) (heap_get (heap st') l) in
    (forall k, In k ["x"; "y"; "z"] -> field k = Some (or_default (VInt 0) (given k))) /\
    field "radius" = Some (or_default (VFloat 0%float) (given "radius")) /\
    (if absent_or_none (given "meta")
     then exists m, field "meta" = Some (VDict m) /\ heap_get (heap st') m = []
     else field "meta" = given "meta") /\
    (forall k, In k ["x"; "y"; "z"; "radius"; "meta"] ->
               exists v, field k = Some v /\ is_none v = false).


(** The plan compiled from the clause [("radius", "at least 5")], a search
    that finds one record of radius 1.0, and the same plan with the
    attribute [factory] set to the identity conversion. *)
Definition radius_plan : Res PointQuery :=
  fst (PointQuery_init example_lib 10 Point (QClauses [("radius", VStr "at least 5")])
         (initial_state example_now)).

Definition small_record : dict := [(VStr "radius", VFloat 1%float); (VStr "meta", VNone)].

Definition finds_small_record (f : qfilter) : M (list value) := ret [VDict 0].

(** A record as the remote search sends it, with every field of [Point]. *)
Definition full_record : dict :=
  [(VStr "id", VInt 1); (VStr "created_at", VStr "2024-06-01T00:00:00.000Z");
   (VStr "updated_at", VStr "2024-06-01T00:00:00.000Z");
   (VStr "x", VInt 1); (VStr "y", VInt 2); (VStr "z", VInt 3);
   (VStr "device_id", VInt 1); (VStr "pointer_type", VStr "GenericPointer");
   (VStr "name", VStr "p"); (VStr "meta", VDict 1); (VStr "radius", VFloat 1%float)].


(** The server-side filter of a plan under construction: it names a
    pointer type, and ['meta'] holds a sub-filter. *)
Definition filter_ok (f : qfilter) : Prop :=
  NoDup (map fst f) /\ assoc_get "pointer_type" f <> None /\
  exists m, assoc_get "meta" f = Some (FSub m).

(** The server-side filter of a compiled plan: it names a pointer type,
    and ['meta'] is either absent or a sub-filter that is not empty. *)
Definition filter_sent (f : qfilter) : Prop :=
  assoc_get "pointer_type" f <> None /\
  match assoc_get "meta" f with
  | None => True
  | Some (FSub m) => m <> []
  | Some (FValue _) => False
  end.

(** An entry of the filter whose values [json.dumps] writes, with [depth]
    nested calls left under the filter and its ['meta']. *)
Definition writable (depth : nat) (h : list dict) (kv : string * fentry) : Prop :=
  match snd kv with
  | FValue v => json_dumps (S depth) h [] v = Ok tt
  | FSub m => Forall (fun kv => json_dumps depth h [] (snd kv) = Ok tt) m
  end.

(** What one clause does to the plan [(preds, flt)]: it adds one local
    predicate and leaves the filter alone, or it leaves the predicates
    alone and stores one value in the filter, under the key or under
    ['meta'] and the key; the second only when the clause is not
    negated. *)
Definition one_step (key : string) (preds : list predicate) (flt : qfilter)
                    (preds' : list predicate) (flt' : qfilter) : Prop :=
  (exists p, preds' = preds ++ [p] /\ flt' = flt) \/
  (preds' = preds /\ Text.startswith "!" key = false /\
   exists v, flt' = filter_set key v flt \/ filter_set_meta key v flt = Ok flt').

(** The clauses whose key starts with an exclamation mark. *)
Definition negated (l : list (string * value)) : list (string * value) :=
  List.filter (fun kv => Text.startswith "!" (fst kv)) l.

(** A query for the plants that are not called Basil, of radius at most 20
    and of colour red, and the plan it compiles to. *)
Definition basil_query : list (string * value) :=
  [("!name", VStr "Basil"); ("radius", VStr "at most 20"); ("colour", VStr "red")].

Definition basil_plan : PointQuery :=
  mk_PointQuery
    [PNe (GetField "name") (VStr "Basil"); PNum (GetField "radius") op_le 20%float]
    [("pointer_type", FValue (VStr "Plant")); ("meta", FSub [("colour", VStr "red")])]
    None.

(** Where [Point.apply] and the query compiler send the key [k] for the
    class [c]: to the metadata when it is ['meta'], ['id'] or no declared
    field. *)
Definition routed_to_meta (c : cls) (k : string) : bool :=
  String.eqb k "meta" || String.eqb k "id" || negb (existsb (String.eqb k) (field_names c)).

(** A word of an offset: it is not empty, and its characters are neither
    white space nor changed by [lower]. *)
Definition plain_char (c : ascii) : bool :=
  negb (Text.is_space c) && Ascii.eqb (Text.lower_char c) c.

Definition word (w : string) : Prop := w <> EmptyString /\ string_all plain_char w = true.

(** Words with one blank between them. *)
Fixpoint join (ws : list string) : string :=
  match ws with
  | [] => EmptyString
  | [w] => w
  | w :: r => (w ++ String " " (join r))%string
  end.

(** [offset.strip().lower()] with its white space squeezed, as
    [parse_offset] starts. *)
Definition normalized (s : string) : string :=
  Text.sub_spaces false (Text.lower (Text.strip s)).

(** The instants the constructor [datetime] accepts. *)
Definition valid_datetime (d : datetime) : Prop :=
  Cal.make_datetime (year d) (month d) (day d) (hour d) (minute d) (second d) (microsecond d)
  = Ok d.

Definition valid_date (d : date) : Prop :=
  Cal.make_date (dyear d) (dmonth d) (dday d) = Ok d.

(** The instant [parse_datetime] makes of the offset [timedelta] returned:
    the error of [timedelta] if it raised; [ValueError] for the zero
    offset, which is taken for no offset and handed to [strptime]; the
    instant that far from [now] otherwise. *)
Definition instant_after (now : datetime) (r : Res timedelta) : Res (option datetime) :=
  match r with
  | Raise e => Raise e
  | Ok td =>
      if td =? 0 then Raise ValueError
      else res_bind (Cal.datetime_add now td) (fun d => Ok (Some d))
  end.

(** The texts of [dump_datetime] and [dump_date] for a year of four
    digits. *)
Definition padded_datetime (d : datetime) : string :=
  (Text.zero_padded 4 (year d) ++ "-" ++ Text.zero_padded 2 (month d) ++ "-"
   ++ Text.zero_padded 2 (day d) ++ "T" ++ Text.zero_padded 2 (hour d) ++ ":"
   ++ Text.zero_padded 2 (minute d) ++ ":" ++ Text.zero_padded 2 (second d) ++ "."
   ++ Text.zero_padded 6 (microsecond d) ++ "Z")%string.

Definition padded_date (d : date) : string :=
  (Text.zero_padded 4 (dyear d) ++ "-" ++ Text.zero_padded 2 (dmonth d) ++ "-"
   ++ Text.zero_padded 2 (dday d))%string.

(** The attribute [k] of the record [self], if it has one. *)
Definition attr (h : list dict) (self : value) (k : string) : option value :=
  match self with
  | VObj _ _ l => dict_get (VStr k) (heap_get h l)
  | _ => None
  end.

(** The record [self] has the integers [x], [y] and [z] as coordinates. *)
Definition at_position (h : list dict) (self : value) (x y z : Z) : Prop :=
  attr h self "x" = Some (VInt x) /\ attr h self "y" = Some (VInt y) /\
  attr h self "z" = Some (VInt z).

(** The record [self] is a new record of the class [Coordinate] itself,
    made in the state [st]: no dict that was there holds its attributes,
    and every dict that was there is as it was. *)
Definition new_record (st : State) (self : value) (st' : State) : Prop :=
  (exists id l, self = VObj Coordinate id l /\ (length (heap st) <= l)%nat) /\
  forall l, (l < length (heap st))%nat -> heap_get (heap st') l = heap_get (heap st) l.

(** The same for [parse_date] and the date of today. *)
Definition date_after (today : date) (r : Res timedelta) : Res value :=
  match r with
  | Raise e => Raise e
  | Ok td =>
      if td =? 0 then Raise ValueError
      else res_bind (Cal.date_add today td) (fun d => Ok (VDate d))
  end.

(** * Lemmas *)

(** ** The monad *)

Lemma bind_ok {A B : Type} (m : M A) (k : A -> M B) st a st' :
  m st = (Ok a, st') -> bind m k st = k a st'.
Proof. intros H. unfold bind. rewrite H. reflexivity. Qed.

Lemma bind_raise {A B : Type} (m : M A) (k : A -> M B) st e st' :
  m st = (Raise e, st') -> bind m k st = (Raise e, st').
Proof. intros H. unfold bind. rewrite H. reflexivity. Qed.

Lemma bind_inv {A B : Type} (m : M A) (k : A -> M B) st b st' :
  bind m k st = (Ok b, st') ->
  exists a st1, m st = (Ok a, st1) /\ k a st1 = (Ok b, st').
Proof.
  unfold bind. destruct (m st) as [[a|e] st1]; intros H.
  - exists a, st1. split; [reflexivity | exact H].
  - discriminate.
Qed.

(** ** The factory cache *)

Lemma ptype_eqb_refl : forall t, ptype_eqb t t = true.
Proof.
  fix IH 1. intros [ | | | | | | | | args | item | k v | c | n]; cbn; try reflexivity.
  - induction args as [|a r IHr]; [reflexivity|]. rewrite (IH a). exact IHr.
  - apply IH.
  - rewrite (IH k), (IH v). reflexivity.
  - apply bool_decide_eq_true. reflexivity.
  - apply String.eqb_refl.
Qed.

Lemma ptype_eqb_eq : forall a b, ptype_eqb a b = true -> a = b.
Proof.
  fix IH 1. intros a b.
  destruct a as [ | | | | | | | | args | item | k v | c | n];
    destruct b as [ | | | | | | | | args' | item' | k' v' | c' | n']; cbn;
    try discriminate; try reflexivity; intros H.
  - f_equal. revert args' H.
    induction args as [|x r IHr]; intros [|y r'] H; try discriminate; [reflexivity|].
    apply andb_true_iff in H as [H1 H2].
    f_equal; [apply IH, H1 | apply IHr, H2].
  - f_equal. apply IH, H.
  - apply andb_true_iff in H as [H1 H2]. f_equal; apply IH; assumption.
  - apply bool_decide_eq_true in H. congruence.
  - apply String.eqb_eq in H. congruence.
Qed.

Lemma ptype_eqb_neq a b : a <> b -> ptype_eqb a b = false.
Proof.
  intros H. destruct (ptype_eqb a b) eqn:E; [|reflexivity].
  apply ptype_eqb_eq in E. contradiction.
Qed.

#[global] Instance ptype_eq_dec : EqDecision ptype.
Proof.
  intros a b. destruct (ptype_eqb a b) eqn:E.
  - left. apply ptype_eqb_eq, E.
  - right. intros ->. rewrite ptype_eqb_refl in E. discriminate.
Defined.

Lemma cache_get_set_same t f c : cache_get t (cache_set t f c) = Some f.
Proof.
  induction c as [|[t' f'] r IH]; cbn.
  - rewrite ptype_eqb_refl. reflexivity.
  - destruct (ptype_eqb t' t) eqn:E; cbn; rewrite E; [reflexivity | exact IH].
Qed.

Lemma cache_get_set_other t t' f c :
  t <> t' -> cache_get t' (cache_set t f c) = cache_get t' c.
Proof.
  intros Hne. induction c as [|[t0 f0] r IH]; cbn.
  - rewrite ptype_eqb_neq by exact Hne. reflexivity.
  - destruct (ptype_eqb t0 t) eqn:E; cbn.
    + apply ptype_eqb_eq in E. subst t0. rewrite ptype_eqb_neq by exact Hne. reflexivity.
    + rewrite IH. reflexivity.
Qed.

Lemma same_world_refl st : same_world st st.
Proof. repeat split. Qed.

Lemma same_world_trans a b c : same_world a b -> same_world b c -> same_world a c.
Proof. unfold same_world. intros (?&?&?&?&?) (?&?&?&?&?). repeat split; congruence. Qed.

Lemma grows_refl st : grows st st.
Proof. split; auto. Qed.

Lemma grows_trans a b c : grows a b -> grows b c -> grows a c.
Proof. intros [H1 H2] [H3 H4]. split; auto. Qed.

(** Storing a resolved factory keeps the caches well formed. *)
Lemma cache_store_ok t f st :
  caches_ok st ->
  is_primitive t = false ->
  (forall c, t = TClass c -> exists ef p, f = FMake ef /\ efactories st !! ef = Some (c, p)) ->
  (forall a, t = Optional a -> ptype_eqb a TNoneType = false ->
             exists c, f = FOptional c /\ cells st !! c = Some (Some (FOptional c))) ->
  caches_ok (set_factories (cache_set t f (factories st)) st).
Proof.
  intros [Hp Hc Ho Hps Hpt] Hnp Hcls Hopt. split; cbn.
  - intros t' Ht'. rewrite cache_get_set_other; [apply Hp, Ht'|].
    intros ->. congruence.
  - intros c f' H. destruct (decide (t = TClass c)) as [->|Hne].
    + rewrite cache_get_set_same in H. injection H as <-. eauto.
    + rewrite cache_get_set_other in H by exact Hne. eauto.
  - intros a f' H Ha. destruct (decide (t = Optional a)) as [->|Hne].
    + rewrite cache_get_set_same in H. injection H as <-. eauto.
    + rewrite cache_get_set_other in H by exact Hne. eauto.
  - exact Hps.
  - exact Hpt.
Qed.

Lemma lookup_snoc {A : Type} (l : list A) (x : A) : (l ++ [x]) !! length l = Some x.
Proof. rewrite lookup_app_r by lia. rewrite Nat.sub_diag. reflexivity. Qed.

Lemma get_factory_cached t st f :
  cache_get t (factories st) = Some f -> get_factory t st = (Ok f, st).
Proof. intros H. destruct t; cbn; unfold bind, gets; rewrite H; reflexivity. Qed.

Ltac split_all := repeat match goal with |- _ /\ _ => split end.

Lemma insert_snoc {A : Type} (l : list A) (x y : A) : <[length l := y]> (l ++ [x]) = l ++ [y].
Proof.
  induction l as [|a l IH]; [reflexivity|]. cbn. f_equal. exact IH.
Qed.

Lemma caches_ok_cells_snoc st x :
  caches_ok st -> caches_ok (set_cells (cells st ++ [x]) st).
Proof.
  intros [Hp Hc Ho Hps Hpt]. split; cbn; auto.
  intros a f H Ha. destruct (Ho a f H Ha) as (c & -> & Hl).
  exists c. split; [reflexivity|]. apply lookup_app_l_Some, Hl.
Qed.

Lemma caches_ok_efactories_snoc st c :
  caches_ok st -> caches_ok (set_efactories (efactories st ++ [(c, None)]) st).
Proof.
  intros [Hp Hc Ho Hps Hpt]. split; cbn; auto.
  - intros c' f H. destruct (Hc c' f H) as (ef & p & -> & Hl).
    exists ef, p. split; [reflexivity|]. apply lookup_app_l_Some, Hl.
  - intros ef c' ps H. apply lookup_app_Some in H as [H|[_ H]].
    + eapply Hps, H.
    + apply list_lookup_singleton_Some in H as [_ H]. discriminate H.
Qed.

(** [get_factory] resolves every supported shape, and keeps the caches well
    formed. *)
Lemma get_factory_ok : forall t, supported t = true -> forall st, caches_ok st ->
  exists f st', get_factory t st = (Ok f, st') /\ caches_ok st' /\ same_world st st' /\
                grows st st' /\ cache_get t (factories st') = Some f.
Proof.
  fix IH 1. intros t Hs st Hok.
  destruct (cache_get t (factories st)) as [f|] eqn:Hc.
  { exists f, st. split_all.
    - apply get_factory_cached, Hc.
    - exact Hok.
    - apply same_world_refl.
    - apply grows_refl.
    - exact Hc. }
  assert (Hnp : is_primitive t = false).
  { destruct (is_primitive t) eqn:E; [|reflexivity].
    exfalso. apply (ok_primitive _ Hok t E). exact Hc. }
  destruct t as [ | | | | | | | | args | item | k v | c | n]; try discriminate.
  - (* Optional *)
    destruct args as [|a [|b r]]; try discriminate.
    destruct b; try discriminate. destruct r; try discriminate.
    cbn in Hs. apply andb_true_iff in Hs as [Hsa Hna]. apply negb_true_iff in Hna.
    destruct (IH a Hsa st Hok) as (f & st1 & Hf & Hok1 & Hw1 & Hg1 & Hc1).
    set (c := length (cells st1)).
    set (st2 := set_cells (cells st1 ++ [Some (FOptional c)]) st1).
    exists (FOptional c), (set_factories (cache_set (Optional a) (FOptional c) (factories st2)) st2).
    assert (Hl : cells st2 !! c = Some (Some (FOptional c))) by apply lookup_snoc.
    split_all.
    + cbn [get_factory]. unfold bind, gets, ret, new_cell, set_cell, read_cell, modify.
      cbv beta. rewrite Hc, Hna. cbn [ptype_eqb]. rewrite Hf. cbn.
      rewrite insert_snoc, lookup_snoc. reflexivity.
    + apply cache_store_ok; [apply caches_ok_cells_snoc, Hok1 | reflexivity | discriminate |].
      intros a' [= <-] _. exists c. split; [reflexivity | exact Hl].
    + destruct Hw1 as (?&?&?&?&?). unfold same_world. cbn. tauto.
    + eapply grows_trans; [exact Hg1|]. split; cbn; auto.
      intros c' x H. apply lookup_app_l_Some, H.
    + cbn. apply cache_get_set_same.
  - (* List *)
    cbn in Hs. destruct (IH item Hs st Hok) as (f & st1 & Hf & Hok1 & Hw1 & Hg1 & Hc1).
    exists (FList f), (set_factories (cache_set (TList item) (FList f) (factories st1)) st1).
    split_all.
    + cbn [get_factory]. unfold bind, gets, ret, modify. cbv beta. rewrite Hc, Hf. reflexivity.
    + apply cache_store_ok; [exact Hok1 | reflexivity | discriminate | discriminate].
    + destruct Hw1 as (?&?&?&?&?). unfold same_world. cbn. tauto.
    + eapply grows_trans; [exact Hg1|]. split; cbn; auto.
    + cbn. apply cache_get_set_same.
  - (* Dict *)
    cbn in Hs. apply andb_true_iff in Hs as [Hsk Hsv].
    destruct (IH k Hsk st Hok) as (fk & st1 & Hfk & Hok1 & Hw1 & Hg1 & Hc1).
    destruct (IH v Hsv st1 Hok1) as (fv & st2 & Hfv & Hok2 & Hw2 & Hg2 & Hc2).
    exists (FDict fk fv), (set_factories (cache_set (TDict k v) (FDict fk fv) (factories st2)) st2).
    split_all.
    + cbn [get_factory]. unfold bind, gets, ret, modify. cbv beta. rewrite Hc, Hfk, Hfv. reflexivity.
    + apply cache_store_ok; [exact Hok2 | reflexivity | discriminate | discriminate].
    + pose proof (same_world_trans _ _ _ Hw1 Hw2) as (?&?&?&?&?). unfold same_world. cbn. tauto.
    + eapply grows_trans; [exact Hg1|]. eapply grows_trans; [exact Hg2|]. split; cbn; auto.
    + cbn. apply cache_get_set_same.
  - (* an Entity class *)
    set (ef := length (efactories st)).
    set (st1 := set_efactories (efactories st ++ [(c, None)]) st).
    exists (FMake ef), (set_factories (cache_set (TClass c) (FMake ef) (factories st1)) st1).
    split_all.
    + cbn [get_factory]. unfold bind, gets, ret, modify, new_entity_factory. cbv beta.
      rewrite Hc. reflexivity.
    + apply cache_store_ok; [apply caches_ok_efactories_snoc, Hok | reflexivity | | discriminate].
      intros c' [= <-]. exists ef, None. split; [reflexivity | apply lookup_snoc].
    + unfold same_world. cbn. tauto.
    + split; cbn; auto. intros e x H. apply lookup_app_l_Some, H.
    + cbn. apply cache_get_set_same.
Qed.

Lemma hints_supported c :
  forallb (fun kv => supported (snd kv)) (get_type_hints c) = true.
Proof. destruct c; vm_compute; reflexivity. Qed.

Lemma resolve_hints_ok : forall hints : list (string * ptype),
  forallb (fun kv => supported (snd kv)) hints = true ->
  forall st, caches_ok st ->
  exists ps st',
    map_m (fun item => let* f := get_factory (snd item) in ret (fst item, f)) hints st
    = (Ok ps, st') /\
    map fst ps = map fst hints /\ caches_ok st' /\ same_world st st' /\ grows st st'.
Proof.
  induction hints as [|[k t] r IH]; intros Hs st Hok.
  - exists [], st. split_all; try reflexivity; auto using same_world_refl, grows_refl.
  - cbn in Hs. apply andb_true_iff in Hs as [Ht Hr].
    destruct (get_factory_ok t Ht st Hok) as (f & st1 & Hf & Hok1 & Hw1 & Hg1 & _).
    destruct (IH Hr st1 Hok1) as (ps & st2 & Hps & Hn & Hok2 & Hw2 & Hg2).
    exists ((k, f) :: ps), st2. split_all.
    + cbn [map_m]. unfold bind, ret. cbn [fst snd]. rewrite Hf. cbn.
      unfold bind, ret in Hps. rewrite Hps. reflexivity.
    + cbn. f_equal. exact Hn.
    + exact Hok2.
    + eapply same_world_trans; eassumption.
    + eapply grows_trans; eassumption.
Qed.

Lemma get_props_ok ef c p st :
  caches_ok st -> efactories st !! ef = Some (c, p) ->
  exists ps st', get_props ef st = (Ok ps, st') /\
                 map fst ps = map fst (get_type_hints c) /\
                 caches_ok st' /\ same_world st st'.
Proof.
  intros Hok He.
  assert (Hcached : forall x xs, p = Some (x :: xs) ->
            exists ps st', get_props ef st = (Ok ps, st') /\
                           map fst ps = map fst (get_type_hints c) /\
                           caches_ok st' /\ same_world st st').
  { intros x xs ->. exists (x :: xs), st. split_all.
    - unfold get_props, bind, gets. cbv beta. rewrite He. reflexivity.
    - destruct (ok_props _ Hok ef c (x :: xs) He) as [H|H]; [discriminate | exact H].
    - exact Hok.
    - apply same_world_refl. }
  assert (Hfresh : (forall x xs, p <> Some (x :: xs)) ->
            exists ps st', get_props ef st = (Ok ps, st') /\
                           map fst ps = map fst (get_type_hints c) /\
                           caches_ok st' /\ same_world st st').
  { intros Hp.
    destruct (resolve_hints_ok _ (hints_supported c) st Hok)
      as (ps & st1 & Hps & Hn & Hok1 & Hw1 & Hg1).
    exists ps, (set_efactories (<[ef := (c, Some ps)]> (efactories st1)) st1).
    split_all.
    - unfold get_props, bind at 1, gets. cbv beta. rewrite He.
      destruct p as [[|x xs]|]; try (exfalso; eapply Hp; reflexivity);
        unfold bind, modify, ret; unfold bind, ret in Hps; rewrite Hps; reflexivity.
    - exact Hn.
    - destruct Hok1 as [Hp1 Hc1 Ho1 Hps1 Hpt1]. split; cbn; auto.
      + intros c' f H. destruct (Hc1 c' f H) as (ef' & p' & -> & Hl).
        destruct (decide (ef' = ef)) as [->|Hne].
        * exists ef, (Some ps). split; [reflexivity|].
          destruct Hg1 as [Hg1 _]. rewrite (Hg1 _ _ He) in Hl. injection Hl as <- _.
          apply list_lookup_insert_Some. left. split_all; try reflexivity.
          eapply lookup_lt_Some, Hg1, He.
        * exists ef', p'. split; [reflexivity|].
          rewrite list_lookup_insert_ne by congruence. exact Hl.
      + intros e c' ps' H. apply list_lookup_insert_Some in H as [(-> & [= <- <-] & _)|[_ H]].
        * right. exact Hn.
        * eapply Hps1, H.
    - destruct Hw1 as (?&?&?&?&?). unfold same_world. cbn. tauto. }
  destruct p as [[|x xs]|].
  - apply Hfresh. intros ? ? [=].
  - eapply Hcached. reflexivity.
  - apply Hfresh. intros ? ? [=].
Qed.

Lemma class_props_ok c st :
  caches_ok st ->
  exists ps st', class_props c st = (Ok ps, st') /\
                 map fst ps = map fst (get_type_hints c) /\
                 caches_ok st' /\ same_world st st'.
Proof.
  intros Hok.
  destruct (get_factory_ok (TClass c) eq_refl st Hok) as (f & st1 & Hf & Hok1 & Hw1 & _ & Hc1).
  destruct (ok_class _ Hok1 c f Hc1) as (ef & p & -> & He).
  destruct (get_props_ok ef c p st1 Hok1 He) as (ps & st2 & Hps & Hn & Hok2 & Hw2).
  exists ps, st2. split_all; auto.
  - unfold class_props, bind. rewrite Hf. exact Hps.
  - eapply same_world_trans; eassumption.
Qed.

Lemma initial_caches_ok now : caches_ok (initial_state now).
Proof.
  split; cbn.
  - intros t Ht. destruct t; try discriminate; cbn; discriminate.
  - intros c f H. discriminate.
  - intros a f H. exfalso. destruct a; cbn in H; discriminate.
  - intros ef c ps H. rewrite lookup_nil in H. discriminate.
  - left. reflexivity.
Qed.

(** ** Dicts and the heap *)

Lemma key_eqb_str k s : key_eqb k (VStr s) = true -> k = VStr s.
Proof.
  destruct k; cbn; try discriminate. intros H. apply String.eqb_eq in H. congruence.
Qed.

Lemma dict_get_set k k' v d :
  dict_get (VStr k) (dict_set (VStr k') v d)
  = if String.eqb k' k then Some v else dict_get (VStr k) d.
Proof.
  induction d as [|[k0 v0] r IH]; cbn.
  - destruct (String.eqb k' k); reflexivity.
  - destruct (key_eqb k0 (VStr k')) eqn:E; cbn.
    + apply key_eqb_str in E. subst k0. cbn.
      destruct (String.eqb k' k); reflexivity.
    + rewrite IH. destruct (key_eqb k0 (VStr k)) eqn:E'; [|reflexivity].
      apply key_eqb_str in E'. subst k0. cbn in E. rewrite String.eqb_sym, E. reflexivity.
Qed.

Lemma dict_get_set_same k v d : dict_get (VStr k) (dict_set (VStr k) v d) = Some v.
Proof. rewrite dict_get_set, String.eqb_refl. reflexivity. Qed.

Lemma dict_get_setdefault k k' d :
  dict_get (VStr k) (dict_setdefault (VStr k') d)
  = if String.eqb k' k then Some (default VNone (dict_get (VStr k) d))
    else dict_get (VStr k) d.
Proof.
  unfold dict_setdefault. destruct (String.eqb k' k) eqn:E.
  - apply String.eqb_eq in E. subst k'.
    destruct (dict_get (VStr k) d) eqn:G; cbn; [exact G | apply dict_get_set_same].
  - destruct (dict_get (VStr k') d); [reflexivity|]. rewrite dict_get_set, E. reflexivity.
Qed.

Lemma dict_get_with_defaults names : forall k d,
  dict_get (VStr k) (with_defaults names d)
  = if existsb (String.eqb k) names then Some (default VNone (dict_get (VStr k) d))
    else dict_get (VStr k) d.
Proof.
  induction names as [|n r IH]; intros k d; [reflexivity|].
  cbn [with_defaults fold_left existsb]. fold (with_defaults r (dict_setdefault (VStr n) d)).
  rewrite IH, dict_get_setdefault, (String.eqb_sym k n).
  destruct (String.eqb n k); cbn; destruct (existsb (String.eqb k) r); reflexivity.
Qed.

Lemma dict_update_get_some kw : forall k d,
  dict_get (VStr k) d <> None -> dict_get (VStr k) (dict_update kw d) <> None.
Proof.
  induction kw as [|[n v] r IH]; intros k d H; [exact H|].
  cbn. apply IH. rewrite dict_get_set. destruct (String.eqb n k); [discriminate | exact H].
Qed.

Lemma heap_get_insert_same (h : list dict) l d :
  (l < length h)%nat -> heap_get (<[l := d]> h) l = d.
Proof. intros H. unfold heap_get. rewrite list_lookup_insert_eq by exact H. reflexivity. Qed.

Lemma heap_get_insert_other (h : list dict) l l' d :
  l <> l' -> heap_get (<[l := d]> h) l' = heap_get h l'.
Proof. intros H. unfold heap_get. rewrite list_lookup_insert_ne by exact H. reflexivity. Qed.

Lemma heap_get_app_l (h x : list dict) l :
  (l < length h)%nat -> heap_get (h ++ x) l = heap_get h l.
Proof. intros H. unfold heap_get. rewrite lookup_app_l by exact H. reflexivity. Qed.

Lemma heap_get_snoc (h : list dict) d : heap_get (h ++ [d]) (length h) = d.
Proof. unfold heap_get. rewrite lookup_snoc. reflexivity. Qed.

Lemma insert_heap_get (h : list dict) l : <[l := heap_get h l]> h = h.
Proof.
  unfold heap_get. destruct (h !! l) as [d|] eqn:E; cbn.
  - apply list_insert_id, E.
  - apply list_insert_ge. apply lookup_ge_None, E.
Qed.

Lemma set_heap_id st : set_heap (heap st) st = st.
Proof. destruct st. reflexivity. Qed.

Lemma set_heap_twice h h' st : set_heap h (set_heap h' st) = set_heap h st.
Proof. reflexivity. Qed.

(** ** Runs that return *)

Lemma returns_ret {A : Type} (a : A) st (Q : A -> State -> Prop) :
  Q a st -> returns (ret a) st Q.
Proof. intros H. exists a, st. split; [reflexivity | exact H]. Qed.

Lemma returns_bind {A B : Type} (m : M A) (k : A -> M B) st (Q : B -> State -> Prop) :
  returns m st (fun a st' => returns (k a) st' Q) -> returns (bind m k) st Q.
Proof.
  intros (a & st1 & Hm & b & st2 & Hk & HQ). exists b, st2.
  split; [|exact HQ]. rewrite (bind_ok _ _ _ _ _ Hm). exact Hk.
Qed.

Lemma returns_weaken {A : Type} (m : M A) st (Q Q' : A -> State -> Prop) :
  returns m st Q -> (forall a st', Q a st' -> Q' a st') -> returns m st Q'.
Proof. intros (a & st1 & Hm & HQ) H. exists a, st1. split; [exact Hm | apply H, HQ]. Qed.

Lemma returns_gets {A : Type} (f : State -> A) st (Q : A -> State -> Prop) :
  Q (f st) st -> returns (gets f) st Q.
Proof. intros H. exists (f st), st. split; [reflexivity | exact H]. Qed.

Lemma returns_modify (f : State -> State) st (Q : unit -> State -> Prop) :
  Q tt (f st) -> returns (modify f) st Q.
Proof. intros H. exists tt, (f st). split; [reflexivity | exact H]. Qed.

Lemma dict_get_default_field k n v d :
  dict_get (VStr k) (default_field n v d)
  = if String.eqb n k
    then match dict_get (VStr k) d with
         | Some cur => Some (if is_none cur then v else cur)
         | None => None
         end
    else dict_get (VStr k) d.
Proof.
  unfold default_field. destruct (String.eqb n k) eqn:E.
  - apply String.eqb_eq in E. subst n.
    destruct (dict_get (VStr k) d) as [cur|] eqn:G; [|exact G].
    destruct (is_none cur); [apply dict_get_set_same | exact G].
  - destruct (dict_get (VStr n) d) as [cur|]; [|reflexivity].
    destruct (is_none cur); [|reflexivity]. rewrite dict_get_set, E. reflexivity.
Qed.

Lemma dict_get_default_pointer_type k c h d :
  dict_get (VStr k) (default_pointer_type c h d)
  = if String.eqb "pointer_type" k
    then match dict_get (VStr k) d with
         | Some p => Some (if truthy h p then p else VStr (get_pointer_type c))
         | None => None
         end
    else dict_get (VStr k) d.
Proof.
  unfold default_pointer_type. destruct (String.eqb "pointer_type" k) eqn:E.
  - apply String.eqb_eq in E. subst k.
    destruct (dict_get (VStr "pointer_type") d) as [p|] eqn:G; [|exact G].
    destruct (truthy h p); [exact G | apply dict_get_set_same].
  - destruct (dict_get (VStr "pointer_type") d) as [p|]; [|reflexivity].
    destruct (truthy h p); [reflexivity|]. rewrite dict_get_set, E. reflexivity.
Qed.

(** ** Running the constructors *)

Lemma caches_ok_same st st' :
  factories st' = factories st -> cells st' = cells st ->
  efactories st' = efactories st -> point_types st' = point_types st ->
  caches_ok st -> caches_ok st'.
Proof.
  intros Hf Hc He Hp [H1 H2 H3 H4 H5].
  split; rewrite ?Hf, ?Hc, ?He, ?Hp; assumption.
Qed.

Lemma caches_ok_set_heap h st : caches_ok st -> caches_ok (set_heap h st).
Proof. apply caches_ok_same; reflexivity. Qed.

Lemma getattr_returns c id l name v st :
  dict_get (VStr name) (heap_get (heap st) l) = Some v ->
  getattr (VObj c id l) name st = (Ok v, st).
Proof. intros H. unfold getattr, bind, read_dict, gets. cbv beta. rewrite H. reflexivity. Qed.

Lemma setattr_returns c id l name v st :
  setattr (VObj c id l) name v st
  = (Ok tt, set_heap (<[l := dict_set (VStr name) v (heap_get (heap st) l)]> (heap st)) st).
Proof. reflexivity. Qed.

Lemma for_each_setdefault (ps : props) l : forall st,
  for_each (fun kv => let* d := read_dict l in
                      write_dict l (dict_setdefault (VStr (fst kv)) d)) ps st
  = (Ok tt, set_heap (<[l := with_defaults (map fst ps) (heap_get (heap st) l)]> (heap st)) st).
Proof.
  induction ps as [|[k f] r IH]; intros st.
  - cbn. rewrite insert_heap_get, set_heap_id. reflexivity.
  - cbn [for_each]. unfold bind at 1. unfold bind at 1, read_dict, gets, write_dict, modify.
    cbv beta. rewrite IH. cbn [heap set_heap fst map with_defaults fold_left].
    f_equal. unfold set_heap. cbn. f_equal.
    destruct (decide (l < length (heap st))%nat) as [Hl|Hl].
    + rewrite heap_get_insert_same by exact Hl. rewrite list_insert_insert_eq. reflexivity.
    + (* outside the heap nothing is written *)
      rewrite !list_insert_ge by (rewrite ?length_insert; lia). reflexivity.
Qed.

Lemma truthy_data h data :
  data_ok h data ->
  truthy (h ++ [[]]) data = match data with
                           | VDict l => negb (is_nil (heap_get h l))
                           | _ => false
                           end.
Proof.
  destruct data; cbn; try tauto. intros Hl. rewrite heap_get_app_l by exact Hl. reflexivity.
Qed.

Lemma store_of_lt h data : data_ok h data -> (store_of h data < length (h ++ [[]]))%nat.
Proof.
  rewrite length_app. cbn. destruct data; cbn; try lia.
  intros Hl. destruct (is_nil (heap_get h l)); lia.
Qed.

(** [Entity.__new__]: the record takes the dict passed unless it is empty,
    and every declared field becomes a key of it. *)
Lemma Entity_new_returns c data kwargs st :
  caches_ok st -> data_ok (heap st) data ->
  returns (Entity_new c data kwargs) st (fun self st' =>
    let h0 := heap st ++ [[]] in
    let l := store_of (heap st) data in
    self = VObj c (next_id st) l /\
    heap st' = <[l := with_defaults (field_names c) (heap_get h0 l)]> h0 /\
    caches_ok st').
Proof.
  intros Hok Hd. unfold Entity_new.
  apply returns_bind. exists (next_id st), (set_next_id (S (next_id st)) st).
  split; [reflexivity|].
  apply returns_bind. eexists _, _. split; [reflexivity|]. cbn [heap set_next_id].
  apply returns_bind, returns_gets. cbn [heap set_heap].
  rewrite (truthy_data _ _ Hd).
  set (st1 := set_heap (heap st ++ [[]]) (set_next_id (S (next_id st)) st)).
  assert (Hok1 : caches_ok st1) by (eapply caches_ok_same; [..|exact Hok]; reflexivity).
  assert (Hl : returns
            (if match data with VDict l => negb (is_nil (heap_get (heap st) l)) | _ => false end
             then match data with VDict l => ret l | _ => raise TypeError end
             else ret (length (heap st))) st1
            (fun l st' => l = store_of (heap st) data /\ st' = st1)).
  { destruct data; cbn; try (apply returns_ret; split; reflexivity).
    destruct (is_nil (heap_get (heap st) l)); apply returns_ret; split; reflexivity. }
  apply returns_bind. eapply returns_weaken; [exact Hl|]. clear Hl.
  intros l st' [-> ->].
  destruct (class_props_ok c st1 Hok1) as (ps & st2 & Hps & Hn & Hok2 & Hw2).
  apply returns_bind. exists ps, st2. split; [exact Hps|].
  apply returns_bind. eexists tt, _. split; [apply for_each_setdefault|].
  apply returns_ret. destruct Hw2 as (Hh & _). cbn [heap set_heap] in *.
  rewrite Hh. cbn [st1 heap set_heap]. split_all.
  - reflexivity.
  - unfold field_names. rewrite Hn. reflexivity.
  - apply caches_ok_set_heap, Hok2.
Qed.

Lemma dict_update_nil d : dict_update [] d = d.
Proof. reflexivity. Qed.

(** [Entity.__init__]: the keyword fields are written over the dict. *)
Lemma Entity_init_returns c id l data kwargs st :
  Entity_init (VObj c id l) data kwargs st
  = (Ok tt, set_heap (<[l := dict_update kwargs (heap_get (heap st) l)]> (heap st)) st).
Proof.
  unfold Entity_init. destruct kwargs as [|kv r]; cbn [is_nil].
  - rewrite dict_update_nil, insert_heap_get, set_heap_id. reflexivity.
  - reflexivity.
Qed.

Lemma scan_point_types_value : scan_point_types 17 [Point] [] = Some point_registry.
Proof. vm_compute. reflexivity. Qed.

(** [get_point_type]: the class registered under the name, [Point] for
    every other hashable value. *)
Lemma get_point_type_returns v st :
  caches_ok st -> hashable v = true ->
  returns (get_point_type v) st (fun c st' =>
    c = point_class v /\ heap st' = heap st /\ next_id st' = next_id st /\ caches_ok st').
Proof.
  intros Hok Hv. unfold get_point_type.
  apply returns_bind, returns_gets.
  assert (Hreg : returns
            match point_types st with
            | Some (t :: ts) => ret (t :: ts)
            | _ => match scan_point_types 17 [Point] [] with
                   | Some types => run* modify (set_point_types (Some types)) in ret types
                   | None => raise RecursionError
                   end
            end st
            (fun types st' => types = point_registry /\ heap st' = heap st /\
                              next_id st' = next_id st /\ caches_ok st')).
  { rewrite scan_point_types_value.
    assert (Hnew : caches_ok (set_point_types (Some point_registry) st)).
    { destruct Hok as [H1 H2 H3 H4 H5]. split; cbn; auto. }
    destruct (ok_points _ Hok) as [H|[H|H]]; rewrite H.
    - eexists _, _. split; [reflexivity|]. split_all; try reflexivity. exact Hnew.
    - eexists _, _. split; [reflexivity|]. split_all; try reflexivity. exact Hnew.
    - apply returns_ret. split_all; try reflexivity. exact Hok. }
  apply returns_bind. eapply returns_weaken; [exact Hreg|]. clear Hreg.
  intros types st' (-> & Hh & Hn & Hok'). rewrite Hv.
  destruct v; apply returns_ret; split_all; auto.
Qed.

Lemma truthy_data_own h data :
  data_ok h data -> truthy h data = match data with
                                    | VDict l => negb (is_nil (heap_get h l))
                                    | _ => false
                                    end.
Proof. destruct data; cbn; tauto. Qed.

(** [Point.__new__]: the class is chosen from the discriminator before the
    record is made. *)
Lemma Point_new_returns c data kwargs st :
  caches_ok st -> data_ok (heap st) data ->
  hashable (discriminator_of (heap st) data kwargs) = true ->
  returns (Point_new c data kwargs) st (fun self st' =>
    let h0 := heap st ++ [[]] in
    let l := store_of (heap st) data in
    let c' := constructed_class c (heap st) data kwargs in
    self = VObj c' (next_id st) l /\
    heap st' = <[l := with_defaults (field_names c') (heap_get h0 l)]> h0 /\
    caches_ok st').
Proof.
  intros Hok Hd Hh. unfold Point_new.
  apply returns_bind, returns_gets.
  assert (Hc : returns
            (if bool_decide (c = Point) && (truthy (heap st) data || negb (is_nil kwargs))
             then let* pointer_type := discriminator data kwargs in get_point_type pointer_type
             else ret c) st
            (fun c' st' => c' = constructed_class c (heap st) data kwargs /\
                           heap st' = heap st /\ next_id st' = next_id st /\ caches_ok st')).
  { unfold constructed_class.
    destruct (bool_decide (c = Point) && (truthy (heap st) data || negb (is_nil kwargs))).
    - apply returns_bind. exists (discriminator_of (heap st) data kwargs), st. split.
      + unfold discriminator, discriminator_of, bind, gets. cbv beta.
        destruct (truthy (heap st) data) eqn:Ht; [|reflexivity].
        destruct data; cbn in Hd; try contradiction; try discriminate. reflexivity.
      + apply get_point_type_returns; assumption.
    - apply returns_ret. split_all; auto. }
  apply returns_bind. eapply returns_weaken; [exact Hc|]. clear Hc.
  intros c' st1 (-> & Hh1 & Hn1 & Hok1).
  eapply returns_weaken.
  - apply Entity_new_returns; [exact Hok1 | rewrite Hh1; exact Hd].
  - cbn beta. intros self st' (-> & Hheap & Hok'). rewrite Hh1, Hn1 in *. split_all; auto.
Qed.

Lemma default_field_keeps k n v d :
  dict_get (VStr k) d <> None -> dict_get (VStr k) (default_field n v d) <> None.
Proof.
  intros H. rewrite dict_get_default_field.
  destruct (String.eqb n k); [|exact H].
  destruct (dict_get (VStr k) d); [discriminate | contradiction].
Qed.

Lemma default_pointer_type_keeps k c h d :
  dict_get (VStr k) d <> None -> dict_get (VStr k) (default_pointer_type c h d) <> None.
Proof.
  intros H. rewrite dict_get_default_pointer_type.
  destruct (String.eqb "pointer_type" k); [|exact H].
  destruct (dict_get (VStr k) d); [discriminate | contradiction].
Qed.

(** [if self.<name> is None: self.<name> = v], for a value [v]. *)
Lemma default_attr_ret c id l name v st :
  dict_get (VStr name) (heap_get (heap st) l) <> None ->
  default_attr (VObj c id l) name (ret v) st
  = (Ok tt, set_heap (<[l := default_field name v (heap_get (heap st) l)]> (heap st)) st).
Proof.
  intros Hk. unfold default_attr, default_field.
  destruct (dict_get (VStr name) (heap_get (heap st) l)) as [cur|] eqn:G; [|contradiction].
  rewrite (bind_ok _ _ _ _ _ (getattr_returns c id l name cur st G)).
  destruct (is_none cur).
  - reflexivity.
  - rewrite insert_heap_get, set_heap_id. reflexivity.
Qed.

(** [if self.meta is None: self.meta = {}]: the new dict is the next
    location of the heap. *)
Lemma default_attr_meta c id l st :
  (l < length (heap st))%nat ->
  dict_get (VStr "meta") (heap_get (heap st) l) <> None ->
  let d := heap_get (heap st) l in
  default_attr (VObj c id l) "meta" (let* m := alloc_dict [] in ret (VDict m)) st
  = (Ok tt, set_heap (<[l := default_field "meta" (VDict (length (heap st))) d]>
                        (if meta_missing d then heap st ++ [[]] else heap st)) st).
Proof.
  intros Hl Hk d. unfold default_attr, default_field, meta_missing. fold d.
  destruct (dict_get (VStr "meta") d) as [cur|] eqn:G; [|contradiction].
  rewrite (bind_ok _ _ _ _ _ (getattr_returns c id l "meta" cur st G)).
  destruct (is_none cur).
  - unfold bind, alloc_dict, ret, setattr, read_dict, write_dict, gets, modify.
    cbn. rewrite heap_get_app_l by exact Hl. reflexivity.
  - unfold d. rewrite insert_heap_get, set_heap_id. reflexivity.
Qed.

Lemma meta_missing_default_pointer_type c h d :
  meta_missing (default_pointer_type c h d) = meta_missing d.
Proof. unfold meta_missing. rewrite dict_get_default_pointer_type. reflexivity. Qed.

(** [Point.__init__]: the state it leaves. *)
Lemma Point_init_returns c id l data kwargs st :
  (l < length (heap st))%nat ->
  (forall name, In name point_keys -> dict_get (VStr name) (heap_get (heap st) l) <> None) ->
  let d := dict_update kwargs (heap_get (heap st) l) in
  let h1 := <[l := d]> (heap st) in
  Point_init (VObj c id l) data kwargs st
  = (Ok tt, set_heap (<[l := point_defaults c h1 (length (heap st)) d]>
                        (if meta_missing d then h1 ++ [[]] else h1)) st).
Proof.
  intros Hl Hkeys d h1.
  assert (Hd : forall name, In name point_keys -> dict_get (VStr name) d <> None).
  { intros name Hin. apply dict_update_get_some, Hkeys, Hin. }
  assert (Hl1 : (l < length h1)%nat) by (unfold h1; rewrite length_insert; exact Hl).
  assert (Hg1 : heap_get h1 l = d) by (apply heap_get_insert_same, Hl).
  unfold Point_init.
  unfold bind at 1. rewrite Entity_init_returns. fold d. fold h1.
  set (st1 := set_heap h1 st).
  (* the discriminator *)
  destruct (dict_get (VStr "pointer_type") d) as [p|] eqn:Gp;
    [|exfalso; apply (Hd "pointer_type"); [cbn; tauto | exact Gp]].
  unfold bind at 1. rewrite (getattr_returns c id l "pointer_type" p st1)
    by (cbn [st1 heap set_heap]; rewrite Hg1; exact Gp).
  unfold bind at 1, gets. cbv beta. cbn [st1 heap set_heap type_of].
  set (d2 := default_pointer_type c h1 d).
  set (st2 := set_heap (<[l := d2]> h1) st).
  assert (H2 : (if truthy h1 p then ret tt
                else setattr (VObj c id l) "pointer_type" (VStr (get_pointer_type c))) st1
               = (Ok tt, st2)).
  { unfold st2, d2, default_pointer_type. rewrite Gp. destruct (truthy h1 p).
    - unfold ret, st1. rewrite <- Hg1 at 1. rewrite insert_heap_get. reflexivity.
    - rewrite setattr_returns. cbn [st1 heap set_heap]. rewrite Hg1. reflexivity. }
  unfold bind at 1. fold st1. rewrite H2.
  assert (Hl2 : (l < length (<[l := d2]> h1))%nat) by (rewrite length_insert; exact Hl1).
  assert (Hg2 : heap_get (<[l := d2]> h1) l = d2) by (apply heap_get_insert_same, Hl1).
  assert (Hd2 : forall name, In name point_keys -> dict_get (VStr name) d2 <> None).
  { intros name Hin. apply default_pointer_type_keeps, Hd, Hin. }
  (* meta *)
  unfold bind at 1. rewrite default_attr_meta;
    [|exact Hl2 | cbn [st2 heap set_heap]; rewrite Hg2; apply Hd2; cbn; tauto].
  cbn [st2 heap set_heap]. rewrite Hg2, length_insert.
  unfold d2 at 2. rewrite meta_missing_default_pointer_type.
  set (hb := if meta_missing d then <[l := d2]> h1 ++ [[]] else <[l := d2]> h1).
  assert (Hlb : (l < length hb)%nat).
  { unfold hb. destruct (meta_missing d); rewrite ?length_app, length_insert; lia. }
  set (d3 := default_field "meta" (VDict (length h1)) d2).
  (* the coordinates and the radius *)
  assert (Hstep : forall name v dk st', 
            (forall n, In n point_keys -> dict_get (VStr n) dk <> None) ->
            In name point_keys ->
            heap st' = <[l := dk]> hb ->
            default_attr (VObj c id l) name (ret v) st'
            = (Ok tt, set_heap (<[l := default_field name v dk]> hb) st')).
  { intros name v dk st' Hk Hin Hh. rewrite default_attr_ret.
    - rewrite Hh, heap_get_insert_same, list_insert_insert_eq by exact Hlb. reflexivity.
    - rewrite Hh, heap_get_insert_same by exact Hlb. apply Hk, Hin. }
  assert (Hd3 : forall n, In n point_keys -> dict_get (VStr n) d3 <> None).
  { intros n Hin. apply default_field_keeps, Hd2, Hin. }
  unfold bind at 1. rewrite (Hstep "x" (VInt 0) d3); [|exact Hd3 | cbn; tauto | reflexivity].
  unfold bind at 1.
  rewrite (Hstep "y" (VInt 0) (default_field "x" (VInt 0) d3));
    [|intros n Hin; apply default_field_keeps, Hd3, Hin | cbn; tauto | reflexivity].
  unfold bind at 1.
  rewrite (Hstep "z" (VInt 0) (default_field "y" (VInt 0) (default_field "x" (VInt 0) d3)));
    [|intros n Hin; do 2 apply default_field_keeps; apply Hd3, Hin | cbn; tauto | reflexivity].
  rewrite (Hstep "radius" (VFloat 0%float)
             (default_field "z" (VInt 0)
                (default_field "y" (VInt 0) (default_field "x" (VInt 0) d3))));
    [|intros n Hin; do 3 apply default_field_keeps; apply Hd3, Hin | cbn; tauto | reflexivity].
  cbn [set_heap heap]. f_equal. unfold set_heap. cbn. f_equal.
  assert (Hlen : length h1 = length (heap st)) by apply length_insert.
  unfold point_defaults. fold d2. rewrite <- Hlen. fold d3. unfold hb.
  destruct (meta_missing d).
  - rewrite !insert_app_l by (rewrite ?length_insert; lia).
    rewrite list_insert_insert_eq. reflexivity.
  - rewrite list_insert_insert_eq. reflexivity.
Qed.

Lemma point_class_is_point v : is_point_class (point_class v) = true.
Proof.
  destruct v; try reflexivity. unfold point_class, point_registry. cbn [assoc_get].
  destruct (String.eqb "Plant" s); [reflexivity|].
  destruct (String.eqb "ToolSlot" s); reflexivity.
Qed.

Lemma constructed_class_is_point c h data kwargs :
  is_point_class c = true -> is_point_class (constructed_class c h data kwargs) = true.
Proof.
  intros Hc. unfold constructed_class.
  destruct (bool_decide (c = Point) && (truthy h data || negb (is_nil kwargs)));
    [apply point_class_is_point | exact Hc].
Qed.

Lemma point_keys_declared c name :
  is_point_class c = true -> In name point_keys ->
  existsb (String.eqb name) (field_names c) = true.
Proof.
  intros Hc Hin. destruct c; try discriminate Hc;
    cbn in Hin; decompose [or] Hin; subst; try contradiction; vm_compute; reflexivity.
Qed.

(** [cls(data, **kwargs)] for a point class: the object and the heap it
    leaves. *)
Lemma construct_point_returns c data kwargs st :
  is_point_class c = true -> caches_ok st -> data_ok (heap st) data ->
  hashable (discriminator_of (heap st) data kwargs) = true ->
  returns (construct c data kwargs) st (fun self st' =>
    let h0 := heap st ++ [[]] in
    let l := store_of (heap st) data in
    let c' := constructed_class c (heap st) data kwargs in
    let d := dict_update kwargs (with_defaults (field_names c') (heap_get h0 l)) in
    let h1 := <[l := d]> h0 in
    self = VObj c' (next_id st) l /\
    heap st' = <[l := point_defaults c' h1 (length h0) d]>
                 (if meta_missing d then h1 ++ [[]] else h1) /\
    caches_ok st').
Proof.
  intros Hc Hok Hd Hh. unfold construct. rewrite Hc.
  apply returns_bind. eapply returns_weaken; [apply Point_new_returns; assumption|].
  cbn beta zeta. intros self st1 (-> & Hheap & Hok1).
  set (h0 := heap st ++ [[]]) in *. set (l := store_of (heap st) data) in *.
  set (c' := constructed_class c (heap st) data kwargs) in *.
  set (wd := with_defaults (field_names c') (heap_get h0 l)) in *.
  assert (Hl0 : (l < length h0)%nat) by apply store_of_lt, Hd.
  assert (Hl1 : (l < length (heap st1))%nat) by (rewrite Hheap, length_insert; exact Hl0).
  assert (Hg : heap_get (heap st1) l = wd) by (rewrite Hheap; apply heap_get_insert_same, Hl0).
  apply returns_bind. eexists tt, _. split.
  { apply Point_init_returns; [exact Hl1|].
    intros name Hin. rewrite Hg. unfold wd. rewrite dict_get_with_defaults.
    rewrite point_keys_declared; [discriminate | | exact Hin].
    apply constructed_class_is_point, Hc. }
  apply returns_ret. rewrite Hg, Hheap. cbn [heap set_heap].
  rewrite !list_insert_insert_eq, length_insert. split_all.
  - reflexivity.
  - reflexivity.
  - apply caches_ok_set_heap, Hok1.
Qed.

Lemma dict_get_update k kw : forall d,
  dict_get (VStr k) (dict_update kw d) = overridden k kw (dict_get (VStr k) d).
Proof.
  induction kw as [|[n v] r IH]; intros d; [reflexivity|].
  cbn. rewrite IH, dict_get_set. reflexivity.
Qed.

Lemma overridden_default k kw : forall o,
  overridden k kw (Some (default VNone o)) = Some (default VNone (overridden k kw o)).
Proof.
  induction kw as [|[n v] r IH]; intros o; [reflexivity|].
  cbn. destruct (String.eqb n k).
  - exact (IH (Some v)).
  - apply IH.
Qed.

Lemma truthy_hashable h h' v : hashable v = true -> truthy h v = truthy h' v.
Proof. destruct v; cbn; try reflexivity. discriminate. Qed.

Lemma heap_get_store_of h data :
  data_ok h data -> heap_get (h ++ [[]]) (store_of h data) = mapping_of h data.
Proof.
  destruct data; cbn; try tauto.
  - intros _. apply heap_get_snoc.
  - intros Hl. destruct (heap_get h l) as [|kv r] eqn:E; cbn.
    + apply heap_get_snoc.
    + rewrite heap_get_app_l, E by exact Hl. reflexivity.
Qed.

(** The dict of a record just made by [__new__] and [Entity.__init__]
    holds, for a declared field, what was supplied for it or [None]. *)
Lemma dict_get_constructed c h data kwargs k :
  data_ok h data -> existsb (String.eqb k) (field_names c) = true ->
  dict_get (VStr k)
    (dict_update kwargs (with_defaults (field_names c) (heap_get (h ++ [[]]) (store_of h data))))
  = Some (default VNone (supplied h data kwargs k)).
Proof.
  intros Hd Hk. rewrite dict_get_update, dict_get_with_defaults, Hk, overridden_default.
  rewrite heap_get_store_of by exact Hd. reflexivity.
Qed.

Lemma or_default_default dflt o :
  (if is_none (default VNone o) then dflt else default VNone o) = or_default dflt o.
Proof. destruct o as [v|]; cbn; reflexivity. Qed.

Lemma is_none_or_default dflt o : is_none dflt = false -> is_none (or_default dflt o) = false.
Proof. intros H. destruct o as [[]|]; cbn; auto. Qed.

Lemma discriminator_of_data h data :
  data_ok h data ->
  discriminator_of h data []
  = default VNone (dict_get (VStr "pointer_type") (mapping_of h data)).
Proof.
  unfold discriminator_of. destruct data; cbn; try tauto.
  intros _. destruct (heap_get h l); reflexivity.
Qed.

Lemma constructed_class_data h data :
  data_ok h data ->
  constructed_class Point h data []
  = point_class (default VNone (dict_get (VStr "pointer_type") (mapping_of h data))).
Proof.
  intros Hd. unfold constructed_class. rewrite discriminator_of_data by exact Hd.
  destruct data; cbn in *; try tauto.
  destruct (heap_get h l); reflexivity.
Qed.

Lemma point_class_falsy h v : hashable v = true -> truthy h v = false -> point_class v = Point.
Proof.
  destruct v; cbn; try reflexivity. intros _ Hs.
  destruct s; [reflexivity | discriminate].
Qed.

Lemma example_caches_ok h : caches_ok (example_state h).
Proof. apply caches_ok_set_heap, initial_caches_ok. Qed.

(** ** The matcher finds only what the pattern matches *)

Lemma append_assoc (a b c : string) : ((a ++ b) ++ c = a ++ (b ++ c))%string.
Proof. induction a as [|x a IH]; cbn; [reflexivity | rewrite IH; reflexivity]. Qed.

Lemma append_nil_r (a : string) : (a ++ EmptyString)%string = a.
Proof. induction a as [|x a IH]; cbn; [reflexivity | rewrite IH; reflexivity]. Qed.

Lemma length_append (a b : string) :
  String.length (a ++ b) = (String.length a + String.length b)%nat.
Proof. induction a as [|x a IH]; cbn; [reflexivity | rewrite IH; reflexivity]. Qed.

Lemma substring_prefix (a b : string) : substring 0 (String.length a) (a ++ b) = a.
Proof. induction a as [|x a IH]; cbn; [destruct b; reflexivity | rewrite IH; reflexivity]. Qed.

Lemma consumed_app (a s' : string) : Re.consumed (a ++ s') s' = a.
Proof.
  unfold Re.consumed. rewrite length_append.
  replace (String.length a + String.length s' - String.length s')%nat
    with (String.length a) by lia.
  apply substring_prefix.
Qed.

Lemma plus_from_sound {A : Type} p (k : string -> option A) : forall s x,
  Re.plus_from p k s = Some x ->
  exists a s', s = (a ++ s')%string /\ a <> EmptyString /\ string_all p a = true /\
               k s' = Some x.
Proof.
  induction s as [|c s IH]; intros x H; [discriminate|].
  cbn in H. destruct (p c) eqn:Hp; [|discriminate].
  destruct (Re.plus_from p k s) as [y|] eqn:E.
  - injection H as <-. destruct (IH y eq_refl) as (a & s' & -> & _ & Ha & Hk).
    exists (String c a), s'. split_all; try reflexivity; try discriminate; auto.
    cbn. rewrite Hp. exact Ha.
  - exists (String c EmptyString), s. split_all; try reflexivity; try discriminate; auto.
    cbn. rewrite Hp. reflexivity.
Qed.

Lemma upto_from_sound {A : Type} p (k : string -> option A) : forall n s x,
  Re.upto_from n p k s = Some x ->
  exists a s', s = (a ++ s')%string /\ (String.length a <= n)%nat /\
               string_all p a = true /\ k s' = Some x.
Proof.
  assert (Hstop : forall n s x, k s = Some x ->
            exists a s', s = (a ++ s')%string /\ (String.length a <= n)%nat /\
                         string_all p a = true /\ k s' = Some x).
  { intros n s x H. exists EmptyString, s. split_all; auto. cbn. lia. }
  induction n as [|n IH]; intros s x H; [apply Hstop, H|].
  cbn in H. destruct s as [|c s]; [apply Hstop, H|].
  destruct (p c) eqn:Hp; [|apply Hstop, H].
  destruct (Re.upto_from n p k s) as [y|] eqn:E; [|apply Hstop, H].
  injection H as <-. destruct (IH s y E) as (a & s' & -> & Hl & Ha & Hk).
  exists (String c a), s'. split_all; auto.
  - cbn. lia.
  - cbn. rewrite Hp. exact Ha.
Qed.

(** Soundness of the matcher. *)
Lemma run_sound {A : Type} : forall r s cs (k : string -> Re.caps -> option A) x,
  Re.run r s cs k = Some x ->
  exists a s' cs', s = (a ++ s')%string /\ matches r a cs cs' /\ k s' cs' = Some x.
Proof.
  induction r as [ |c|p|r1 IH1 r2 IH2|r1 IH1 r2 IH2|r IH|p|n p|i r IH];
    intros s cs k x H; cbn in H.
  - exists EmptyString, s, cs. cbn. split_all; eauto.
  - destruct s as [|c' s]; [discriminate|].
    destruct (Ascii.eqb c c') eqn:E; [|discriminate]. apply Ascii.eqb_eq in E. subst c'.
    exists (String c EmptyString), s, cs. cbn. split_all; eauto.
  - destruct s as [|c' s]; [discriminate|].
    destruct (p c') eqn:E; [|discriminate].
    exists (String c' EmptyString), s, cs. cbn. split_all; eauto.
  - apply IH1 in H as (a1 & s1 & cs1 & -> & H1 & H).
    apply IH2 in H as (a2 & s2 & cs2 & -> & H2 & H).
    exists (a1 ++ a2)%string, s2, cs2. split_all; auto.
    + symmetry. apply append_assoc.
    + cbn. eauto 10.
  - destruct (Re.run r1 s cs k) as [y|] eqn:E.
    + injection H as <-. apply IH1 in E as (a & s' & cs' & -> & Hm & Hk).
      exists a, s', cs'. cbn. split_all; eauto.
    + apply IH2 in H as (a & s' & cs' & -> & Hm & Hk).
      exists a, s', cs'. cbn. split_all; eauto.
  - destruct (Re.run r s cs k) as [y|] eqn:E.
    + injection H as <-. apply IH in E as (a & s' & cs' & -> & Hm & Hk).
      exists a, s', cs'. cbn. split_all; eauto.
    + exists EmptyString, s, cs. cbn. split_all; eauto.
  - apply plus_from_sound in H as (a & s' & -> & Hne & Ha & Hk).
    exists a, s', cs. cbn. split_all; eauto.
  - apply upto_from_sound in H as (a & s' & -> & Hl & Ha & Hk).
    exists a, s', cs. cbn. split_all; eauto.
  - apply IH in H as (a & s' & cs' & -> & Hm & Hk).
    rewrite consumed_app in Hk. exists a, s', ((i, a) :: cs'). cbn. split_all; eauto.
Qed.

Lemma fullmatch_sound r s cs :
  Re.fullmatch r s = Some cs -> matches r s [] cs.
Proof.
  unfold Re.fullmatch. intros H. apply run_sound in H as (a & s' & cs' & -> & Hm & Hk).
  destruct s'; [|discriminate]. injection Hk as <-. rewrite append_nil_r. exact Hm.
Qed.

Lemma matches_lit w : forall a cs cs', matches (Re.lit w) a cs cs' -> a = w /\ cs' = cs.
Proof.
  induction w as [|c w IH]; intros a cs cs' H; cbn in H.
  - exact H.
  - destruct H as (a1 & a2 & cs1 & -> & [-> ->] & H). apply IH in H as [-> ->]. auto.
Qed.

(** ** The text of a number is read by [float] *)

Lemma digit_facts c :
  Text.is_digit c = true ->
  Text.is_space c = false /\ Ascii.eqb c "_" = false /\ Ascii.eqb c "-" = false /\
  Ascii.eqb c "+" = false /\ Ascii.eqb c "." = false /\ Text.lower_char c = c /\
  Ascii.eqb c "i" = false /\ Ascii.eqb c "n" = false /\ Ascii.eqb c "e" = false /\
  Ascii.eqb c "a" = false.
Proof.
  destruct c as [[] [] [] [] [] [] [] []]; vm_compute; intros H;
    try discriminate H; repeat split.
Qed.

Lemma string_all_app p a b :
  string_all p (a ++ b) = string_all p a && string_all p b.
Proof.
  induction a as [|c a IH]; cbn; [reflexivity|]. rewrite IH, andb_assoc. reflexivity.
Qed.

Lemma string_all_impl (p q : ascii -> bool) a :
  (forall c, p c = true -> q c = true) -> string_all p a = true -> string_all q a = true.
Proof.
  intros Hpq. induction a as [|c a IH]; cbn; [reflexivity|].
  intros H. apply andb_true_iff in H as [H1 H2]. rewrite (Hpq c H1), (IH H2). reflexivity.
Qed.

Lemma rstrip_all t :
  string_all (fun c => negb (Text.is_space c)) t = true -> Text.rstrip t = t.
Proof.
  induction t as [|c t IH]; cbn; [reflexivity|].
  intros H. apply andb_true_iff in H as [H1 H2]. apply negb_true_iff in H1.
  rewrite (IH H2), H1. destruct t; reflexivity.
Qed.

Lemma strip_all t :
  string_all (fun c => negb (Text.is_space c)) t = true -> Text.strip t = t.
Proof.
  intros H. unfold Text.strip.
  assert (Hl : Text.lstrip t = t).
  { destruct t as [|c t]; [reflexivity|]. cbn in *.
    apply andb_true_iff in H as [H1 _]. apply negb_true_iff in H1. rewrite H1. reflexivity. }
  rewrite Hl. apply rstrip_all, H.
Qed.

Lemma drop_underscores_all t :
  string_all (fun c => negb (Ascii.eqb c "_")) t = true ->
  forall b, Flt.drop_underscores b t = Some t.
Proof.
  induction t as [|c t IH]; cbn; [reflexivity|].
  intros H b. apply andb_true_iff in H as [H1 H2]. apply negb_true_iff in H1.
  rewrite H1, (IH H2). reflexivity.
Qed.

Lemma span_app p a r :
  string_all p a = true -> stops p r -> Flt.span p (a ++ r) = (a, r).
Proof.
  intros Ha Hr. induction a as [|c a IH].
  - destruct r as [|c r]; [reflexivity|]. cbn in Hr. cbn [append Flt.span].
    rewrite Hr. reflexivity.
  - cbn in Ha. apply andb_true_iff in Ha as [H1 H2]. cbn [append Flt.span].
    rewrite H1, (IH H2). reflexivity.
Qed.

Lemma matches_dg1 a cs cs' :
  matches dg1 a cs cs' -> a <> EmptyString /\ string_all Text.is_digit a = true /\ cs' = cs.
Proof. intros H. exact H. Qed.

Lemma number_char_plain c :
  number_char c = true ->
  negb (Text.is_space c) = true /\ negb (Ascii.eqb c "_") = true.
Proof.
  destruct c as [[] [] [] [] [] [] [] []]; vm_compute; intros H;
    try discriminate H; repeat split.
Qed.

Lemma digits_number_chars a :
  string_all Text.is_digit a = true -> string_all number_char a = true.
Proof.
  apply string_all_impl. intros c H. unfold number_char. rewrite H. reflexivity.
Qed.

Lemma digits_head a r :
  a <> EmptyString -> string_all Text.is_digit a = true ->
  exists c t, (a ++ r)%string = String c t /\ Text.is_digit c = true.
Proof.
  destruct a as [|c a]; [contradiction|]. cbn. intros _ H.
  apply andb_true_iff in H as [H _]. eauto.
Qed.

Lemma rx_number_text t cs cs' :
  matches rx_number t cs cs' -> number_text t /\ cs' = cs.
Proof.
  unfold rx_number. cbn [Re.seqs matches].
  intros (sg & t1 & cs1 & -> & Hsg & ip & t2 & cs2 & -> & Hip &
          fr & ex & cs3 & -> & Hfr & Hex).
  destruct Hip as (Hip1 & Hip2 & ->).
  assert (Hsg' : (sg = "" \/ sg = "-") /\ cs1 = cs).
  { destruct Hsg as [[-> ->]|[-> ->]]; auto. }
  destruct Hsg' as [Hsg' ->].
  assert (Hfr' : (fr = "" \/ exists fd, fr = String "." fd /\ digits fd) /\ cs3 = cs).
  { destruct Hfr as [(a & fd & c0 & -> & [-> ->] & Hd1 & Hd2 & ->)|[-> ->]].
    - split; [right; exists fd; split; [reflexivity|split; assumption]|reflexivity].
    - auto. }
  destruct Hfr' as [Hfr' ->].
  assert (Hex' : (ex = "" \/
                  exists c sgn ed,
                    ex = String c (sgn ++ ed) /\ (c = "e" \/ c = "E")%char /\
                    (sgn = "" \/ sgn = "+" \/ sgn = "-") /\ digits ed) /\ cs' = cs).
  { destruct Hex as [(a & r & c0 & -> & (c & -> & Hc & ->) & sgn & ed & c1 & -> & Hs &
                      (Hd1 & Hd2 & ->))|[-> ->]]; [|auto].
    assert (Hs' : (sgn = "" \/ sgn = "+" \/ sgn = "-") /\ c1 = cs).
    { destruct Hs as [(c' & -> & Hc' & ->)|[-> ->]]; [|auto].
      apply orb_true_iff in Hc' as [Hc'|Hc']; apply Ascii.eqb_eq in Hc'; subst c'; auto. }
    destruct Hs' as [Hs' ->]. split; [|reflexivity].
    right. exists c, sgn, ed. split_all; auto.
    - apply orb_true_iff in Hc as [Hc|Hc]; apply Ascii.eqb_eq in Hc; auto.
    - split; assumption. }
  destruct Hex' as [Hex' ->].
  split; [|reflexivity].
  exists sg, ip, fr, ex. split_all; auto. split; assumption.
Qed.

Lemma number_text_chars t : number_text t -> string_all number_char t = true.
Proof.
  intros (sg & ip & fr & ex & -> & Hsg & [_ Hip] & Hfr & Hex).
  rewrite !string_all_app. repeat (apply andb_true_iff; split).
  - destruct Hsg as [->| ->]; reflexivity.
  - apply digits_number_chars, Hip.
  - destruct Hfr as [->|(fd & -> & _ & Hfd)]; [reflexivity|].
    cbn. apply digits_number_chars, Hfd.
  - destruct Hex as [->|(c & sgn & ed & -> & Hc & Hs & _ & Hed)]; [reflexivity|].
    cbn [string_all]. rewrite string_all_app. repeat (apply andb_true_iff; split).
    + destruct Hc as [->| ->]; reflexivity.
    + destruct Hs as [->|[->| ->]]; reflexivity.
    + apply digits_number_chars, Hed.
Qed.

Lemma exponent_reads ex :
  ex = "" \/
  (exists c sgn ed,
      ex = String c (sgn ++ ed) /\ (c = "e" \/ c = "E")%char /\
      (sgn = "" \/ sgn = "+" \/ sgn = "-") /\ digits ed) ->
  exists e, Flt.exponent ex = Some e.
Proof.
  intros [->|(c & sgn & ed & -> & Hc & Hs & Hne & Hed)]; [eexists; reflexivity|].
  assert (Hsp : Flt.span Text.is_digit ed = (ed, "")).
  { rewrite <- (append_nil_r ed) at 1. apply span_app; [exact Hed|exact I]. }
  assert (Hl : Ascii.eqb (Text.lower_char c) "e" = true) by (destruct Hc as [->| ->]; reflexivity).
  unfold Flt.exponent. rewrite Hl.
  destruct ed as [|d ed]; [contradiction|].
  assert (Hd : Text.is_digit d = true) by (cbn in Hed; apply andb_true_iff in Hed as [H _]; exact H).
  destruct (digit_facts d Hd) as (_ & _ & Hm & Hp & _).
  assert (Hsign : exists neg, Flt.split_sign (sgn ++ String d ed) = (neg, String d ed)).
  { destruct Hs as [->|[->| ->]].
    - exists false. cbn. rewrite Hm, Hp. reflexivity.
    - exists false. reflexivity.
    - exists true. reflexivity. }
  destruct Hsign as [neg ->]. rewrite Hsp. cbn [Text.is_empty orb negb].
  eexists; reflexivity.
Qed.

(** [float] reads every text that [__rxnum] takes for a number. *)
Lemma number_text_parses t : number_text t -> exists f, Flt.of_text t = Some f.
Proof.
  intros Ht. pose proof (number_text_chars t Ht) as Hch.
  assert (Hstrip : Text.strip t = t).
  { apply strip_all. revert Hch. apply string_all_impl. intros c H.
    apply number_char_plain, H. }
  assert (Hdrop : Flt.drop_underscores false t = Some t).
  { apply drop_underscores_all. revert Hch. apply string_all_impl. intros c H.
    apply number_char_plain, H. }
  unfold Flt.of_text. rewrite Hstrip, Hdrop.
  destruct Ht as (sg & ip & fr & ex & -> & Hsg & [Hne Hip] & Hfr & Hex).
  destruct ip as [|d ip]; [contradiction|].
  assert (Hd : Text.is_digit d = true) by (cbn in Hip; apply andb_true_iff in Hip as [H _]; exact H).
  destruct (digit_facts d Hd) as (_ & _ & Hm & Hp & _ & Hlow & Hi & Hn & _).
  assert (Hsign : exists neg, Flt.split_sign (sg ++ String d ip ++ fr ++ ex) =
                              (neg, (String d ip ++ fr ++ ex)%string)).
  { destruct Hsg as [->| ->].
    - exists false. cbn. rewrite Hm, Hp. reflexivity.
    - exists true. reflexivity. }
  destruct Hsign as [neg ->].
  assert (Hinf : forall w, String.eqb (Text.lower (String d ip ++ fr ++ ex)) (String "i" w) = false).
  { intros w. cbn. rewrite Hlow, Hi. reflexivity. }
  assert (Hnan : forall w, String.eqb (Text.lower (String d ip ++ fr ++ ex)) (String "n" w) = false).
  { intros w. cbn. rewrite Hlow, Hn. reflexivity. }
  cbv zeta. rewrite !Hinf, Hnan. cbn [orb].
  assert (Hstop_ex : stops Text.is_digit ex).
  { destruct Hex as [->|(c & sgn & ed & -> & Hc & _)]; [exact I|].
    destruct Hc as [->| ->]; reflexivity. }
  assert (Hstop : stops Text.is_digit (fr ++ ex)).
  { destruct Hfr as [->|(fd & -> & _)]; [exact Hstop_ex|reflexivity]. }
  rewrite (span_app Text.is_digit (String d ip) (fr ++ ex) Hip Hstop).
  destruct (exponent_reads ex Hex) as [e He].
  destruct Hfr as [->|(fd & -> & Hfd1 & Hfd2)].
  - cbn [append].
    assert (Hr : match ex with
                 | String c r' => if Ascii.eqb c "." then Flt.span Text.is_digit r' else ("", ex)
                 | EmptyString => ("", ex)
                 end = ("", ex)).
    { destruct Hex as [->|(c & sgn & ed & -> & Hc & _)]; [reflexivity|].
      destruct Hc as [->| ->]; reflexivity. }
    rewrite Hr. cbn [Text.is_empty andb]. rewrite He. eexists; reflexivity.
  - cbn [append]. rewrite Ascii.eqb_refl.
    rewrite (span_app Text.is_digit fd ex Hfd2 Hstop_ex).
    cbn [Text.is_empty andb]. rewrite He. eexists; reflexivity.
Qed.

(** ** The two grammars of the query compiler *)

(** What [__rxnum] takes: [at], the word [least] or [most], and a number. *)
Lemma rxnum_shape a cs :
  Re.fullmatch rxnum a = Some cs ->
  exists sp w sp' t,
    a = ("at" ++ sp ++ w ++ sp' ++ t)%string /\ (w = "least" \/ w = "most") /\
    number_text t /\ cs = [(2%nat, t); (1%nat, w)].
Proof.
  intros H. apply fullmatch_sound in H. unfold rxnum in H. cbn [Re.seqs matches] in H.
  destruct H as (a1 & r1 & cs1 & -> & Hat & sp & r2 & cs2 & -> & Hsp &
                 w & r3 & cs3 & -> & (cs4 & Hw & ->) & sp' & t & cs5 & -> & Hsp' &
                 cs6 & Ht & ->).
  apply matches_lit in Hat as [-> ->].
  destruct Hsp as (_ & _ & ->). destruct Hsp' as (_ & _ & ->).
  apply rx_number_text in Ht as [Ht ->].
  assert (Hw' : (w = "least" \/ w = "most") /\ cs4 = []).
  { destruct Hw as [Hw|Hw]; apply matches_lit in Hw as [-> ->]; auto. }
  destruct Hw' as [Hw' ->].
  exists sp, w, sp', t. auto.
Qed.

(** A text that starts with [at] is no date of [__rxdate]. *)
Lemma rxdate_rejects r : Re.fullmatch rxdate ("at" ++ r) = None.
Proof.
  destruct (Re.fullmatch rxdate ("at" ++ r)) as [cs|] eqn:H; [|reflexivity].
  exfalso. apply fullmatch_sound in H. unfold rxdate in H.
  cbn [Re.seqs Re.alts matches] in H.
  destruct H as (a1 & a2 & cs1 & Heq & Hq & cs2 & Hd & _).
  assert (Hd' : exists c t, a2 = String c t /\ Ascii.eqb c "a" = false).
  { destruct Hd as [Hd|[Hd|[Hd|Hd]]].
    - destruct Hd as (d & t & c0 & -> & (Hne & Hdig & _) & _).
      destruct (digits_head d t Hne Hdig) as (c & t' & -> & Hc).
      exists c, t'. split; [reflexivity|]. apply digit_facts in Hc. tauto.
    - destruct Hd as (d & t & c0 & -> & Hd & _). apply matches_lit in Hd as [-> _].
      eexists _, _. split; reflexivity.
    - apply matches_lit in Hd as [-> _]. eexists _, _. split; reflexivity.
    - destruct Hd as (d & t & c0 & -> & Hd & _). apply matches_lit in Hd as [-> _].
      eexists _, _. split; reflexivity. }
  destruct Hd' as (c & t & -> & Hc).
  destruct Hq as [(w & sp & c0 & -> & (c1 & Hw & _) & _)|[-> _]].
  - destruct Hw as [Hw|Hw]; apply matches_lit in Hw as [-> _]; discriminate Heq.
  - cbn in Heq. injection Heq as <- _. discriminate Hc.
Qed.



Lemma digit_char_digit n : Text.is_digit (Text.digit_char n) = true.
Proof.
  unfold Text.digit_char.
  assert (H : 0 <= n mod 10 < 10) by (apply Z.mod_pos_bound; lia).
  assert (H' : n mod 10 = 0 \/ n mod 10 = 1 \/ n mod 10 = 2 \/ n mod 10 = 3 \/ n mod 10 = 4 \/
               n mod 10 = 5 \/ n mod 10 = 6 \/ n mod 10 = 7 \/ n mod 10 = 8 \/ n mod 10 = 9)
    by lia.
  repeat (destruct H' as [->|H']; [reflexivity|]). rewrite H'. reflexivity.
Qed.





(** ** What the getters read *)

Lemma run_getter_field h (ismeta : bool) key v x :
  record_field h ismeta key v = Some x ->
  run_getter h (if ismeta then GetMeta key else GetField key) v = Ok x.
Proof.
  destruct v; try discriminate. cbn [record_field]. destruct ismeta; cbn [run_getter getitem].
  - destruct (dict_get (VStr "meta") (heap_get h l)) as [[]|]; try discriminate.
    cbn [res_bind getitem]. intros ->. reflexivity.
  - intros ->. reflexivity.
Qed.

(** A typed record is not subscriptable. *)
Lemma run_getter_entity h g c id l : run_getter h g (VObj c id l) = Raise TypeError.
Proof. destruct g; reflexivity. Qed.

(** ** The metadata bucket *)



Lemma update_value_plain val st : is_str val = false -> update_value val st = (Ok val, st).
Proof. destruct val; try reflexivity. discriminate. Qed.




(** ** What the conversions leave in the heap *)

Lemma heap_extends_refl h : heap_extends h h.
Proof. split; auto. Qed.

Lemma heap_extends_trans h1 h2 h3 :
  heap_extends h1 h2 -> heap_extends h2 h3 -> heap_extends h1 h3.
Proof. intros [L1 K1] [L2 K2]. split; [lia | auto]. Qed.

Lemma has_key_lt h l k : has_key h l k -> (l < length h)%nat.
Proof.
  unfold has_key, heap_get. intros H.
  destruct (h !! l) as [d|] eqn:E; [apply lookup_lt_Some in E; exact E|].
  exfalso. apply H. reflexivity.
Qed.

Lemma heap_extends_write h l (d : dict) :
  (forall k, dict_get (VStr k) (heap_get h l) <> None -> dict_get (VStr k) d <> None) ->
  heap_extends h (<[l := d]> h).
Proof.
  intros Hd. split; [rewrite length_insert; lia|].
  intros l' k Hk. unfold has_key. destruct (decide (l = l')) as [<-|Hne].
  - rewrite heap_get_insert_same by (eapply has_key_lt; exact Hk). apply Hd, Hk.
  - rewrite heap_get_insert_other by exact Hne. exact Hk.
Qed.

Lemma heap_extends_alloc h (d : dict) : heap_extends h (h ++ [d]).
Proof.
  split; [rewrite length_app; cbn; lia|].
  intros l k Hk. unfold has_key. rewrite heap_get_app_l by (eapply has_key_lt; exact Hk).
  exact Hk.
Qed.

Lemma monotone_same {A : Type} (m : M A) :
  (forall st, heap (snd (m st)) = heap st) -> monotone m.
Proof. intros H st. rewrite H. apply heap_extends_refl. Qed.

Lemma monotone_ret {A : Type} (a : A) : monotone (ret a).
Proof. apply monotone_same. reflexivity. Qed.

Lemma monotone_raise {A : Type} e : monotone (@raise A e).
Proof. apply monotone_same. reflexivity. Qed.

Lemma monotone_lift {A : Type} (r : Res A) : monotone (lift r).
Proof. apply monotone_same. reflexivity. Qed.

Lemma monotone_gets {A : Type} (f : State -> A) : monotone (gets f).
Proof. apply monotone_same. reflexivity. Qed.

Lemma monotone_pure {A : Type} (f : State -> Res A) : monotone (fun st => (f st, st)).
Proof. apply monotone_same. reflexivity. Qed.

Lemma monotone_bind {A B : Type} (m : M A) (k : A -> M B) :
  monotone m -> (forall a, monotone (k a)) -> monotone (bind m k).
Proof.
  intros Hm Hk st. unfold bind. specialize (Hm st).
  destruct (m st) as [[a|e] st1]; cbn in Hm.
  - eapply heap_extends_trans; [exact Hm | apply Hk].
  - exact Hm.
Qed.

(** Reading a dict and writing it back with more keys. *)
Lemma monotone_update l (f : dict -> dict) :
  (forall d k, dict_get (VStr k) d <> None -> dict_get (VStr k) (f d) <> None) ->
  monotone (let* d := read_dict l in write_dict l (f d)).
Proof. intros Hf st. cbn. apply heap_extends_write. intros k. apply Hf. Qed.

Lemma monotone_alloc d : monotone (alloc_dict d).
Proof. intros st. cbn. apply heap_extends_alloc. Qed.

Lemma monotone_for_each {A : Type} (f : A -> M unit) l :
  (forall a, monotone (f a)) -> monotone (for_each f l).
Proof.
  intros Hf. induction l as [|a r IH]; cbn [for_each].
  - apply monotone_ret.
  - apply monotone_bind; [apply Hf | intros _; exact IH].
Qed.

Lemma monotone_map_m {A B : Type} (f : A -> M B) l :
  (forall a, monotone (f a)) -> monotone (map_m f l).
Proof.
  intros Hf. induction l as [|a r IH]; cbn [map_m].
  - apply monotone_ret.
  - apply monotone_bind; [apply Hf | intros b].
    apply monotone_bind; [exact IH | intros bs; apply monotone_ret].
Qed.

Lemma monotone_fold {A B : Type} (f : M B -> A -> M B) l :
  (forall m a, monotone m -> monotone (f m a)) ->
  forall m, monotone m -> monotone (fold_left f l m).
Proof.
  intros Hf. induction l as [|a r IH]; intros m Hm; cbn [fold_left]; [exact Hm|].
  apply IH, Hf, Hm.
Qed.

Lemma dict_set_keeps k k' v d :
  dict_get (VStr k) d <> None -> dict_get (VStr k) (dict_set (VStr k') v d) <> None.
Proof. intros H. rewrite dict_get_set. destruct (String.eqb k' k); [discriminate | exact H]. Qed.

Lemma dict_setdefault_keeps k k' d :
  dict_get (VStr k) d <> None -> dict_get (VStr k) (dict_setdefault (VStr k') d) <> None.
Proof.
  intros H. rewrite dict_get_setdefault. destruct (String.eqb k' k); [discriminate | exact H].
Qed.

(** Solves [monotone m] for a program [m] put together from monotone parts. *)
Ltac mono :=
  repeat first
    [ assumption
    | apply monotone_ret
    | apply monotone_raise
    | apply monotone_lift
    | apply monotone_gets
    | apply monotone_alloc
    | apply monotone_pure
    | apply monotone_update; intros; first [apply dict_set_keeps | apply dict_setdefault_keeps
                                            | apply dict_update_get_some]; assumption
    | apply monotone_for_each; intros
    | apply monotone_map_m; intros
    | apply monotone_bind; [|intros]
    | match goal with
      | |- monotone (match ?x with _ => _ end) => destruct x
      end
    | apply monotone_same; intros; reflexivity ].

Lemma get_factory_monotone : forall t, monotone (get_factory t).
Proof.
  fix IH 1. intros t.
  assert (Hloop : forall args, (forall a, In a args -> monotone (get_factory a)) ->
            forall nullable factory,
            monotone ((fix loop (args : list ptype) (nullable : bool) (factory : option Factory)
                         : M (bool * option Factory) :=
                         match args with
                         | [] => ret (nullable, factory)
                         | type_ :: rest =>
                             if ptype_eqb type_ TNoneType then loop rest true factory
                             else
                               match factory with
                               | None =>
                                   let* f := get_factory type_ in
                                   loop rest nullable (Some f)
                               | Some _ => raise TypeError
                               end
                         end) args nullable factory)).
  { induction args as [|a r IHr]; intros Hin nullable factory.
    - apply monotone_ret.
    - destruct (ptype_eqb a TNoneType).
      + apply IHr. intros b Hb. apply Hin. right. exact Hb.
      + destruct factory; [apply monotone_raise|].
        apply monotone_bind; [apply Hin; left; reflexivity|].
        intros f. apply IHr. intros b Hb. apply Hin. right. exact Hb. }
  destruct t; cbn [get_factory]; mono.
  all: try (unfold new_cell, set_cell, read_cell, new_entity_factory; mono).
  - apply Hloop. clear Hloop. induction args as [|a r IHr]; intros b [].
    + subst b. apply IH.
    + apply IHr. assumption.
  - apply IH.
  - apply IH.
  - apply IH.
Qed.

Lemma get_props_monotone ef : monotone (get_props ef).
Proof.
  unfold get_props. mono.
  all: try (apply monotone_bind; [|intros; apply monotone_ret]); apply get_factory_monotone.
Qed.

Lemma class_props_monotone c : monotone (class_props c).
Proof.
  unfold class_props. apply monotone_bind; [apply get_factory_monotone|].
  intros f. destruct f; try apply monotone_raise. apply get_props_monotone.
Qed.

Lemma getattr_monotone self name : monotone (getattr self name).
Proof. unfold getattr, read_dict. mono. Qed.

Lemma setattr_monotone self name v : monotone (setattr self name v).
Proof. unfold setattr. mono. Qed.

Lemma default_attr_monotone self name v : monotone v -> monotone (default_attr self name v).
Proof.
  intros Hv. unfold default_attr. apply monotone_bind; [apply getattr_monotone|].
  intros cur. destruct (is_none cur); [|apply monotone_ret].
  apply monotone_bind; [exact Hv | intros x; apply setattr_monotone].
Qed.

Lemma Entity_new_monotone c data kwargs : monotone (Entity_new c data kwargs).
Proof.
  unfold Entity_new, fresh_id.
  apply monotone_bind; [apply monotone_same; reflexivity | intros id].
  apply monotone_bind; [apply monotone_alloc | intros own].
  apply monotone_bind; [apply monotone_gets | intros given].
  apply monotone_bind; [destruct given; mono | intros l].
  apply monotone_bind; [apply class_props_monotone | intros ps].
  apply monotone_bind; [|intros; apply monotone_ret].
  apply monotone_for_each. intros kv. apply monotone_update.
  intros d k. apply dict_setdefault_keeps.
Qed.

Lemma Entity_init_monotone self data kwargs : monotone (Entity_init self data kwargs).
Proof.
  unfold Entity_init. destruct (is_nil kwargs); [apply monotone_ret|].
  destruct self; try apply monotone_raise.
  apply monotone_update. intros d k. apply dict_update_get_some.
Qed.

Lemma get_point_type_monotone p : monotone (get_point_type p).
Proof.
  unfold get_point_type.
  apply monotone_bind; [apply monotone_gets | intros cached].
  apply monotone_bind.
  - destruct cached as [[|t ts]|]; try apply monotone_ret;
      (destruct (scan_point_types 17 [Point] []); [|apply monotone_raise];
       apply monotone_bind; [apply monotone_same; reflexivity | intros; apply monotone_ret]).
  - intros types. destruct (hashable p); [destruct p; apply monotone_ret | apply monotone_raise].
Qed.

Lemma discriminator_monotone data kwargs : monotone (discriminator data kwargs).
Proof. unfold discriminator, read_dict. mono. Qed.

Lemma Point_new_monotone c data kwargs : monotone (Point_new c data kwargs).
Proof.
  unfold Point_new. apply monotone_bind; [apply monotone_gets | intros given].
  apply monotone_bind; [|intros; apply Entity_new_monotone].
  destruct (bool_decide (c = Point) && given); [|apply monotone_ret].
  apply monotone_bind; [apply discriminator_monotone | intros; apply get_point_type_monotone].
Qed.

Lemma Point_init_monotone self data kwargs : monotone (Point_init self data kwargs).
Proof.
  unfold Point_init.
  apply monotone_bind; [apply Entity_init_monotone | intros _].
  apply monotone_bind; [apply getattr_monotone | intros p].
  apply monotone_bind; [apply monotone_gets | intros has_type].
  apply monotone_bind; [destruct has_type; [apply monotone_ret | apply setattr_monotone]|intros _].
  repeat (apply monotone_bind; [apply default_attr_monotone; mono | intros _]).
  apply default_attr_monotone; mono.
Qed.

Lemma construct_monotone c data kwargs : monotone (construct c data kwargs).
Proof.
  unfold construct. destruct (is_point_class c).
  - apply monotone_bind; [apply Point_new_monotone | intros self].
    apply monotone_bind; [apply Point_init_monotone | intros; apply monotone_ret].
  - apply monotone_bind; [apply Entity_new_monotone | intros self].
    apply monotone_bind; [apply Entity_init_monotone | intros; apply monotone_ret].
Qed.

Lemma value_of_lit_monotone : forall x, monotone (value_of_lit x).
Proof.
  fix IH 1. intros x.
  destruct x; cbn [value_of_lit]; try apply monotone_ret.
  - apply monotone_bind; [|intros; apply monotone_ret].
    induction items as [|a r IHr]; [apply monotone_ret|].
    apply monotone_bind; [apply IH | intros v].
    apply monotone_bind; [exact IHr | intros; apply monotone_ret].
  - apply monotone_bind; [|intros; apply monotone_ret].
    induction items as [|a r IHr]; [apply monotone_ret|].
    apply monotone_bind; [apply IH | intros v].
    apply monotone_bind; [exact IHr | intros; apply monotone_ret].
  - apply monotone_bind; [|intros d; apply monotone_bind; [apply monotone_alloc | intros; apply monotone_ret]].
    generalize (@nil (value * value)). induction items as [|[a b] r IHr]; intros acc.
    + apply monotone_ret.
    + apply monotone_bind; [apply IH | intros k].
      apply monotone_bind; [apply IH | intros v].
      destruct (hashable k); [apply IHr | apply monotone_raise].
Qed.

Lemma literal_or_self_monotone lib val : monotone (literal_or_self lib val).
Proof.
  unfold literal_or_self. destruct val; try apply monotone_ret.
  apply monotone_bind; [apply monotone_lift | intros x; apply value_of_lit_monotone].
Qed.

Lemma data_get_monotone data key : monotone (data_get data key).
Proof. unfold data_get, read_dict. mono. Qed.

Lemma setitem_monotone data key v : monotone (setitem data key v).
Proof. unfold setitem. mono. Qed.

(** A conversion drops no dict and no key, whatever it is called on and
    whether it returns or raises. *)
Lemma call_monotone lib : forall depth f val, monotone (call lib depth f val).
Proof.
  induction depth as [|depth IH]; intros f val; [apply monotone_raise|].
  destruct f; cbn [call].
  - apply monotone_ret.
  - apply monotone_bind; [apply literal_or_self_monotone | intros]. mono.
  - mono.
  - apply monotone_bind; [apply literal_or_self_monotone | intros]. mono.
  - apply monotone_bind; [apply literal_or_self_monotone | intros]. mono.
  - apply monotone_pure.
  - apply monotone_same. intros st. destruct (parse_datetime lib st val None) as [[d|]|e]; reflexivity.
  - destruct (in_none val); [apply monotone_ret|]. unfold read_cell.
    apply monotone_bind; [apply monotone_gets | intros g].
    destruct g; [apply IH | apply monotone_raise].
  - apply monotone_ret.
  - apply monotone_bind; [apply literal_or_self_monotone | intros x].
    apply monotone_bind; [apply monotone_pure | intros items].
    apply monotone_bind; [apply monotone_map_m; intros; apply IH | intros; apply monotone_ret].
  - apply monotone_bind; [apply literal_or_self_monotone | intros x].
    apply monotone_bind; [apply monotone_pure | intros items].
    apply monotone_bind; [|intros d; apply monotone_bind; [apply monotone_alloc | intros; apply monotone_ret]].
    apply monotone_fold; [|apply monotone_ret].
    intros m a Hm. apply monotone_bind; [exact Hm | intros d].
    apply monotone_bind; [apply IH | intros k].
    apply monotone_bind; [apply IH | intros v].
    destruct (hashable k); [apply monotone_ret | apply monotone_raise].
  - apply monotone_bind; [apply get_props_monotone | intros ps].
    apply monotone_bind.
    + apply monotone_for_each. intros kv.
      apply monotone_bind; [apply data_get_monotone | intros old].
      apply monotone_bind; [apply IH | intros v; apply setitem_monotone].
    + intros _. apply monotone_bind; [apply monotone_gets | intros o].
      destruct o as [[c p]|]; [apply construct_monotone | apply monotone_raise].
Qed.

(** ** [EntityFactory.make] and the mapping it is given *)

(** One round of the loop of [make]: the mapping holds, under the key, the
    value the conversion returned. *)
Lemma make_step lib depth l k f st st' :
  (l < length (heap st))%nat ->
  (let* old := data_get (VDict l) k in
   let* v := call lib depth f old in
   setitem (VDict l) k v) st = (Ok tt, st') ->
  heap_extends (heap st) (heap st') /\
  exists v st1,
    call lib depth f (default VNone (dict_get (VStr k) (heap_get (heap st) l))) st = (Ok v, st1) /\
    dict_get (VStr k) (heap_get (heap st') l) = Some v.
Proof.
  intros Hl H. split.
  - assert (Hm : monotone (let* old := data_get (VDict l) k in
                           let* v := call lib depth f old in
                           setitem (VDict l) k v)).
    { apply monotone_bind; [apply data_get_monotone | intros old].
      apply monotone_bind; [apply call_monotone | intros v; apply setitem_monotone]. }
    specialize (Hm st). rewrite H in Hm. exact Hm.
  - apply bind_inv in H as (old & s0 & Hold & H).
    cbn in Hold. injection Hold as <- <-.
    apply bind_inv in H as (v & st1 & Hcall & H).
    exists v, st1. split; [exact Hcall|].
    cbn in H. injection H as <-. cbn [heap set_heap].
    pose proof (call_monotone lib depth f
                  (default VNone (dict_get (VStr k) (heap_get (heap st) l))) st) as [Hlen _].
    rewrite Hcall in Hlen. cbn in Hlen.
    rewrite heap_get_insert_same by lia. apply dict_get_set_same.
Qed.

Lemma make_loop lib depth l (ps : props) : forall st st',
  (l < length (heap st))%nat ->
  for_each (fun kv =>
              let* old := data_get (VDict l) (fst kv) in
              let* v := call lib depth (snd kv) old in
              setitem (VDict l) (fst kv) v) ps st = (Ok tt, st') ->
  heap_extends (heap st) (heap st') /\
  forall k, In k (map fst ps) -> has_key (heap st') l k.
Proof.
  induction ps as [|[k f] r IH]; intros st st' Hl H.
  - cbn in H. injection H as <-. split; [apply heap_extends_refl | intros k []].
  - cbn [for_each] in H. apply bind_inv in H as ([] & s1 & Hstep & H).
    cbn [fst snd] in Hstep. apply make_step in Hstep as [Hext (v & s0 & _ & Hv)]; [|exact Hl].
    assert (Hl1 : (l < length (heap s1))%nat) by (destruct Hext; lia).
    destruct (IH s1 st' Hl1 H) as [Hext' Hkeys].
    split; [eapply heap_extends_trans; eassumption|].
    intros k' [<-|Hin]; [|apply Hkeys, Hin].
    apply Hext'. unfold has_key. cbn [fst]. rewrite Hv. discriminate.
Qed.

(** [__new__] on a mapping that is not empty: the record takes it. *)
Lemma Entity_new_store c l kwargs st self st' :
  is_nil (heap_get (heap st) l) = false ->
  Entity_new c (VDict l) kwargs st = (Ok self, st') ->
  exists id, self = VObj c id l.
Proof.
  intros Hne H. unfold Entity_new in H.
  apply bind_inv in H as (id & s1 & Hid & H). cbn in Hid. injection Hid as <- <-.
  apply bind_inv in H as (own & s2 & Hown & H). cbn in Hown. injection Hown as <- <-.
  apply bind_inv in H as (given & s3 & Hg & H). cbn in Hg. injection Hg as <- <-.
  assert (Hl : (l < length (heap st))%nat).
  { unfold heap_get in Hne. destruct (heap st !! l) eqn:E; [|discriminate Hne].
    apply lookup_lt_Some in E. exact E. }
  rewrite heap_get_app_l in H by exact Hl. rewrite Hne in H. cbn [negb] in H.
  apply bind_inv in H as (l' & s4 & Hl' & H). cbn in Hl'. injection Hl' as <- <-.
  apply bind_inv in H as (ps & s5 & _ & H).
  apply bind_inv in H as ([] & s6 & _ & H).
  cbn in H. injection H as <- _. exists (next_id st). reflexivity.
Qed.

Lemma construct_store c l st self st' :
  is_nil (heap_get (heap st) l) = false ->
  construct c (VDict l) [] st = (Ok self, st') ->
  exists c' id, self = VObj c' id l.
Proof.
  intros Hne H. unfold construct in H. destruct (is_point_class c).
  - apply bind_inv in H as (self' & s1 & Hnew & H).
    apply bind_inv in H as ([] & s2 & _ & H). cbn in H. injection H as <- _.
    unfold Point_new in Hnew.
    apply bind_inv in Hnew as (given & s3 & Hg & Hnew). cbn in Hg. injection Hg as _ <-.
    apply bind_inv in Hnew as (c' & s4 & Hc & Hnew).
    assert (Hh : heap s4 = heap st).
    { destruct (bool_decide (c = Point) && given).
      - pose proof Hc as Hc'. apply bind_inv in Hc' as (p & s5 & Hd & Hp).
        assert (heap s5 = heap st).
        { unfold discriminator in Hd. apply bind_inv in Hd as (g & s6 & Hg & Hd).
          cbn in Hg. injection Hg as _ <-. destruct g.
          - apply bind_inv in Hd as (d & s7 & Hr & Hd). cbn in Hr. injection Hr as _ <-.
            cbn in Hd. injection Hd as _ <-. reflexivity.
          - cbn in Hd. injection Hd as _ <-. reflexivity. }
        rewrite <- H. clear - Hp. unfold get_point_type in Hp.
        apply bind_inv in Hp as (cached & s6 & Hg & Hp). cbn in Hg. injection Hg as _ <-.
        apply bind_inv in Hp as (types & s7 & Ht & Hp).
        assert (heap s7 = heap s5).
        { destruct cached as [[|t ts]|]; cbn in Ht;
            try (injection Ht as _ <-; reflexivity);
            (destruct (scan_point_types 17 [Point] []); cbn in Ht;
             [injection Ht as _ <-; reflexivity | discriminate Ht]). }
        rewrite <- H. destruct (hashable p); [|discriminate Hp].
        destruct p; cbn in Hp; injection Hp as _ <-; reflexivity.
      - cbn in Hc. injection Hc as _ <-. reflexivity. }
    rewrite <- Hh in Hne. destruct (Entity_new_store _ _ _ _ _ _ Hne Hnew) as [id ->].
    eauto.
  - apply bind_inv in H as (self' & s1 & Hnew & H).
    apply bind_inv in H as ([] & s2 & _ & H). cbn in H. injection H as <- _.
    destruct (Entity_new_store _ _ _ _ _ _ Hne Hnew) as [id ->]. eauto.
Qed.

(** ** Lists of pairs *)

Lemma assoc_get_set {A : Type} k k' (v : A) l :
  assoc_get k (assoc_set k' v l) = if String.eqb k' k then Some v else assoc_get k l.
Proof.
  induction l as [|[a x] r IH]; cbn.
  - reflexivity.
  - destruct (String.eqb a k') eqn:E; cbn.
    + apply String.eqb_eq in E. subst a. destruct (String.eqb k' k); reflexivity.
    + rewrite IH. destruct (String.eqb a k) eqn:E'; [|reflexivity].
      apply String.eqb_eq in E'. subst a. rewrite String.eqb_sym, E. reflexivity.
Qed.

Lemma assoc_set_keys {A : Type} k (v : A) l :
  map fst (assoc_set k v l) = if assoc_mem k l then map fst l else map fst l ++ [k].
Proof.
  unfold assoc_mem. induction l as [|[a x] r IH]; cbn; [reflexivity|].
  destruct (String.eqb a k) eqn:E; cbn; [reflexivity|].
  rewrite IH. destruct (assoc_get k r); reflexivity.
Qed.

Lemma assoc_get_none_keys {A : Type} k (l : list (string * A)) :
  assoc_get k l = None -> ~ In k (map fst l).
Proof.
  induction l as [|[a x] r IH]; cbn; [tauto|].
  destruct (String.eqb a k) eqn:E; [discriminate|].
  intros H [->|Hin]; [rewrite String.eqb_refl in E; discriminate | exact (IH H Hin)].
Qed.

Lemma assoc_set_nodup {A : Type} k (v : A) l :
  NoDup (map fst l) -> NoDup (map fst (assoc_set k v l)).
Proof.
  intros H. rewrite assoc_set_keys. unfold assoc_mem.
  destruct (assoc_get k l) eqn:E; [exact H|].
  apply NoDup_app. split_all; [exact H | | apply NoDup_singleton].
  intros x Hx Hx'. apply list_elem_of_In in Hx, Hx'. destruct Hx' as [<-|[]].
  exact (assoc_get_none_keys _ _ E Hx).
Qed.

(** No field is declared twice in the hints of a class. *)
Lemma hints_nodup c : NoDup (field_names c).
Proof.
  unfold field_names, get_type_hints.
  assert (G : forall (bases : list cls) (hints : list (string * ptype)),
            NoDup (map fst hints) ->
            NoDup (map fst (fold_left (fun hints base =>
                                         fold_left (fun acc kv => assoc_set (fst kv) (snd kv) acc)
                                                   (annotations base) hints)
                                      bases hints))).
  { induction bases as [|b r IH]; intros hints H; [exact H|]. cbn [fold_left]. apply IH.
    generalize (annotations b). intros l. revert hints H.
    induction l as [|kv l IHl]; intros hints H; [exact H|]. cbn [fold_left].
    apply IHl, assoc_set_nodup, H. }
  apply G. apply NoDup_nil_2.
Qed.

(** ** Conversions that build no record *)

Lemma allocates_same {A : Type} cs (m : M A) :
  (forall st, snd (m st) = st) -> allocates cs m.
Proof.
  intros H st _. exists []. rewrite H, app_nil_r, set_heap_id. reflexivity.
Qed.

Lemma allocates_ret {A : Type} cs (a : A) : allocates cs (ret a).
Proof. apply allocates_same. reflexivity. Qed.

Lemma allocates_raise {A : Type} cs e : allocates cs (@raise A e).
Proof. apply allocates_same. reflexivity. Qed.

Lemma allocates_pure {A : Type} cs (f : State -> Res A) : allocates cs (fun st => (f st, st)).
Proof. apply allocates_same. reflexivity. Qed.

Lemma allocates_bind {A B : Type} cs (m : M A) (k : A -> M B) :
  allocates cs m -> (forall a, allocates cs (k a)) -> allocates cs (bind m k).
Proof.
  intros Hm Hk st Hcs. unfold bind. destruct (Hm st Hcs) as [x Hx].
  destruct (m st) as [[a|e] st1]; cbn [snd] in Hx.
  - destruct (Hk a st1) as [y Hy]; [rewrite Hx; exact Hcs|].
    exists (x ++ y). rewrite Hy, Hx. cbn [heap set_heap]. rewrite app_assoc. reflexivity.
  - exists x. exact Hx.
Qed.

Lemma allocates_alloc cs d : allocates cs (alloc_dict d).
Proof. intros st _. exists [d]. reflexivity. Qed.

Lemma allocates_map_m {A B : Type} cs (f : A -> M B) l :
  (forall a, allocates cs (f a)) -> allocates cs (map_m f l).
Proof.
  intros Hf. induction l as [|a r IH]; cbn [map_m].
  - apply allocates_ret.
  - apply allocates_bind; [apply Hf | intros b].
    apply allocates_bind; [exact IH | intros bs; apply allocates_ret].
Qed.

Lemma allocates_fold {A B : Type} cs (f : M B -> A -> M B) l :
  (forall m a, allocates cs m -> allocates cs (f m a)) ->
  forall m, allocates cs m -> allocates cs (fold_left f l m).
Proof.
  intros Hf. induction l as [|a r IH]; intros m Hm; cbn [fold_left]; [exact Hm|].
  apply IH, Hf, Hm.
Qed.

Lemma value_of_lit_allocates cs : forall x, allocates cs (value_of_lit x).
Proof.
  fix IH 1. intros x.
  destruct x; cbn [value_of_lit]; try apply allocates_ret.
  - apply allocates_bind; [|intros; apply allocates_ret].
    induction items as [|a r IHr]; [apply allocates_ret|].
    apply allocates_bind; [apply IH | intros v].
    apply allocates_bind; [exact IHr | intros; apply allocates_ret].
  - apply allocates_bind; [|intros; apply allocates_ret].
    induction items as [|a r IHr]; [apply allocates_ret|].
    apply allocates_bind; [apply IH | intros v].
    apply allocates_bind; [exact IHr | intros; apply allocates_ret].
  - apply allocates_bind;
      [|intros d; apply allocates_bind; [apply allocates_alloc | intros; apply allocates_ret]].
    generalize (@nil (value * value)). induction items as [|[a b] r IHr]; intros acc.
    + apply allocates_ret.
    + apply allocates_bind; [apply IH | intros k].
      apply allocates_bind; [apply IH | intros v].
      destruct (hashable k); [apply IHr | apply allocates_raise].
Qed.

Lemma literal_or_self_allocates lib cs val : allocates cs (literal_or_self lib val).
Proof.
  unfold literal_or_self. destruct val; try apply allocates_ret.
  apply allocates_bind; [apply allocates_pure | intros x; apply value_of_lit_allocates].
Qed.

(** A plain conversion only adds dicts to the heap, whatever it is called
    on and whether it returns or raises. *)
Lemma call_allocates lib cs : forall depth f val,
  plain cs f = true -> allocates cs (call lib depth f val).
Proof.
  induction depth as [|depth IH]; intros f val Hp; [apply allocates_raise|].
  destruct f; cbn [call]; cbn [plain] in Hp.
  - apply allocates_ret.
  - apply allocates_bind; [apply literal_or_self_allocates | intros].
    apply allocates_bind; [apply allocates_pure | intros; apply allocates_ret].
  - apply allocates_bind; [apply allocates_pure | intros; apply allocates_ret].
  - apply allocates_bind; [apply literal_or_self_allocates | intros].
    apply allocates_bind; [apply allocates_pure | intros; apply allocates_ret].
  - apply allocates_bind; [apply literal_or_self_allocates | intros].
    apply allocates_bind; [apply allocates_pure | intros; apply allocates_ret].
  - apply allocates_pure.
  - apply allocates_same. intros st.
    destruct (parse_datetime lib st val None) as [[d|]|e]; reflexivity.
  - destruct (in_none val); [apply allocates_ret|].
    intros st Hcs. unfold bind, read_cell, gets. cbv beta. rewrite Hcs.
    destruct (cs !! cell) as [[[]|]|] eqn:E; try discriminate Hp.
    apply Nat.eqb_eq in Hp. subst cell0. cbn [default].
    apply IH; [cbn [plain]; rewrite E; apply Nat.eqb_refl | exact Hcs].
  - apply allocates_ret.
  - apply allocates_bind; [apply literal_or_self_allocates | intros x].
    apply allocates_bind; [apply allocates_pure | intros items].
    apply allocates_bind; [apply allocates_map_m; intros; apply IH, Hp
                          | intros; apply allocates_ret].
  - apply andb_true_iff in Hp as [Hk Hv].
    apply allocates_bind; [apply literal_or_self_allocates | intros x].
    apply allocates_bind; [apply allocates_pure | intros items].
    apply allocates_bind;
      [|intros d; apply allocates_bind; [apply allocates_alloc | intros; apply allocates_ret]].
    apply allocates_fold; [|apply allocates_ret].
    intros m a Hm. apply allocates_bind; [exact Hm | intros d].
    apply allocates_bind; [apply IH, Hk | intros k].
    apply allocates_bind; [apply IH, Hv | intros v].
    destruct (hashable k); [apply allocates_ret | apply allocates_raise].
  - discriminate Hp.
Qed.

(** What a plain conversion returns for [None] is in the table. *)
Lemma call_none lib cs depth f st v st' :
  plain cs f = true -> call lib depth f VNone st = (Ok v, st') -> of_none f = Some v.
Proof.
  intros Hp H. destruct depth as [|depth]; [discriminate H|].
  destruct f; try discriminate Hp;
    cbn in H; try discriminate H; injection H as <- _; reflexivity.
Qed.

(** The loop of [make] for plain conversions: each key holds at the end
    the value its conversion returned for what the mapping held under the
    key at first, and the other keys hold what they held. *)
Lemma make_loop_plain lib depth l cs : forall (ps : props) st st',
  cells st = cs -> forallb (fun kf => plain cs (snd kf)) ps = true ->
  NoDup (map fst ps) -> (l < length (heap st))%nat ->
  for_each (fun kv =>
              let* old := data_get (VDict l) (fst kv) in
              let* v := call lib depth (snd kv) old in
              setitem (VDict l) (fst kv) v) ps st = (Ok tt, st') ->
  (exists h', st' = set_heap h' st /\ (length (heap st) <= length h')%nat) /\
  (forall k, ~ In k (map fst ps) ->
             dict_get (VStr k) (heap_get (heap st') l)
             = dict_get (VStr k) (heap_get (heap st) l)) /\
  (forall k f, In (k, f) ps ->
     exists h v sb,
       call lib depth f (default VNone (dict_get (VStr k) (heap_get (heap st) l)))
            (set_heap h st) = (Ok v, sb) /\
       dict_get (VStr k) (heap_get (heap st') l) = Some v).
Proof.
  induction ps as [|[k f] r IH]; intros st st' Hcs Hp Hnd Hl H.
  - cbn in H. injection H as <-. split_all.
    + exists (heap st). rewrite set_heap_id. split; [reflexivity | lia].
    + reflexivity.
    + intros k f [].
  - cbn [forallb snd] in Hp. apply andb_true_iff in Hp as [Hpf Hpr].
    cbn [map fst] in Hnd. apply NoDup_cons in Hnd as [Hk Hnd].
    cbn [for_each] in H. apply bind_inv in H as ([] & s2 & Hstep & H).
    cbn [fst snd] in Hstep.
    apply bind_inv in Hstep as (old & s0 & Hold & Hstep).
    cbn in Hold. injection Hold as <- <-.
    apply bind_inv in Hstep as (v & s1 & Hcall & Hset).
    destruct (call_allocates lib cs depth f
                (default VNone (dict_get (VStr k) (heap_get (heap st) l))) Hpf st Hcs)
      as [x Hx].
    rewrite Hcall in Hx. cbn [snd] in Hx.
    cbn in Hset. injection Hset as <-.
    assert (Hd1 : heap_get (heap s1) l = heap_get (heap st) l).
    { rewrite Hx. cbn [heap set_heap]. apply heap_get_app_l, Hl. }
    assert (Hl1 : (l < length (heap s1))%nat).
    { rewrite Hx. cbn [heap set_heap]. rewrite length_app. lia. }
    set (s2 := set_heap (<[l := dict_set (VStr k) v (heap_get (heap s1) l)]> (heap s1)) s1) in *.
    assert (Hs2 : s2 = set_heap (heap s2) st) by (unfold s2; rewrite Hx; reflexivity).
    assert (Hd2 : heap_get (heap s2) l = dict_set (VStr k) v (heap_get (heap st) l)).
    { unfold s2. cbn [heap set_heap]. rewrite heap_get_insert_same by exact Hl1.
      rewrite Hd1. reflexivity. }
    assert (Hl2 : (length (heap st) <= length (heap s2))%nat).
    { unfold s2. cbn [heap set_heap]. rewrite length_insert, Hx. cbn [heap set_heap].
      rewrite length_app. lia. }
    destruct (IH s2 st') as ((h' & Hst' & Hlen) & Hother & Hin).
    { rewrite Hs2. exact Hcs. }
    { exact Hpr. }
    { exact Hnd. }
    { lia. }
    { exact H. }
    split_all.
    + exists h'. rewrite Hst', Hs2. split; [reflexivity | lia].
    + intros k0 Hk0. rewrite Hother by (intros Hin0; apply Hk0; right; exact Hin0).
      rewrite Hd2, dict_get_set.
      destruct (String.eqb k k0) eqn:E; [|reflexivity].
      apply String.eqb_eq in E. exfalso. apply Hk0. left. exact E.
    + intros k0 f0 [[= <- <-]|Hin0].
      * exists (heap st), v, s1. rewrite set_heap_id. split; [exact Hcall|].
        rewrite Hother by (intros Hin0; apply Hk; apply list_elem_of_In; exact Hin0).
        rewrite Hd2, dict_get_set, String.eqb_refl. reflexivity.
      * destruct (Hin k0 f0 Hin0) as (h & v0 & sb & Hc0 & Hv0).
        exists h, v0, sb. split; [|exact Hv0].
        rewrite Hs2 in Hc0. cbn [set_heap heap] in Hc0.
        rewrite Hd2, dict_get_set in Hc0.
        destruct (String.eqb k k0) eqn:E; [|exact Hc0].
        apply String.eqb_eq in E. subst k0. exfalso. apply Hk.
        apply list_elem_of_In. apply (in_map fst) in Hin0. exact Hin0.
Qed.

(** [get_props] leaves the factory object with its class. *)
Lemma get_props_class ef c p st ps st' :
  caches_ok st -> efactories st !! ef = Some (c, p) ->
  get_props ef st = (Ok ps, st') ->
  exists p', efactories st' !! ef = Some (c, p').
Proof.
  intros Hok He H.
  assert (Hfresh : (forall x xs, p <> Some (x :: xs)) ->
                   exists p', efactories st' !! ef = Some (c, p')).
  { intros Hp.
    destruct (resolve_hints_ok _ (hints_supported c) st Hok)
      as (ps1 & st1 & Hps & _ & _ & _ & Hg1).
    assert (E : get_props ef st
                = (Ok ps1, set_efactories (<[ef := (c, Some ps1)]> (efactories st1)) st1)).
    { unfold get_props, bind at 1, gets. cbv beta. rewrite He.
      destruct p as [[|x xs]|]; try (exfalso; eapply Hp; reflexivity);
        unfold bind, modify, ret; unfold bind, ret in Hps; rewrite Hps; reflexivity. }
    rewrite E in H. injection H as _ <-. exists (Some ps1). cbn.
    apply list_lookup_insert_Some. left. split_all; try reflexivity.
    destruct Hg1 as [Hg1 _]. eapply lookup_lt_Some, Hg1, He. }
  destruct p as [[|x xs]|].
  - apply Hfresh. intros ? ? [=].
  - unfold get_props, bind, gets in H. cbv beta in H. rewrite He in H.
    injection H as _ <-. eauto.
  - apply Hfresh. intros ? ? [=].
Qed.

(** The constructor of a class that is no point class leaves the declared
    keys of a mapping as they are. *)
Lemma construct_record_keeps c l st self st' k v :
  is_point_class c = false -> caches_ok st ->
  In k (field_names c) -> dict_get (VStr k) (heap_get (heap st) l) = Some v ->
  construct c (VDict l) [] st = (Ok self, st') ->
  dict_get (VStr k) (heap_get (heap st') l) = Some v.
Proof.
  intros Hc Hok Hk Hv H.
  assert (Hl : (l < length (heap st))%nat).
  { unfold heap_get in Hv. destruct (heap st !! l) as [d|] eqn:E; [|discriminate Hv].
    apply lookup_lt_Some in E. exact E. }
  assert (Hd : data_ok (heap st) (VDict l)) by exact Hl.
  assert (Hs : store_of (heap st) (VDict l) = l).
  { unfold store_of. destruct (heap_get (heap st) l); [discriminate Hv | reflexivity]. }
  unfold construct in H. rewrite Hc in H.
  destruct (Entity_new_returns c (VDict l) [] st Hok Hd) as (self0 & s1 & Hnew & Hself & Hheap & _).
  cbv zeta in Hself, Hheap. rewrite Hs in Hself. subst self0.
  rewrite (bind_ok _ _ _ _ _ Hnew) in H.
  rewrite (bind_ok _ _ _ _ _ (Entity_init_returns _ _ _ _ _ _)) in H.
  injection H as _ <-. cbn [heap set_heap].
  pose proof (dict_get_constructed c (heap st) (VDict l) [] k Hd) as G.
  rewrite Hs in G, Hheap. rewrite Hheap.
  assert (Hl' : (l < length (heap st ++ [[]]))%nat) by (rewrite length_app; lia).
  rewrite heap_get_insert_same by (rewrite length_insert; exact Hl').
  rewrite heap_get_insert_same by exact Hl'.
  rewrite dict_update_nil in G.
  rewrite G by (apply existsb_exists; exists k; split; [exact Hk | apply String.eqb_refl]).
  unfold supplied, overridden. cbn [fold_left mapping_of]. rewrite Hv. reflexivity.
Qed.

(** * The claims *)

(** ** C2: the factory of an optional shape *)

(** A closure whose cell holds the closure itself never returns on an input
    other than [None] and ['None']: each call makes the same call again. *)
Lemma optional_cell_loops lib c st :
  cells st !! c = Some (Some (FOptional c)) ->
  forall depth val, in_none val = false ->
  call lib depth (FOptional c) val st = (Raise RecursionError, st).
Proof.
  intros Hc depth. induction depth as [|d IH]; intros val Hv.
  - reflexivity.
  - cbn [call]. rewrite Hv.
    unfold bind, read_cell, gets. rewrite Hc. cbn. apply IH. exact Hv.
Qed.

Lemma optional_none lib c st depth val :
  in_none val = true -> call lib (S depth) (FOptional c) val st = (Ok VNone, st).
Proof. intros Hv. cbn [call]. rewrite Hv. reflexivity. Qed.

(** C2 (as the code has it). For every supported inner shape [t],
    [get_factory(Optional[t])] returns a closure that maps [None] and
    ['None'] to [None] and that, on every other input, calls itself until
    [RecursionError]: the inner conversion function is never reached. *)
Theorem optional_factory_calls_itself lib t st :
  caches_ok st -> supported t = true -> ptype_eqb t TNoneType = false ->
  returns (get_factory (Optional t)) st (never_delegates lib).
Proof.
  intros Hok Hs Hn.
  assert (Hso : supported (Optional t) = true).
  { cbn. rewrite Hs, Hn. reflexivity. }
  destruct (get_factory_ok (Optional t) Hso st Hok) as (f & st' & Hf & Hok' & _ & _ & Hc).
  exists f, st'. split; [exact Hf|].
  destruct (ok_optional _ Hok' t f Hc Hn) as (c & -> & Hcell).
  intros depth val. destruct (in_none val) eqn:Hv.
  - apply optional_none, Hv.
  - apply optional_cell_loops; assumption.
Qed.

(** [Optional[int]], resolved in a fresh interpreter. *)
Lemma optional_factory_calls_itself_witness :
  returns (get_factory (Optional TInt)) (initial_state example_now)
          (never_delegates example_lib).
Proof.
  apply (optional_factory_calls_itself example_lib TInt (initial_state example_now)).
  - apply initial_caches_ok.
  - reflexivity.
  - reflexivity.
Defined.

(** The call [get_factory(Optional[int])(5)], at any recursion limit. *)
Example optional_int_of_5 lib now depth :
  match get_factory (Optional TInt) (initial_state now) with
  | (Ok f, st) => fst (call lib depth f (VInt 5) st) = Raise RecursionError
  | (Raise _, _) => False
  end.
Proof.
  cbn. rewrite optional_cell_loops; reflexivity.
Qed.

(** ** C7: the defaults of a point *)

(** C7. Constructing a point variant ([Point], [Plant] or [ToolSlot]) from a
    mapping, keyword fields or both returns a record whose [x], [y] and [z]
    hold what was supplied, or 0 when that is absent or [None]; whose
    [radius] holds what was supplied, or 0.0; and whose [meta] holds what
    was supplied, or a new empty dict.  None of the five is [None]. *)
Theorem point_fields_never_null c data kwargs st :
  is_point_class c = true -> caches_ok st -> data_ok (heap st) data ->
  hashable (discriminator_of (heap st) data kwargs) = true ->
  returns (construct c data kwargs) st (point_fields_filled (heap st) data kwargs).
Proof.
  intros Hc Hok Hd Hh.
  eapply returns_weaken; [apply construct_point_returns; assumption|].
  cbn beta zeta. intros self st' (-> & Hheap & _). unfold point_fields_filled.
  set (h0 := heap st ++ [[]]) in *. set (l := store_of (heap st) data) in *.
  set (c' := constructed_class c (heap st) data kwargs) in *.
  set (d := dict_update kwargs (with_defaults (field_names c') (heap_get h0 l))) in *.
  set (h1 := <[l := d]> h0) in *.
  assert (Hc' : is_point_class c' = true) by apply constructed_class_is_point, Hc.
  assert (Hl0 : (l < length h0)%nat) by apply store_of_lt, Hd.
  assert (Hl1 : (l < length h1)%nat) by (unfold h1; rewrite length_insert; exact Hl0).
  assert (Hget : forall k, In k point_keys ->
                 dict_get (VStr k) d = Some (default VNone (supplied (heap st) data kwargs k))).
  { intros k Hin. apply dict_get_constructed; [exact Hd|].
    apply point_keys_declared; assumption. }
  set (pd := point_defaults c' h1 (length h0) d) in *.
  assert (Hpd : heap_get (heap st') l = pd).
  { rewrite Hheap. apply heap_get_insert_same.
    destruct (meta_missing d); rewrite ?length_app; lia. }
  assert (Hx : forall k, In k ["x"; "y"; "z"] ->
               dict_get (VStr k) pd = Some (or_default (VInt 0) (supplied (heap st) data kwargs k))).
  { intros k Hin. unfold pd, point_defaults.
    cbn in Hin. decompose [or] Hin; subst; try contradiction;
      rewrite !dict_get_default_field, ?dict_get_default_pointer_type; cbn [String.eqb Ascii.eqb Bool.eqb];
      rewrite Hget by (cbn; tauto); rewrite or_default_default; reflexivity. }
  assert (Hr : dict_get (VStr "radius") pd
               = Some (or_default (VFloat 0%float) (supplied (heap st) data kwargs "radius"))).
  { unfold pd, point_defaults.
    rewrite !dict_get_default_field, ?dict_get_default_pointer_type. cbn [String.eqb Ascii.eqb Bool.eqb].
    rewrite Hget by (cbn; tauto). rewrite or_default_default. reflexivity. }
  assert (Hm : dict_get (VStr "meta") pd
               = Some (or_default (VDict (length h0)) (supplied (heap st) data kwargs "meta"))).
  { unfold pd, point_defaults.
    rewrite !dict_get_default_field, ?dict_get_default_pointer_type. cbn [String.eqb Ascii.eqb Bool.eqb].
    rewrite Hget by (cbn; tauto). rewrite or_default_default. reflexivity. }
  assert (Hmm : meta_missing d = absent_or_none (supplied (heap st) data kwargs "meta")).
  { unfold meta_missing. rewrite Hget by (cbn; tauto).
    destruct (supplied (heap st) data kwargs "meta"); reflexivity. }
  exists c', (next_id st), l. split; [reflexivity|]. split; [exact Hc'|].
  cbn zeta. rewrite Hpd. split_all.
  - exact Hx.
  - exact Hr.
  - rewrite Hm. rewrite Hmm in Hheap.
    assert (Hnew : absent_or_none (supplied (heap st) data kwargs "meta") = true ->
                   heap_get (heap st') (length h0) = []).
    { intros Ha. rewrite Hheap, Ha. rewrite heap_get_insert_other by lia.
      replace (length h0) with (length h1) by apply length_insert.
      apply heap_get_snoc. }
    destruct (supplied (heap st) data kwargs "meta") as [v|]; cbn in *.
    + destruct (is_none v); [|reflexivity].
      exists (length h0). split; [reflexivity | apply Hnew; reflexivity].
    + exists (length h0). split; [reflexivity | apply Hnew; reflexivity].
  - intros k Hin. cbn in Hin. decompose [or] Hin; subst; try contradiction.
    + eexists; split; [apply Hx; cbn; tauto | apply is_none_or_default; reflexivity].
    + eexists; split; [apply Hx; cbn; tauto | apply is_none_or_default; reflexivity].
    + eexists; split; [apply Hx; cbn; tauto | apply is_none_or_default; reflexivity].
    + eexists; split; [apply Hr | apply is_none_or_default; reflexivity].
    + eexists; split; [apply Hm | apply is_none_or_default; reflexivity].
Qed.

(** A plant made from a mapping that has no coordinates, with [radius]
    given as [None]. *)
Lemma point_fields_never_null_witness :
  let h := [[(VStr "pointer_type", VStr "Plant"); (VStr "name", VStr "Basil")]] in
  returns (construct Point (VDict 0) [("radius", VNone)]) (example_state h)
          (point_fields_filled h (VDict 0) [("radius", VNone)]).
Proof.
  apply (point_fields_never_null Point (VDict 0) [("radius", VNone)]
           (example_state [[(VStr "pointer_type", VStr "Plant"); (VStr "name", VStr "Basil")]])).
  - reflexivity.
  - apply example_caches_ok.
  - simpl. lia.
  - reflexivity.
Defined.

(** ** C6: the class of a point *)



(** ** C3: relative instants in a clause *)

(** C3 (as the code has it). The clause value ["now"] is accepted by the
    date pattern and [parse_offset] answers the zero offset for it, but
    [parse_datetime] takes a zero offset for no offset and hands the text to
    [strptime]: the compiler raises [ValueError].  So does ["in 0 days"];
    and ["in 2 years"] raises [TypeError], [timedelta] having no keyword
    [years]. *)
Theorem relative_instants_raise lib depth st ps acc key now :
  Re.fullmatch rxdate "now" = Some [(2%nat, "now")] /\
  parse_offset (heap st) (VStr "now") false = Ok (Some 0) /\
  parse_datetime lib st (VStr "now") None = Raise ValueError /\
  compile_clause lib st ps acc (key, VStr "now") = Raise ValueError /\
  compile_clause lib st ps acc (key, VStr "in 0 days") = Raise ValueError /\
  compile_clause lib st ps acc (key, VStr "in 2 years") = Raise TypeError /\
  fst (PointQuery_init lib depth Point (QClauses [("updated_at", VStr "now")])
         (initial_state now))
  = Raise ValueError.
Proof. split_all; vm_compute; reflexivity. Qed.

(** The same clause with an offset that is not zero compiles. *)
Example in_3_days_compiles lib :
  fst (PointQuery_init lib 10 Point (QClauses [("updated_at", VStr "in 3 days")])
         (initial_state example_now))
  = Ok (mk_PointQuery []
          [("pointer_type", FValue (VStr "GenericPointer"));
           ("updated_at", FValue (VStr "2024-06-04T12:00:00.000000Z"))]
          None).
Proof. vm_compute. reflexivity. Qed.

(** ** C8: errors of [deserialize] *)



(** [deserialize(datetime, {(1, 2): 3})]: the conversion raises
    [AttributeError], but [json.dumps] cannot write the key of the data, so
    that the message is never made: nothing is logged, and the [TypeError]
    of [json.dumps] is what the caller gets. *)
Example unwritable_data_is_not_logged :
  let st := example_state [[(VTuple [VInt 1; VInt 2], VInt 3)]] in
  fst ((let* f := get_factory TDatetime in call example_lib 10 f (VDict 0)) st)
  = Raise AttributeError /\
  fst (deserialize example_lib 10 TDatetime (VDict 0) st) = Raise TypeError /\
  log (snd (deserialize example_lib 10 TDatetime (VDict 0) st)) = [].
Proof. intros st. split_all; vm_compute; reflexivity. Qed.


(** ** C1: the executor *)

(** Whenever [execute] returns, it returns one record for each record
    found: the outcome of the predicates changes nothing. *)
Lemma execute_returns_all lib depth search q st res st' :
  execute lib depth search q st = (Ok res, st') ->
  exists found st1, search (pq_filter q) st = (Ok found, st1) /\ length res = length found.
Proof.
  unfold execute. intros H. apply bind_inv in H as (found & st1 & Hs & H).
  exists found, st1. split; [exact Hs|].
  enough (G : forall (m : M (list value)) st1 res st',
            fold_left (fun m data =>
               let* result := m in
               let* factory := match pq_factory q with
                               | Some f => ret f
                               | None => raise AttributeError
                               end in
               let* point := call lib depth factory data in
               run* for_each (fun predicate =>
                        let* passed := fun st => (apply_predicate lib depth st predicate point, st) in
                        if negb passed then ret tt else ret tt) (pq_predicates q) in
               ret (result ++ [point])) found m st1 = (Ok res, st') ->
            exists r0 st0, m st1 = (Ok r0, st0) /\ length res = (length r0 + length found)%nat).
  { destruct (G _ _ _ _ H) as (r0 & st0 & Hr & Hlen). injection Hr as <- _. exact Hlen. }
  clear. induction found as [|data r IH]; intros m st1 res st' H.
  - cbn in H. exists res, st'. split; [exact H | cbn; lia].
  - cbn [fold_left] in H. apply IH in H as (r1 & st2 & H & Hlen).
    apply bind_inv in H as (r0 & st0 & Hm & H).
    apply bind_inv in H as (f & st3 & _ & H).
    apply bind_inv in H as (point & st4 & _ & H).
    apply bind_inv in H as ([] & st5 & _ & H).
    injection H as <- _. exists r0, st0. split; [exact Hm|].
    rewrite length_app in Hlen. cbn in *. lia.
Qed.

(** The getters of the predicates subscript the record, [v[key]], and an
    [Entity] is not subscriptable: on a typed record every predicate raises
    [TypeError]. *)
Lemma predicates_raise_on_entities lib depth st p c id l :
  apply_predicate lib depth st p (VObj c id l) = Raise TypeError.
Proof. destruct p as [[] | [] | []]; reflexivity. Qed.

(** C1 (as the code has it). [__init__] never sets [self.factory], so
    [execute] on a compiled plan raises [AttributeError] as soon as the
    search finds a record.  With the attribute set to the identity, a
    record on which a local predicate is false is returned all the same;
    with the attribute set to the factory of [Point], the predicate raises
    [TypeError] on the typed record, and so does [execute]. *)
Theorem execute_does_not_filter :
  let st := example_state [small_record] in
  let plan := mk_PointQuery [PNum (GetField "radius") op_ge 5%float]
                            [("pointer_type", FValue (VStr "GenericPointer"))] None in
  let plan' := mk_PointQuery (pq_predicates plan) (pq_filter plan) (Some FAny) in
  radius_plan = Ok plan /\
  fst (execute example_lib 10 finds_small_record plan st) = Raise AttributeError /\
  apply_predicate example_lib 10 st (PNum (GetField "radius") op_ge 5%float) (VDict 0) = Ok false /\
  fst (execute example_lib 10 finds_small_record plan' st) = Ok [VDict 0] /\
  fst ((let* f := get_factory (TClass Point) in call example_lib 10 f (VDict 0))
         (example_state [full_record; []])) = Ok (VObj Point 0 0) /\
  fst ((let* f := get_factory (TClass Point) in
        execute example_lib 10 finds_small_record
                (mk_PointQuery (pq_predicates plan) (pq_filter plan) (Some f)))
         (example_state [full_record; []])) = Raise TypeError.
Proof. intros st plan plan'. split_all; vm_compute; reflexivity. Qed.

(** ** C5: numeric thresholds *)

(** C5 (as the code has it). A clause whose text is a numeric threshold,
    [at least n] or [at most n], compiles to one more local predicate and
    leaves the server-side filter alone.  The predicate subscripts the
    record, [v[key]] or [v['meta'][key]].  On a mapping it reads the
    field, coerces it with [float] and compares it with the number of the
    clause: greater-or-equal for [at least], strictly less when the clause
    is negated; less-or-equal for [at most], strictly greater when
    negated; so the predicate of [("radius", "at least 5")] is
    [5.0 <= radius].  On a typed record, which is what [execute] hands to
    it, the predicate raises [TypeError]: no record is kept or excluded. *)
Theorem number_threshold_predicate lib st ps acc key s cs :
  Re.fullmatch rxnum (Text.strip s) = Some cs ->
  let negate := Text.startswith "!" key in
  let field := if negate then drop_first key else key in
  let ismeta := ismeta_of ps field in
  exists p number,
    (group_text 1 cs = "least" \/ group_text 1 cs = "most") /\
    Flt.of_text (group_text 2 cs) = Some number /\
    compile_clause lib st ps acc (key, VStr s) = Ok (fst acc ++ [p], snd acc) /\
    (forall depth st' v x,
        record_field (heap st') ismeta field v = Some x ->
        apply_predicate lib depth st' p v
        = res_bind (py_float x)
                   (fun f => Ok (threshold_holds (group_text 1 cs) negate f number))) /\
    (forall depth st' c id l,
        apply_predicate lib depth st' p (VObj c id l) = Raise TypeError) /\
    (key = "radius" -> s = "at least 5" ->
     forall depth st' v r,
       record_field (heap st') ismeta "radius" v = Some (VFloat r) ->
       apply_predicate lib depth st' p v = Ok (5 <=? r)%float).
Proof.
  intros H negate field ismeta.
  destruct (rxnum_shape _ _ H) as (sp & w & sp' & t & Ha & Hw & Ht & ->).
  destruct (number_text_parses t Ht) as [number Hn].
  set (get := if ismeta then GetMeta field else GetField field).
  set (op := if String.eqb w "least"
             then (if negate then op_lt else op_ge)
             else (if negate then op_gt else op_le)).
  exists (PNum get op number), number.
  change (group_text 1 [(2%nat, t); (1%nat, w)]) with w.
  change (group_text 2 [(2%nat, t); (1%nat, w)]) with t.
  assert (Hfield : forall depth st' v x,
            record_field (heap st') ismeta field v = Some x ->
            apply_predicate lib depth st' (PNum get op number) v
            = res_bind (py_float x) (fun f => Ok (threshold_holds w negate f number))).
  { intros depth st' v x Hx. unfold apply_predicate, get.
    rewrite (run_getter_field _ _ _ _ _ Hx). cbn [res_bind].
    destruct (py_float x) as [f|e]; [|reflexivity]. cbn [res_bind]. f_equal.
    unfold threshold_holds, op.
    destruct Hw as [->| ->]; destruct negate; reflexivity. }
  split_all; [exact Hw | exact Hn | | exact Hfield | |].
  - unfold compile_clause. fold negate. fold field. cbv zeta. fold ismeta. fold get.
    rewrite Ha, rxdate_rejects. unfold number_clause. rewrite H.
    change (group_text 1 [(2%nat, t); (1%nat, w)]) with w.
    change (group_text 2 [(2%nat, t); (1%nat, w)]) with t.
    unfold py_float. rewrite Hn. reflexivity.
  - intros depth st' c id l. unfold apply_predicate. rewrite run_getter_entity. reflexivity.
  - intros Hkey Hs depth st' v r Hx. subst key s.
    vm_compute in H. injection H as <- <-.
    vm_compute in Hn. injection Hn as <-.
    rewrite (Hfield depth st' v (VFloat r) Hx). reflexivity.
Qed.

Lemma number_threshold_predicate_witness :
  Re.fullmatch rxnum (Text.strip "at least 5") = Some [(2%nat, "5"); (1%nat, "least")] /\
  exists p number,
    Flt.of_text "5" = Some number /\
    compile_clause example_lib (initial_state example_now) [("radius", FFloat)] ([], [])
                   ("radius", VStr "at least 5") = Ok ([p], []) /\
    (forall depth st' v r,
        record_field (heap st') false "radius" v = Some (VFloat r) ->
        apply_predicate example_lib depth st' p v = Ok (5 <=? r)%float) /\
    (forall depth st' c id l,
        apply_predicate example_lib depth st' p (VObj c id l) = Raise TypeError) /\
    (5 <=? 5)%float = true /\ (5 <=? 7.5)%float = true /\ (5 <=? 4.999)%float = false.
Proof.
  split; [reflexivity|].
  destruct (number_threshold_predicate example_lib (initial_state example_now)
              [("radius", FFloat)] ([], []) "radius" "at least 5"
              [(2%nat, "5"); (1%nat, "least")] eq_refl)
    as (p & number & _ & Hn & Hc & _ & Hobj & Hr).
  exists p, number. split_all.
  - exact Hn.
  - exact Hc.
  - exact (Hr eq_refl eq_refl).
  - exact Hobj.
  - reflexivity.
  - reflexivity.
  - reflexivity.
Defined.

(** The clause [("radius", "at least 5")] on the point schema: the records
    of radius 5.0 and 7.5 are kept, the record of radius 4.999 is not; the
    negated clause does the opposite. *)
Example radius_at_least_5 :
  let st := example_state [[(VStr "radius", VFloat 5%float)];
                           [(VStr "radius", VFloat 7.5%float)];
                           [(VStr "radius", VFloat 4.999%float)];
                           [(VStr "radius", VStr " 5e0 ")]] in
  let p := PNum (GetField "radius") op_ge 5%float in
  let n := PNum (GetField "radius") op_lt 5%float in
  option_map pq_predicates
    (match radius_plan with Ok q => Some q | Raise _ => None end) = Some [p] /\
  fst ((let* ps := class_props Point in
              fun st => (compile_clause example_lib st ps ([], []) ("!radius", VStr "at least 5"), st))
             (initial_state example_now)) = Ok ([n], []) /\
  map (apply_predicate example_lib 10 st p) [VDict 0; VDict 1; VDict 2; VDict 3] =
    [Ok true; Ok true; Ok false; Ok true] /\
  map (apply_predicate example_lib 10 st n) [VDict 0; VDict 1; VDict 2; VDict 3] =
    [Ok false; Ok false; Ok true; Ok false].
Proof. intros st p n. split_all; vm_compute; reflexivity. Qed.

(** ** C4: instants *)


(** The same clause without the negation: the filter holds the instant as
    [dump_datetime] writes it, and there is no local predicate. *)
Example exact_instant_goes_to_the_filter :
  fst (PointQuery_init example_lib 10 Point
         (QClauses [("updated_at", VStr "2024-06-01T00:00:00.000Z")])
         (initial_state example_now))
  = Ok (mk_PointQuery []
          [("pointer_type", FValue (VStr "GenericPointer"));
           ("updated_at", FValue (VStr "2024-06-01T00:00:00.000000Z"))]
          None).
Proof. vm_compute. reflexivity. Qed.



(** A relative instant of long ago, where the year has three digits: the
    filter holds the text as [strftime] writes it on Linux. *)
Example long_ago_goes_to_the_filter :
  fst (PointQuery_init example_lib 10 Point
         (QClauses [("updated_at", VStr "400000 days ago")])
         (initial_state example_now))
  = Ok (mk_PointQuery []
          [("pointer_type", FValue (VStr "GenericPointer"));
           ("updated_at", FValue (VStr "929-04-03T12:00:00.000000Z"))]
          None).
Proof. vm_compute. reflexivity. Qed.

(** ** C9: the keys [meta] and [id] *)



(** A clause under [id] in the compiled plan, and an update under [id] on
    a record: the filter holds the value under ['meta'], and the update
    changes the metadata of the record, not its field [id]. *)
Example id_goes_to_metadata :
  fst (PointQuery_init example_lib 10 Point (QClauses [("id", VInt 7)]) (initial_state example_now))
  = Ok (mk_PointQuery []
          [("pointer_type", FValue (VStr "GenericPointer")); ("meta", FSub [("id", VInt 7)])]
          None) /\
  heap (snd (Point_apply 10 (VObj Point 0 0) [("id", VInt 7)]
               (example_state [[(VStr "id", VInt 1); (VStr "meta", VDict 1)]; []])))
  = [[(VStr "id", VInt 1); (VStr "meta", VDict 1)]; [(VStr "id", VInt 7)]].
Proof. split; vm_compute; reflexivity. Qed.

(** ** C10: [make] and the mapping of the caller *)

(** What the conversions make of a missing key, that is of [None]: no
    value for [Any], dates and instants, [False] for [bool], the text
    [None] for [str], and an exception for [int], [float], lists and
    dicts. *)
Example conversions_of_a_missing_key :
  map (fun f => fst (call example_lib 10 f VNone (example_state [])))
      [FAny; FParseDate; FParseDatetime; FBool; FStr; FInt; FFloat; FList FAny; FDict FStr FAny]
  = [Ok VNone; Ok VNone; Ok VNone; Ok (VBool false); Ok (VStr "None");
     Raise TypeError; Raise TypeError; Raise TypeError; Raise AttributeError].
Proof. vm_compute. reflexivity. Qed.

(** [make] for [Tool] on the mapping [{'id': 1}]: the missing dates are
    inserted with [None], but the missing texts [name] and [status] are
    inserted with the text [None]. *)
Lemma missing_text_is_not_null :
  exists st',
    make example_lib 10 0 (VDict 0) tool_state = (Ok (VObj Tool 0 0), st') /\
    heap_get (heap st') 0 =
      [(VStr "id", VInt 1); (VStr "created_at", VNone); (VStr "updated_at", VNone);
       (VStr "name", VStr "None"); (VStr "status", VStr "None")] /\
    dict_get (VStr "name") (heap_get (heap st') 0) <> Some VNone.
Proof. eexists. split_all; [vm_compute; reflexivity | reflexivity | discriminate]. Qed.

(** [make] for [Entity], which declares no field, on an empty mapping: the
    record does not take the mapping, it has a dict of its own. *)
Example empty_mapping_is_not_shared :
  fst ((let* f := get_factory (TClass Entity) in call example_lib 10 f (VDict 0))
         (example_state [[]])) = Ok (VObj Entity 0 1).
Proof. vm_compute. reflexivity. Qed.

(** C10 (amended). When [make] returns a record of a class that declares
    a field, the record keeps its attributes in the very mapping the caller
    passed: every declared field is a key of the mapping, no key of the
    mapping is lost, and what is set on the record afterwards is seen
    through the mapping.  When the class is no point class and its
    conversions build no record, each declared key holds the value its
    conversion returned for what the mapping held under the key, [None] if
    it held nothing; so a key that was missing, or held [None], holds
    [None] for a field of [Any], of a date, of an instant or of an optional
    type, the text [None] for [str] and [False] for [bool], and [make]
    does not return when such a key is an [int], a [float], a list or a
    dict. *)
Theorem make_shares_the_mapping lib depth ef c p l st self st' :
  caches_ok st ->
  efactories st !! ef = Some (c, p) ->
  field_names c <> [] ->
  (l < length (heap st))%nat ->
  make lib depth ef (VDict l) st = (Ok self, st') ->
  shares_the_mapping c l st self st' /\ written_back lib depth ef c l st st'.
Proof.
  intros Hok He Hfields Hl H. unfold make in H.
  destruct depth as [|depth]; [discriminate H|]. cbn [call] in H.
  apply bind_inv in H as (ps & s1 & Hps & H).
  destruct (get_props_ok ef c p st Hok He) as (ps' & s1' & Hps' & Hnames & Hok1 & Hw).
  rewrite Hps in Hps'. injection Hps' as <- <-. destruct Hw as (Hh1 & _).
  destruct (get_props_class ef c p st ps s1 Hok He Hps) as [p1 He1].
  apply bind_inv in H as ([] & s2 & Hloop & H).
  pose proof Hloop as Hloop'.
  apply make_loop in Hloop as [Hext Hkeys]; [|rewrite Hh1; exact Hl].
  apply bind_inv in H as (o & s3 & Ho & H). cbn in Ho. injection Ho as <- <-.
  assert (Hne : is_nil (heap_get (heap s2) l) = false).
  { unfold field_names in Hfields. rewrite <- Hnames in Hfields.
    destruct ps as [|[k f] r]; [contradiction|].
    specialize (Hkeys k (or_introl eq_refl)). unfold has_key in Hkeys.
    destruct (heap_get (heap s2) l); [contradiction|reflexivity]. }
  split.
  - destruct (efactories s2 !! ef) as [[c2 p2]|]; [|discriminate H].
    destruct (construct_store _ _ _ _ _ Hne H) as (c' & id & ->).
    pose proof (construct_monotone c2 (VDict l) [] s2) as Hext'. rewrite H in Hext'.
    cbn [snd] in Hext'.
    exists c', id. split_all.
    + reflexivity.
    + intros k Hk. apply Hext', Hkeys. rewrite Hnames. exact Hk.
    + intros k Hk. apply Hext', Hext. rewrite Hh1. exact Hk.
    + intros name v. rewrite setattr_returns. cbn [snd heap set_heap].
      rewrite heap_get_insert_same; [apply dict_get_set_same|].
      destruct Hext as [L1 _]. destruct Hext' as [L2 _]. rewrite Hh1 in L1. lia.
  - exists ps, s1. split; [exact Hps|]. intros Hnp Hplain k f Hin. cbv zeta.
    assert (Hnd : NoDup (map fst ps)) by (rewrite Hnames; apply hints_nodup).
    destruct (make_loop_plain lib depth l (cells s1) ps s1 s2 eq_refl Hplain Hnd)
      as ((h' & Hs2 & Hlen) & _ & Hvals); [rewrite Hh1; exact Hl | exact Hloop'|].
    destruct (Hvals k f Hin) as (h & v & sb & Hcall & Hv).
    rewrite Hh1 in Hcall.
    exists h, v, sb. split_all.
    + exact Hcall.
    + assert (He2 : efactories s2 !! ef = Some (c, p1)) by (rewrite Hs2; exact He1).
      rewrite He2 in H.
      apply (construct_record_keeps c l s2 self st' k v Hnp).
      * rewrite Hs2. apply caches_ok_set_heap, Hok1.
      * unfold field_names. rewrite <- Hnames. apply (in_map fst) in Hin. exact Hin.
      * exact Hv.
      * exact H.
    + intros Hgiven. rewrite Hgiven in Hcall.
      apply (call_none lib (cells s1) depth f (set_heap h s1) v sb); [|exact Hcall].
      rewrite forallb_forall in Hplain. exact (Hplain (k, f) Hin).
Qed.

Lemma make_shares_the_mapping_witness :
  caches_ok tool_state /\
  efactories tool_state !! 0%nat = Some (Tool, None) /\
  field_names Tool <> [] /\
  (0 < length (heap tool_state))%nat /\
  make example_lib 10 0 (VDict 0) tool_state
  = (Ok (VObj Tool 0 0), snd (make example_lib 10 0 (VDict 0) tool_state)) /\
  shares_the_mapping Tool 0 tool_state (VObj Tool 0 0)
                     (snd (make example_lib 10 0 (VDict 0) tool_state)) /\
  written_back example_lib 10 0 Tool 0 tool_state
               (snd (make example_lib 10 0 (VDict 0) tool_state)).
Proof.
  assert (Hok : caches_ok tool_state).
  { destruct (get_factory_ok (TClass Tool) eq_refl _
                (example_caches_ok [[(VStr "id", VInt 1)]])) as (f & st' & Hf & Hok & _).
    unfold tool_state. rewrite Hf. exact Hok. }
  split_all.
  - exact Hok.
  - reflexivity.
  - discriminate.
  - vm_compute. lia.
  - vm_compute. reflexivity.
  - apply (make_shares_the_mapping example_lib 10 0 Tool None 0 tool_state).
    + exact Hok.
    + reflexivity.
    + discriminate.
    + vm_compute. lia.
    + vm_compute. reflexivity.
  - apply (make_shares_the_mapping example_lib 10 0 Tool None 0 tool_state
             (VObj Tool 0 0)).
    + exact Hok.
    + reflexivity.
    + discriminate.
    + vm_compute. lia.
    + vm_compute. reflexivity.
Defined.

(** The conversions of [Tool] build no record, and [make] for [Tool] on
    [{'id': '1'}] leaves the number 1 under [id]. *)
Example tool_conversions_are_plain :
  let st0 := snd (get_props 0 tool_state) in
  fst (get_props 0 tool_state)
  = Ok [("id", FInt); ("created_at", FParseDatetime); ("updated_at", FParseDatetime);
        ("name", FStr); ("status", FStr)] /\
  forallb (fun kf => plain (cells st0) (snd kf))
          [("id", FInt); ("created_at", FParseDatetime); ("updated_at", FParseDatetime);
           ("name", FStr); ("status", FStr)] = true /\
  is_point_class Tool = false.
Proof. intros st0. split_all; vm_compute; reflexivity. Qed.

(** So are the conversions of [Device], optional ones among them: [make]
    for [Device] returns on a mapping whose optional fields are missing. *)
Example device_conversions_are_plain :
  let st := snd (get_factory (TClass Device)
                   (example_state [[(VStr "id", VInt 1); (VStr "name", VStr "bot")]])) in
  let r := get_props 0 st in
  forallb (fun kf => plain (cells (snd r)) (snd kf))
          (match fst r with Ok ps => ps | Raise _ => [] end) = true /\
  option_map (map fst) (match fst r with Ok ps => Some ps | Raise _ => None end)
  = Some (field_names Device) /\
  fst (make example_lib 10 0 (VDict 0) st) = Ok (VObj Device 0 0) /\
  heap_get (heap (snd (make example_lib 10 0 (VDict 0) st))) 0
  = [(VStr "id", VInt 1); (VStr "name", VStr "bot"); (VStr "created_at", VNone);
     (VStr "updated_at", VNone); (VStr "fbos_version", VNone); (VStr "last_saw_api", VNone);
     (VStr "last_saw_mq", VNone); (VStr "mounted_tool_id", VNone);
     (VStr "serial_number", VStr "None"); (VStr "throttled_at", VNone);
     (VStr "throttled_until", VNone)].
Proof. intros st r. split_all; vm_compute; reflexivity. Qed.

(** ** Sample runs of the model *)

Example strptime_sample :
  Cal.strptime_datetime "2024-06-01T00:00:00.000Z" = Ok (mk_datetime 2024 6 1 0 0 0 0).
Proof. vm_compute. reflexivity. Qed.

Example format_sample :
  Cal.format_datetime (mk_datetime 2024 6 1 0 0 0 0) = "2024-06-01T00:00:00.000000Z".
Proof. vm_compute. reflexivity. Qed.

Example of_us_sample :
  Cal.of_us (Cal.to_us (mk_datetime 2024 2 29 23 59 59 999999)) = mk_datetime 2024 2 29 23 59 59 999999.
Proof. vm_compute. reflexivity. Qed.

Example float_of_text_5 : Flt.of_text "5" = Some 5%float.
Proof. vm_compute. reflexivity. Qed.

Example float_of_text_frac : Flt.of_text " -4.999e0 " = Some (-0x1.3fef9db22d0e5p+2)%float.
Proof. vm_compute. reflexivity. Qed.

Example float_of_text_tenth : Flt.of_text "1_0e-2" = Some 0x1.999999999999ap-4%float.
Proof. vm_compute. reflexivity. Qed.

Example div_int_sample : Flt.div_int 10000000001 1000 = Ok 0x1.312d000083127p+23%float.
Proof. vm_compute. reflexivity. Qed.

Example float_of_text_bad : Flt.of_text "5 apples" = None.
Proof. vm_compute. reflexivity. Qed.

Example point_hints :
  map fst (get_type_hints Plant) =
  ["x"; "y"; "z"; "id"; "created_at"; "updated_at"; "device_id"; "pointer_type"; "name";
   "meta"; "radius"; "discarded_at"; "openfarm_slug"; "plant_stage"; "planted_at"].
Proof. vm_compute. reflexivity. Qed.

(** * Further properties of the code *)

(** ** [get_factory]: the cache *)

(** X1. [get_factory] resolves a supported shape once: a second call returns the
    same factory and changes nothing; resolving leaves the heap, the
    counter of objects, the log and the clock alone. *)
Theorem get_factory_memoised t st :
  caches_ok st -> supported t = true ->
  returns (get_factory t) st (fun f st' =>
    same_world st st' /\ get_factory t st' = (Ok f, st')).
Proof.
  intros Hok Hs.
  destruct (get_factory_ok t Hs st Hok) as (f & st' & Hf & _ & Hw & _ & Hc).
  exists f, st'. split; [exact Hf|]. split; [exact Hw|].
  apply get_factory_cached, Hc.
Qed.

Lemma get_factory_memoised_witness :
  returns (get_factory (TList (Optional (TClass Plant)))) (initial_state example_now)
    (fun f st' =>
       same_world (initial_state example_now) st' /\
       get_factory (TList (Optional (TClass Plant))) st' = (Ok f, st')).
Proof.
  apply (get_factory_memoised (TList (Optional (TClass Plant))) (initial_state example_now)).
  - apply initial_caches_ok.
  - reflexivity.
Defined.

(** ** [PointQuery.__init__]: the shape of a plan *)

Lemma plain_clause_step negate ismeta get key val preds flt preds' flt' :
  plain_clause negate ismeta get key val (preds, flt) = Ok (preds', flt') ->
  (exists p, preds' = preds ++ [p] /\ flt' = flt) \/
  (preds' = preds /\ negate = false /\
   (ismeta = false /\ flt' = filter_set key val flt \/
    ismeta = true /\ filter_set_meta key val flt = Ok flt')).
Proof.
  unfold plain_clause. destruct negate.
  - intros H. injection H as <- <-. left. eauto.
  - destruct ismeta.
    + destruct (filter_set_meta key val flt) as [f|e] eqn:E; cbn; intros H; [|discriminate H].
      injection H as <- <-. right. auto.
    + intros H. injection H as <- <-. right. auto.
Qed.

Lemma number_clause_step negate ismeta get key val preds flt preds' flt' :
  number_clause negate ismeta get key val (preds, flt) = Ok (preds', flt') ->
  (exists p, preds' = preds ++ [p] /\ flt' = flt) \/
  (preds' = preds /\ negate = false /\
   (ismeta = false /\ flt' = filter_set key val flt \/
    ismeta = true /\ filter_set_meta key val flt = Ok flt')).
Proof.
  unfold number_clause. destruct val; try discriminate.
  destruct (Re.fullmatch rxnum (Text.strip s)) as [cs|]; [|apply plain_clause_step].
  destruct (py_float (VStr (group_text 2 cs))) as [n|e]; cbn; intros H; [|discriminate H].
  injection H as <- <-. left. eauto.
Qed.

(** The key a clause is about, and where it is routed. *)
Lemma compile_clause_step lib st ps preds flt key val preds' flt' :
  compile_clause lib st ps (preds, flt) (key, val) = Ok (preds', flt') ->
  let negate := Text.startswith "!" key in
  let field := if negate then drop_first key else key in
  (exists p, preds' = preds ++ [p] /\ flt' = flt) \/
  (preds' = preds /\ negate = false /\
   exists v, ismeta_of ps field = false /\ flt' = filter_set field v flt \/
             ismeta_of ps field = true /\ filter_set_meta field v flt = Ok flt').
Proof.
  intros H negate field. unfold compile_clause in H. fold negate in H. fold field in H.
  cbv zeta in H.
  assert (Hplain : forall v,
            plain_clause negate (ismeta_of ps field)
              (if ismeta_of ps field then GetMeta field else GetField field) field v (preds, flt)
            = Ok (preds', flt') ->
            (exists p, preds' = preds ++ [p] /\ flt' = flt) \/
            (preds' = preds /\ negate = false /\
             exists v, ismeta_of ps field = false /\ flt' = filter_set field v flt \/
                       ismeta_of ps field = true /\ filter_set_meta field v flt = Ok flt')).
  { intros v Hv. apply plain_clause_step in Hv as [Hv|(-> & Hn & Hv)]; [left; exact Hv|].
    right. split_all; auto. exists v. exact Hv. }
  assert (Hnum : forall v,
            number_clause negate (ismeta_of ps field)
              (if ismeta_of ps field then GetMeta field else GetField field) field v (preds, flt)
            = Ok (preds', flt') ->
            (exists p, preds' = preds ++ [p] /\ flt' = flt) \/
            (preds' = preds /\ negate = false /\
             exists v, ismeta_of ps field = false /\ flt' = filter_set field v flt \/
                       ismeta_of ps field = true /\ filter_set_meta field v flt = Ok flt')).
  { intros v Hv. apply number_clause_step in Hv as [Hv|(-> & Hn & Hv)]; [left; exact Hv|].
    right. split_all; auto. exists v. exact Hv. }
  destruct val; try (apply Hplain in H; exact H).
  destruct (Re.fullmatch rxdate (Text.strip s)) as [cs|]; [|apply Hnum in H; exact H].
  destruct (parse_datetime lib st (VStr (group_text 2 cs)) None) as [date|e]; [|discriminate H].
  cbn [res_bind] in H. destruct (Re.group 1 cs) as [q|]; [|apply Hnum in H; exact H].
  destruct date as [d|]; [|discriminate H]. cbn in H. injection H as <- <-. left. eauto.
Qed.

Lemma assoc_get_del_other {A : Type} k k' (l : list (string * A)) :
  k <> k' -> assoc_get k (assoc_del k' l) = assoc_get k l.
Proof.
  intros Hne. induction l as [|[a x] r IH]; cbn; [reflexivity|].
  destruct (String.eqb a k') eqn:E; cbn.
  - apply String.eqb_eq in E. subst a.
    rewrite (proj2 (String.eqb_neq k' k)) by congruence. reflexivity.
  - rewrite IH. reflexivity.
Qed.

Lemma assoc_get_del_same {A : Type} k (l : list (string * A)) :
  NoDup (map fst l) -> assoc_get k (assoc_del k l) = None.
Proof.
  induction l as [|[a x] r IH]; cbn; [reflexivity|].
  intros H. apply NoDup_cons in H as [Hin H].
  destruct (String.eqb a k) eqn:E; cbn.
  - apply String.eqb_eq in E. subst a.
    destruct (assoc_get k r) eqn:G; [|reflexivity]. exfalso. apply Hin.
    apply list_elem_of_In. clear - G. induction r as [|[b y] r IH]; cbn in *; [discriminate|].
    destruct (String.eqb b k) eqn:E; [apply String.eqb_eq in E; auto | right; apply IH, G].
  - rewrite E. apply IH, H.
Qed.

Lemma filter_ok_step lib st ps preds flt key val preds' flt' :
  filter_ok flt ->
  compile_clause lib st ps (preds, flt) (key, val) = Ok (preds', flt') ->
  filter_ok flt' /\ (length preds' <= S (length preds))%nat.
Proof.
  intros (Hnd & Hp & m & Hm) H. apply compile_clause_step in H. unfold filter_ok.
  cbv zeta in H. set (field := if Text.startswith "!" key then drop_first key else key) in *.
  destruct H as [(p & -> & ->)|(-> & _ & v & [[Hi ->]|[Hi H]])].
  - split; [split_all; eauto|]. rewrite length_app. cbn. lia.
  - split; [|lia]. unfold filter_set.
    assert (Hne : field <> "meta") by (intros E; rewrite E in Hi; discriminate Hi).
    split_all.
    + apply assoc_set_nodup, Hnd.
    + rewrite assoc_get_set. destruct (String.eqb field "pointer_type"); [discriminate|exact Hp].
    + exists m. rewrite assoc_get_set, (proj2 (String.eqb_neq _ _) Hne). exact Hm.
  - split; [|lia]. unfold filter_set_meta in H. rewrite Hm in H. injection H as <-.
    split_all.
    + apply assoc_set_nodup, Hnd.
    + rewrite assoc_get_set. cbn. exact Hp.
    + eexists. rewrite assoc_get_set. cbn. reflexivity.
Qed.

(** X2. Every clause that compiles does one thing: it adds one local predicate
    and leaves the server-side filter alone, or it stores one value in the
    filter and adds no predicate; a negated clause always does the first. *)
Theorem clause_does_one_thing lib st ps preds flt key val preds' flt' :
  compile_clause lib st ps (preds, flt) (key, val) = Ok (preds', flt') ->
  one_step key preds flt preds' flt'.
Proof.
  intros H. apply compile_clause_step in H. cbv zeta in H.
  destruct H as [H|(-> & Hn & v & H)]; [left; exact H|].
  right. rewrite Hn in H. split_all; auto. exists v.
  destruct H as [[_ H]|[_ H]]; auto.
Qed.

Lemma clause_does_one_thing_witness :
  compile_clause example_lib (initial_state example_now) [("radius", FFloat)]
                 ([], [("meta", FSub [])]) ("colour", VStr "red")
  = Ok ([], [("meta", FSub [("colour", VStr "red")])]) /\
  one_step "colour" [] [("meta", FSub [])] [] [("meta", FSub [("colour", VStr "red")])].
Proof.
  split; [reflexivity|].
  apply (clause_does_one_thing example_lib (initial_state example_now) [("radius", FFloat)]
           [] [("meta", FSub [])] "colour" (VStr "red")).
  reflexivity.
Defined.

Lemma compile_fold lib ps (clauses : list (Res (string * value))) :
  forall (m : M (list predicate * qfilter)) st acc' st',
  fold_left (fun m r =>
               let* acc := m in
               let* clause := lift r in
               fun st => (compile_clause lib st ps acc clause, st))
            clauses m st = (Ok acc', st') ->
  exists acc0, m st = (Ok acc0, st') /\
    (filter_ok (snd acc0) ->
     filter_ok (snd acc') /\ (length (fst acc') <= length (fst acc0) + length clauses)%nat).
Proof.
  induction clauses as [|r rest IH]; intros m st acc' st' H.
  - cbn in H. exists acc'. split; [exact H|]. intros Hf. split; [exact Hf | cbn; lia].
  - cbn [fold_left] in H. apply IH in H as (acc1 & H & Hrest).
    apply bind_inv in H as (acc0 & st0 & Hm & H).
    apply bind_inv in H as ([key val] & st1 & Hr & H).
    unfold lift in Hr. injection Hr as -> <-. injection H as H <-.
    exists acc0. split; [exact Hm|]. intros Hf.
    destruct acc0 as [preds flt], acc1 as [preds1 flt1].
    destruct (filter_ok_step _ _ _ _ _ _ _ _ _ Hf H) as [Hf1 Hlen].
    destruct (Hrest Hf1) as [Hf' Hlen']. split; [exact Hf'|]. cbn in *. lia.
Qed.

Lemma drop_empty_meta_sent h flt flt' :
  filter_ok flt -> drop_empty_meta h flt = Ok flt' -> filter_sent flt'.
Proof.
  intros (Hnd & Hp & m & Hm). unfold drop_empty_meta, filter_sent. rewrite Hm.
  destruct m as [|x m]; intros H; injection H as <-.
  - rewrite assoc_get_del_same by exact Hnd.
    rewrite assoc_get_del_other by discriminate. auto.
  - rewrite Hm. split; [exact Hp | discriminate].
Qed.

Lemma start_filter_ok v : filter_ok [("pointer_type", FValue v); ("meta", FSub [])].
Proof.
  unfold filter_ok. split_all.
  - cbn. apply NoDup_cons_2; [|apply NoDup_cons_2; [|apply NoDup_nil_2]].
    + intros H. apply list_elem_of_In in H. cbn in H. destruct H as [H|[]]. discriminate H.
    + intros H. apply list_elem_of_In in H. destruct H.
  - discriminate.
  - exists []. reflexivity.
Qed.

(** X3. The filter of a compiled plan names a pointer type and has no empty
    ['meta']; the plan has no factory; and a list of clauses gives at most
    as many local predicates as it has clauses. *)
Theorem compiled_plan_shape lib depth c q st plan st' :
  PointQuery_init lib depth c q st = (Ok plan, st') ->
  filter_sent (pq_filter plan) /\ pq_factory plan = None /\
  match q with
  | QClauses l => (length (pq_predicates plan) <= length l)%nat
  | QText _ => True
  end.
Proof.
  intros H. unfold PointQuery_init in H.
  apply bind_inv in H as (ps & st1 & _ & H).
  apply bind_inv in H as (clauses & st2 & Hc & H).
  apply bind_inv in H as (acc & st3 & Hfold & H).
  apply bind_inv in H as (flt & st4 & Hd & H).
  apply bind_inv in H as ([] & st5 & _ & H).
  apply bind_inv in H as ([] & st6 & _ & H).
  injection H as <- _. cbn [pq_filter pq_factory pq_predicates].
  apply compile_fold in Hfold as (acc0 & Hret & Hacc).
  injection Hret as <- _. cbn [fst snd] in Hacc.
  destruct (Hacc (start_filter_ok _)) as [Hf Hlen].
  injection Hd as Hd _. split_all.
  - eapply drop_empty_meta_sent; eassumption.
  - reflexivity.
  - destruct q as [s|l]; [exact I|]. injection Hc as <- _.
    rewrite length_map in Hlen. cbn in Hlen. exact Hlen.
Qed.

Lemma compiled_plan_shape_witness :
  PointQuery_init example_lib 10 Plant (QClauses basil_query) (initial_state example_now)
  = (Ok basil_plan,
     snd (PointQuery_init example_lib 10 Plant (QClauses basil_query)
            (initial_state example_now))) /\
  filter_sent (pq_filter basil_plan) /\ pq_factory basil_plan = None /\
  (length (pq_predicates basil_plan) <= length basil_query)%nat.
Proof.
  split; [vm_compute; reflexivity|].
  apply (compiled_plan_shape example_lib 10 Plant (QClauses basil_query)
           (initial_state example_now) basil_plan
           (snd (PointQuery_init example_lib 10 Plant (QClauses basil_query)
                   (initial_state example_now)))).
  vm_compute. reflexivity.
Defined.

Lemma plain_clause_compiles lib st ps preds flt key val :
  is_str val = false -> filter_ok flt ->
  exists preds' flt',
    compile_clause lib st ps (preds, flt) (key, val) = Ok (preds', flt') /\
    length preds' = (length preds + if Text.startswith "!" key then 1 else 0)%nat.
Proof.
  intros Hs (_ & _ & m & Hm). unfold compile_clause.
  destruct val; try discriminate Hs; cbn [plain_clause];
    (destruct (Text.startswith "!" key);
     [eexists _, _; split; [reflexivity | rewrite length_app; reflexivity]|];
     destruct (ismeta_of ps key);
     [unfold filter_set_meta; rewrite Hm; cbn [res_bind]|];
     eexists _, _; (split; [reflexivity | lia])).
Qed.

Lemma plain_fold lib ps (l : list (string * value)) :
  Forall (fun kv => is_str (snd kv) = false) l ->
  forall (m : M (list predicate * qfilter)) st acc0 st0,
  m st = (Ok acc0, st0) -> filter_ok (snd acc0) ->
  exists acc',
    fold_left (fun m r =>
                 let* acc := m in
                 let* clause := lift r in
                 fun st => (compile_clause lib st ps acc clause, st))
              (map (@Ok (string * value)) l) m st = (Ok acc', st0) /\
    filter_ok (snd acc') /\
    length (fst acc') = (length (fst acc0) + length (negated l))%nat.
Proof.
  induction 1 as [|[key val] rest Hv _ IH]; intros m st acc0 st0 Hm Hf.
  - exists acc0. cbn. split_all; [exact Hm | exact Hf | lia].
  - cbn [map fold_left]. destruct acc0 as [preds flt]. cbn [fst snd] in *.
    destruct (plain_clause_compiles lib st0 ps preds flt key val Hv Hf)
      as (preds' & flt' & Hc & Hlen).
    destruct (filter_ok_step _ _ _ _ _ _ _ _ _ Hf Hc) as [Hf' _].
    destruct (IH (let* acc := m in
                  let* clause := lift (Ok (key, val)) in
                  fun st => (compile_clause lib st ps acc clause, st))
                 st (preds', flt') st0) as (acc' & Hfold & Hok & Hlen').
    + rewrite (bind_ok _ _ _ _ _ Hm). unfold bind, lift. cbv beta iota.
      rewrite Hc. reflexivity.
    + exact Hf'.
    + exists acc'. split_all; [exact Hfold | exact Hok|].
      rewrite Hlen'. cbn [fst]. rewrite Hlen. unfold negated. cbn [List.filter fst].
      destruct (Text.startswith "!" key); cbn; lia.
Qed.

Lemma fold_all_ok {A : Type} (f : A -> Res unit) (l : list A) :
  Forall (fun x => f x = Ok tt) l ->
  fold_left (fun acc x => res_bind acc (fun _ => f x)) l (Ok tt) = Ok tt.
Proof.
  induction 1 as [|x r Hx _ IH]; [reflexivity|]. cbn [fold_left res_bind]. rewrite Hx. exact IH.
Qed.

Lemma fold_ok_all {A : Type} (f : A -> Res unit) (l : list A) :
  fold_left (fun acc x => res_bind acc (fun _ => f x)) l (Ok tt) = Ok tt ->
  Forall (fun x => f x = Ok tt) l.
Proof.
  assert (G : forall l, fold_left (fun acc x => res_bind acc (fun _ => f x)) l (Ok tt) = Ok tt ->
                        Forall (fun x => f x = Ok tt) l /\ True).
  { clear l. intros l. induction l as [|x r IH]; intros H; [split; [constructor | exact I]|].
    cbn [fold_left res_bind] in H. destruct (f x) as [[]|e] eqn:E.
    - split; [|exact I]. constructor; [exact E | apply IH, H].
    - exfalso. clear -H. induction r as [|y r IH]; [discriminate H | exact (IH H)]. }
  intros H. apply G, H.
Qed.

(** What [json.dumps] writes with [depth] nested calls left, it writes
    with one more. *)
Lemma json_dumps_more h : forall depth seen v,
  json_dumps depth h seen v = Ok tt -> json_dumps (S depth) h seen v = Ok tt.
Proof.
  induction depth as [|depth IH]; intros seen v H.
  - destruct v; try discriminate H; reflexivity.
  - destruct v; try reflexivity.
    + cbn [json_dumps] in H |- *. apply fold_all_ok. apply fold_ok_all in H.
      eapply Forall_impl; [exact H|]. intros x Hx. apply IH, Hx.
    + cbn [json_dumps] in H |- *. apply fold_all_ok. apply fold_ok_all in H.
      eapply Forall_impl; [exact H|]. intros x Hx. apply IH, Hx.
    + cbn [json_dumps] in H |- *. destruct (existsb (Nat.eqb l) seen); [discriminate H|].
      apply (fold_all_ok (fun kv => if json_key (fst kv)
                                    then json_dumps (S depth) h (l :: seen) (snd kv)
                                    else Raise TypeError)).
      apply (fold_ok_all (fun kv => if json_key (fst kv)
                                    then json_dumps depth h (l :: seen) (snd kv)
                                    else Raise TypeError)) in H.
      eapply Forall_impl; [exact H|]. intros x Hx. cbv beta in *.
      destruct (json_key (fst x)); [apply IH, Hx | exact Hx].
    + change (json_dumps (S (S depth)) h seen (VObj c id l))
        with (json_dumps (S depth) h [] (VDict l)).
      apply IH. exact H.
Qed.

(** A filter whose values [json.dumps] writes. *)
Lemma json_dumps_filter_ok depth h (f : qfilter) :
  Forall (fun kv => match snd kv with
                    | FValue v => json_dumps (S depth) h [] v = Ok tt
                    | FSub m => Forall (fun kv => json_dumps depth h [] (snd kv) = Ok tt) m
                    end) f ->
  json_dumps_filter (S (S depth)) h f = Ok tt.
Proof.
  intros H. unfold json_dumps_filter.
  apply (fold_all_ok (fun kv : string * fentry =>
           match snd kv with
           | FValue v => json_dumps (S depth) h [] v
           | FSub m =>
               fold_left (fun acc kv => res_bind acc (fun _ => json_dumps depth h [] (snd kv)))
                         m (Ok tt)
           end)).
  eapply Forall_impl; [exact H|]. intros [k [v|m]] Hx; cbn [snd] in *; [exact Hx|].
  apply (fold_all_ok (fun kv : string * value => json_dumps depth h [] (snd kv))), Hx.
Qed.

Lemma Forall_assoc_set {A : Type} (P : string * A -> Prop) k v (l : list (string * A)) :
  Forall P l -> (forall k', P (k', v)) -> Forall P (assoc_set k v l).
Proof.
  intros H Hv. induction H as [|[k' v'] r Hx Hr IH]; cbn [assoc_set].
  - constructor; [apply Hv | constructor].
  - destruct (String.eqb k' k).
    + constructor; [apply Hv | exact Hr].
    + constructor; [exact Hx | exact IH].
Qed.

Lemma Forall_assoc_del {A : Type} (P : string * A -> Prop) k (l : list (string * A)) :
  Forall P l -> Forall P (assoc_del k l).
Proof.
  induction 1 as [|[k' v'] r Hx Hr IH]; cbn [assoc_del]; [constructor|].
  destruct (String.eqb k' k); [exact Hr | constructor; assumption].
Qed.

Lemma Forall_assoc_get {A : Type} (P : string * A -> Prop) k v (l : list (string * A)) :
  Forall P l -> assoc_get k l = Some v -> exists k', P (k', v).
Proof.
  induction 1 as [|[k' v'] r Hx _ IH]; cbn [assoc_get]; [discriminate|].
  destruct (String.eqb k' k); [intros [= <-]; eauto | exact IH].
Qed.

Lemma plain_clause_writable depth h lib st ps preds flt key val preds' flt' :
  is_str val = false -> json_dumps depth h [] val = Ok tt ->
  Forall (writable depth h) flt ->
  compile_clause lib st ps (preds, flt) (key, val) = Ok (preds', flt') ->
  Forall (writable depth h) flt'.
Proof.
  intros Hs Hj Hf H. unfold compile_clause in H.
  assert (Hp : plain_clause (Text.startswith "!" key)
                 (ismeta_of ps (if Text.startswith "!" key then drop_first key else key))
                 (if ismeta_of ps (if Text.startswith "!" key then drop_first key else key)
                  then GetMeta (if Text.startswith "!" key then drop_first key else key)
                  else GetField (if Text.startswith "!" key then drop_first key else key))
                 (if Text.startswith "!" key then drop_first key else key) val (preds, flt)
               = Ok (preds', flt')).
  { destruct val; try discriminate Hs; exact H. }
  clear H. unfold plain_clause in Hp.
  destruct (Text.startswith "!" key); [injection Hp as _ <-; exact Hf|].
  destruct (ismeta_of ps key).
  - unfold filter_set_meta in Hp.
    destruct (assoc_get "meta" flt) as [[v|m]|] eqn:Hm; try discriminate Hp.
    injection Hp as _ <-.
    destruct (Forall_assoc_get _ _ _ _ Hf Hm) as [k' Hk']. unfold writable in Hk'. cbn in Hk'.
    apply Forall_assoc_set; [exact Hf|]. intros k''. unfold writable. cbn [snd].
    apply Forall_assoc_set; [exact Hk' | intros; exact Hj].
  - injection Hp as _ <-. unfold filter_set.
    apply Forall_assoc_set; [exact Hf|]. intros k'. unfold writable. cbn [snd].
    apply json_dumps_more, Hj.
Qed.

Lemma plain_fold_writable depth h lib ps (l : list (string * value)) :
  Forall (fun kv => is_str (snd kv) = false /\ json_dumps depth h [] (snd kv) = Ok tt) l ->
  forall (m : M (list predicate * qfilter)) st acc' st',
  fold_left (fun m r =>
               let* acc := m in
               let* clause := lift r in
               fun st => (compile_clause lib st ps acc clause, st))
            (map (@Ok (string * value)) l) m st = (Ok acc', st') ->
  exists acc0, m st = (Ok acc0, st') /\
               (Forall (writable depth h) (snd acc0) -> Forall (writable depth h) (snd acc')).
Proof.
  induction 1 as [|[key val] rest [Hs Hj] _ IH]; intros m st acc' st' H.
  - exists acc'. split; [exact H | auto].
  - cbn [map fold_left] in H. apply IH in H as (acc1 & H & Hrest).
    apply bind_inv in H as (acc0 & st0 & Hm & H).
    apply bind_inv in H as ([key' val'] & st1 & Hr & H).
    unfold lift in Hr. injection Hr as <- <- <-. injection H as H <-.
    exists acc0. split; [exact Hm|]. intros Hf.
    destruct acc0 as [preds flt], acc1 as [preds1 flt1]. cbn [snd] in *.
    apply Hrest. eapply plain_clause_writable; eassumption.
Qed.

(** X4. A query whose values are not texts and are written by
    [json.dumps] always compiles: each negated clause gives one local
    predicate, every other clause goes to the server-side filter. *)
Theorem plain_queries_compile lib depth c l st :
  caches_ok st ->
  Forall (fun kv => is_str (snd kv) = false /\
                    json_dumps depth (heap st) [] (snd kv) = Ok tt) l ->
  returns (PointQuery_init lib (S (S depth)) c (QClauses l)) st (fun plan st' =>
    length (pq_predicates plan) = length (negated l) /\
    filter_sent (pq_filter plan) /\ heap st' = heap st).
Proof.
  intros Hok Hl. unfold PointQuery_init.
  destruct (class_props_ok c st Hok) as (ps & st1 & Hps & _ & _ & Hw).
  destruct Hw as (Hh & _).
  apply returns_bind. exists ps, st1. split; [exact Hps|].
  apply returns_bind, returns_ret.
  assert (Hl' : Forall (fun kv => is_str (snd kv) = false) l)
    by (eapply Forall_impl; [exact Hl | intros kv [H _]; exact H]).
  destruct (plain_fold lib ps l Hl'
              (ret ([], [("pointer_type", FValue (VStr (get_pointer_type c))); ("meta", FSub [])]))
              st1 _ st1 eq_refl (start_filter_ok _)) as (acc' & Hfold & Hf & Hlen).
  assert (Hwr : Forall (writable depth (heap st)) (snd acc')).
  { destruct (plain_fold_writable depth (heap st) lib ps l Hl _ _ _ _ Hfold)
      as (acc0 & Hret & Hacc).
    injection Hret as <-. apply Hacc. cbn [snd].
    repeat constructor. }
  apply returns_bind. exists acc', st1. split; [exact Hfold|].
  destruct Hf as (Hnd & Hp & m & Hm).
  assert (Hd : exists flt, drop_empty_meta (heap st1) (snd acc') = Ok flt /\
                           Forall (writable depth (heap st)) flt).
  { unfold drop_empty_meta. rewrite Hm. destruct m; eexists; (split; [reflexivity|]);
      [apply Forall_assoc_del, Hwr | exact Hwr]. }
  destruct Hd as (flt & Hd & Hwf).
  apply returns_bind. exists flt, st1. split; [rewrite Hd; reflexivity|].
  apply returns_bind. exists tt, st1. split.
  { rewrite Hh. rewrite (json_dumps_filter_ok depth (heap st) flt Hwf). reflexivity. }
  apply returns_bind. eexists tt, _. split; [reflexivity|].
  apply returns_ret. cbn [pq_predicates pq_filter heap]. split_all.
  - exact Hlen.
  - eapply drop_empty_meta_sent; [|exact Hd]. unfold filter_ok. eauto.
  - exact Hh.
Qed.

Lemma plain_queries_compile_witness :
  caches_ok (initial_state example_now) /\
  Forall (fun kv => is_str (snd kv) = false /\
                    json_dumps 0 (heap (initial_state example_now)) [] (snd kv) = Ok tt)
         [("!id", VInt 3); ("x", VInt 100)] /\
  returns (PointQuery_init example_lib 2 ToolSlot (QClauses [("!id", VInt 3); ("x", VInt 100)]))
          (initial_state example_now)
          (fun plan st' =>
             length (pq_predicates plan) = length (negated [("!id", VInt 3); ("x", VInt 100)]) /\
             filter_sent (pq_filter plan) /\ heap st' = heap (initial_state example_now)).
Proof.
  split; [apply initial_caches_ok|].
  split; [repeat constructor|].
  apply (plain_queries_compile example_lib 0 ToolSlot [("!id", VInt 3); ("x", VInt 100)]
           (initial_state example_now)).
  - apply initial_caches_ok.
  - repeat constructor.
Defined.

(** ** [get_factory]: shapes without a factory *)

(** X5. A union of two shapes other than [NoneType] has no factory:
    [get_factory] resolves the first member, then raises [TypeError] at the
    second; and so do [NoneType] alone, an empty union and every type that
    is neither a known shape nor an [Entity] class, unless the cache holds
    them. *)
Theorem get_factory_rejects t st :
  caches_ok st -> cache_get t (factories st) = None ->
  (t = TNoneType \/ t = TUnion [] \/ (exists name, t = TOther name) \/
   exists a b, t = TUnion [a; b] /\ supported a = true /\
               ptype_eqb a TNoneType = false /\ ptype_eqb b TNoneType = false) ->
  exists st', get_factory t st = (Raise TypeError, st') /\ same_world st st'.
Proof.
  intros Hok Hc [->|[->|[[name ->]|(a & b & -> & Hs & Ha & Hb)]]].
  - exists st. split; [|apply same_world_refl].
    cbn [get_factory]. unfold bind, gets. rewrite Hc. reflexivity.
  - exists st. split; [|apply same_world_refl].
    cbn [get_factory]. unfold bind, gets. rewrite Hc. reflexivity.
  - exists st. split; [|apply same_world_refl].
    cbn [get_factory]. unfold bind, gets. rewrite Hc. reflexivity.
  - destruct (get_factory_ok a Hs st Hok) as (f & st' & Hf & _ & Hw & _).
    exists st'. split; [|exact Hw].
    cbn [get_factory]. unfold bind at 1, gets. cbv beta iota. rewrite Hc. cbv iota.
    rewrite Ha. unfold bind at 1. unfold bind at 1. unfold bind at 1.
    rewrite Hf. rewrite Hb. reflexivity.
Qed.

Lemma get_factory_rejects_witness :
  caches_ok (initial_state example_now) /\
  cache_get (TUnion [TInt; TStr]) (factories (initial_state example_now)) = None /\
  exists st', get_factory (TUnion [TInt; TStr]) (initial_state example_now)
              = (Raise TypeError, st') /\
              same_world (initial_state example_now) st'.
Proof.
  split; [apply initial_caches_ok|]. split; [reflexivity|].
  apply (get_factory_rejects (TUnion [TInt; TStr]) (initial_state example_now)).
  - apply initial_caches_ok.
  - reflexivity.
  - right. right. right. exists TInt, TStr. repeat split.
Defined.

(** ** Points: the discriminator and the class *)

Lemma point_of_mapping data st :
  caches_ok st -> data_ok (heap st) data ->
  let given := default VNone (dict_get (VStr "pointer_type") (mapping_of (heap st) data)) in
  hashable given = true ->
  returns (construct Point data []) st (fun self st' =>
    exists id l,
      self = VObj (point_class given) id l /\
      dict_get (VStr "pointer_type") (heap_get (heap st') l)
      = Some (if truthy (heap st) given then given else VStr "GenericPointer") /\
      caches_ok st').
Proof.
  intros Hok Hd given Hh.
  eapply returns_weaken.
  - apply construct_point_returns; [reflexivity | exact Hok | exact Hd |].
    rewrite discriminator_of_data by exact Hd. exact Hh.
  - cbn beta zeta. intros self st' (-> & Hheap & Hok').
    rewrite constructed_class_data in * by exact Hd. fold given in Hheap |- *.
    assert (Hl0 : (store_of (heap st) data < length (heap st ++ [[]]))%nat)
      by apply store_of_lt, Hd.
    assert (Hget : dict_get (VStr "pointer_type")
                     (dict_update [] (with_defaults (field_names (point_class given))
                        (heap_get (heap st ++ [[]]) (store_of (heap st) data))))
                   = Some given).
    { rewrite (dict_get_constructed _ (heap st) data [] "pointer_type" Hd)
        by (apply point_keys_declared; [apply point_class_is_point | cbn; tauto]).
      reflexivity. }
    exists (next_id st), (store_of (heap st) data). split; [reflexivity|].
    split; [|exact Hok'].
    rewrite Hheap, heap_get_insert_same
      by (destruct (meta_missing _); rewrite ?length_app, length_insert; lia).
    unfold point_defaults.
    rewrite !dict_get_default_field, dict_get_default_pointer_type.
    cbn [String.eqb Ascii.eqb Bool.eqb]. rewrite Hget.
    rewrite (truthy_hashable _ (heap st) given Hh).
    destruct (truthy (heap st) given) eqn:Ht; [reflexivity|].
    rewrite (point_class_falsy (heap st) given Hh Ht). reflexivity.
Qed.


(** X6. The discriminator that [Point(data)] leaves in the record names the
    class of the record: [get_point_type(self.pointer_type)] is
    [type(self)]. *)
Theorem pointer_type_names_the_class data st :
  caches_ok st -> data_ok (heap st) data ->
  hashable (default VNone (dict_get (VStr "pointer_type") (mapping_of (heap st) data))) = true ->
  returns (construct Point data []) st (fun self st' =>
    returns (let* p := getattr self "pointer_type" in get_point_type p) st'
            (fun c _ => c = type_of self)).
Proof.
  intros Hok Hd Hh.
  eapply returns_weaken; [apply point_of_mapping; assumption|].
  cbn beta zeta. intros self st' (id & l & -> & Hp & Hok').
  set (given := default VNone (dict_get (VStr "pointer_type") (mapping_of (heap st) data))) in *.
  apply returns_bind. eexists _, st'. split; [apply getattr_returns, Hp|].
  assert (Hh' : hashable (if truthy (heap st) given then given else VStr "GenericPointer") = true)
    by (destruct (truthy (heap st) given); [exact Hh | reflexivity]).
  eapply returns_weaken; [apply get_point_type_returns; assumption|].
  cbn beta. intros c st'' (-> & _). cbn [type_of].
  destruct (truthy (heap st) given) eqn:Ht; [reflexivity|].
  rewrite (point_class_falsy (heap st) given Hh Ht). reflexivity.
Qed.

Lemma pointer_type_names_the_class_witness :
  returns (construct Point (VDict 0) []) (example_state [[(VStr "pointer_type", VStr "ToolSlot")]])
    (fun self st' =>
       returns (let* p := getattr self "pointer_type" in get_point_type p) st'
               (fun c _ => c = type_of self)).
Proof.
  apply (pointer_type_names_the_class (VDict 0)
           (example_state [[(VStr "pointer_type", VStr "ToolSlot")]])).
  - apply example_caches_ok.
  - simpl. lia.
  - reflexivity.
Defined.

(** X7. [get_point_type] undoes [get_pointer_type]: the name of a point class
    is registered to that class, and ['GenericPointer'] stands for
    [Point]. *)
Theorem point_type_round_trip c st :
  caches_ok st -> is_point_class c = true ->
  returns (get_point_type (VStr (get_pointer_type c))) st (fun c' st' =>
    c' = c /\ heap st' = heap st).
Proof.
  intros Hok Hc.
  eapply returns_weaken; [apply get_point_type_returns; [exact Hok | reflexivity]|].
  cbn beta. intros c' st' (-> & Hh & _). split; [|exact Hh].
  destruct c; try discriminate Hc; reflexivity.
Qed.

Lemma point_type_round_trip_witness :
  returns (get_point_type (VStr (get_pointer_type Plant))) (initial_state example_now)
    (fun c' st' => c' = Plant /\ heap st' = heap (initial_state example_now)).
Proof.
  apply (point_type_round_trip Plant (initial_state example_now)).
  - apply initial_caches_ok.
  - reflexivity.
Defined.

(** ** [Point.apply] *)

Lemma assoc_mem_existsb {A : Type} k (l : list (string * A)) :
  assoc_mem k l = existsb (String.eqb k) (map fst l).
Proof.
  unfold assoc_mem. induction l as [|[a x] r IH]; cbn; [reflexivity|].
  rewrite (String.eqb_sym k a). destruct (String.eqb a k); [reflexivity | exact IH].
Qed.

Lemma ismeta_of_routed (ps : props) c k :
  map fst ps = map fst (get_type_hints c) -> ismeta_of ps k = routed_to_meta c k.
Proof.
  intros H. unfold ismeta_of, routed_to_meta, field_names.
  rewrite assoc_mem_existsb, H. reflexivity.
Qed.

(** The end of the loop body on a key without the mark [+]: where it
    writes, and what. *)
Lemma store_update_plain depth c id l key val st :
  caches_ok st -> Text.startswith "+" key = false ->
  let meta := routed_to_meta c key in
  forall loc,
    (if meta then dict_get (VStr "meta") (heap_get (heap st) l) = Some (VDict loc)
     else loc = l) ->
    let d := heap_get (heap st) loc in
    exists st',
      store_update depth (VObj c id l) key val st
      = (if is_none val && meta
         then match dict_get (VStr key) d with
              | Some _ => Ok tt
              | None => Raise KeyError
              end
         else Ok tt, st') /\
      heap st' = (if is_none val && meta
                  then match dict_get (VStr key) d with
                       | Some _ => <[loc := dict_del (VStr key) d]> (heap st)
                       | None => heap st
                       end
                  else <[loc := dict_set (VStr key) val d]> (heap st)).
Proof.
  intros Hok Ha meta loc Hloc d.
  unfold store_update. rewrite Ha. cbv zeta. cbn [type_of].
  destruct (class_props_ok c st Hok) as (ps & st1 & Hps & Hn & _ & Hw).
  destruct Hw as (Hh & _).
  rewrite (bind_ok _ _ _ _ _ Hps), (ismeta_of_routed ps c key Hn). fold meta.
  assert (Hdata : (if meta then getattr (VObj c id l) "meta" else ret (VDict l)) st1
                  = (Ok (VDict loc), st1)).
  { destruct meta.
    - apply getattr_returns. rewrite Hh. exact Hloc.
    - rewrite Hloc. reflexivity. }
  rewrite (bind_ok _ _ _ _ _ Hdata).
  unfold bind at 1, read_dict, gets. cbv beta iota. rewrite Hh. fold d.
  destruct (is_none val && meta).
  - destruct (dict_get (VStr key) d).
    + eexists. split; [reflexivity|]. cbn [heap set_heap]. rewrite Hh. reflexivity.
    + eexists. split; [reflexivity|]. exact Hh.
  - eexists. split; [reflexivity|]. cbn [heap set_heap]. rewrite Hh. reflexivity.
Qed.

(** X8. An update with the value [None] removes the key from the metadata
    when the key is routed there, and raises [KeyError] when the metadata
    does not have it; on a declared field it stores [None]. *)
Theorem none_deletes_metadata depth c id l lm key st :
  caches_ok st -> Text.startswith "+" key = false ->
  dict_get (VStr "meta") (heap_get (heap st) l) = Some (VDict lm) ->
  exists r st',
    apply_update depth (VObj c id l) (key, VNone) st = (r, st') /\
    if routed_to_meta c key
    then match dict_get (VStr key) (heap_get (heap st) lm) with
         | Some _ =>
             r = Ok tt /\
             heap st' = <[lm := dict_del (VStr key) (heap_get (heap st) lm)]> (heap st)
         | None => r = Raise KeyError /\ heap st' = heap st
         end
    else r = Ok tt /\
         heap st' = <[l := dict_set (VStr key) VNone (heap_get (heap st) l)]> (heap st).
Proof.
  intros Hok Ha Hm. unfold apply_update.
  rewrite (bind_ok _ _ _ _ _ (update_value_plain VNone st eq_refl)).
  destruct (routed_to_meta c key) eqn:Hr.
  - destruct (store_update_plain depth c id l key VNone st Hok Ha lm) as (st' & H & Hh).
    { rewrite Hr. exact Hm. }
    rewrite Hr in H, Hh. cbn [is_none andb] in H, Hh.
    eexists _, st'. split; [exact H|].
    destruct (dict_get (VStr key) (heap_get (heap st) lm)); auto.
  - destruct (store_update_plain depth c id l key VNone st Hok Ha l) as (st' & H & Hh).
    { rewrite Hr. reflexivity. }
    rewrite Hr in H, Hh. cbn [is_none andb] in H, Hh.
    eexists _, st'. split; [exact H|]. auto.
Qed.

Lemma none_deletes_metadata_witness :
  caches_ok (example_state [[(VStr "meta", VDict 1)]; [(VStr "colour", VStr "red")]]) /\
  Text.startswith "+" "colour" = false /\
  dict_get (VStr "meta")
    (heap_get (heap (example_state [[(VStr "meta", VDict 1)]; [(VStr "colour", VStr "red")]])) 0)
  = Some (VDict 1) /\
  exists r st',
    apply_update 1 (VObj Plant 0 0) ("colour", VNone)
      (example_state [[(VStr "meta", VDict 1)]; [(VStr "colour", VStr "red")]]) = (r, st') /\
    r = Ok tt /\ heap st' = [[(VStr "meta", VDict 1)]; []].
Proof.
  split; [apply example_caches_ok|]. split; [reflexivity|]. split; [reflexivity|].
  destruct (none_deletes_metadata 1 Plant 0 0 1 "colour"
              (example_state [[(VStr "meta", VDict 1)]; [(VStr "colour", VStr "red")]])
              (example_caches_ok _) eq_refl eq_refl) as (r & st' & H & Hr).
  exists r, st'. split; [exact H|]. exact Hr.
Defined.

Lemma startswith_mark c k : Text.startswith (String c "") (String c k) = true.
Proof.
  unfold Text.startswith. cbn. destruct (ascii_dec c c) as [_|H]; [|contradiction].
  destruct k; reflexivity.
Qed.

(** ** [Entity]: the attributes of a new record *)

Lemma existsb_eqb_in k (names : list string) :
  In k names -> existsb (String.eqb k) names = true.
Proof.
  intros H. apply existsb_exists. exists k. split; [exact H | apply String.eqb_refl].
Qed.

(** X10. A record of a class other than the point classes, made from a mapping,
    from keyword fields or from both, has every declared field of its
    class as an attribute: it holds the keyword field of that name, else
    what the mapping has under the name, else [None]. *)
Theorem record_attributes c data kwargs st :
  is_point_class c = false -> caches_ok st -> data_ok (heap st) data ->
  returns (construct c data kwargs) st (fun self st' =>
    type_of self = c /\
    forall k, In k (field_names c) ->
      getattr self k st' = (Ok (default VNone (supplied (heap st) data kwargs k)), st')).
Proof.
  intros Hc Hok Hd. unfold construct. rewrite Hc.
  apply returns_bind.
  eapply returns_weaken; [apply Entity_new_returns; assumption|].
  cbn beta zeta. intros self st1 (-> & Hheap & _).
  apply returns_bind.
  eexists tt, _. split; [apply Entity_init_returns|]. apply returns_ret.
  split; [reflexivity|]. intros k Hk.
  apply getattr_returns. cbn [heap set_heap].
  assert (Hl : (store_of (heap st) data < length (heap st ++ [[]]))%nat)
    by apply store_of_lt, Hd.
  rewrite Hheap.
  rewrite heap_get_insert_same by (rewrite length_insert; exact Hl).
  rewrite heap_get_insert_same by exact Hl.
  apply dict_get_constructed; [exact Hd | apply existsb_eqb_in, Hk].
Qed.

Lemma record_attributes_witness :
  is_point_class Tool = false /\
  caches_ok (example_state [[(VStr "name", VStr "seeder"); (VStr "id", VInt 4)]]) /\
  data_ok (heap (example_state [[(VStr "name", VStr "seeder"); (VStr "id", VInt 4)]])) (VDict 0) /\
  returns (construct Tool (VDict 0) [("id", VInt 5)])
    (example_state [[(VStr "name", VStr "seeder"); (VStr "id", VInt 4)]])
    (fun self st' =>
       type_of self = Tool /\
       forall k, In k (field_names Tool) ->
         getattr self k st'
         = (Ok (default VNone
                  (supplied [[(VStr "name", VStr "seeder"); (VStr "id", VInt 4)]]
                            (VDict 0) [("id", VInt 5)] k)), st')).
Proof.
  split; [reflexivity|]. split; [apply example_caches_ok|]. split; [simpl; lia|].
  apply (record_attributes Tool (VDict 0) [("id", VInt 5)]
           (example_state [[(VStr "name", VStr "seeder"); (VStr "id", VInt 4)]])).
  - reflexivity.
  - apply example_caches_ok.
  - simpl. lia.
Defined.

(** ** The matcher finds a match when the pattern has one *)

Lemma plus_from_complete {A : Type} p (k : string -> option A) s' : forall a,
  a <> EmptyString -> string_all p a = true -> k s' <> None ->
  Re.plus_from p k (a ++ s') <> None.
Proof.
  induction a as [|c a IH]; intros Hne Ha Hk; [contradiction|].
  cbn in Ha. apply andb_true_iff in Ha as [Hc Ha]. cbn. rewrite Hc.
  destruct a as [|c' a'].
  - cbn. destruct (Re.plus_from p k s'); [discriminate | exact Hk].
  - specialize (IH ltac:(discriminate) Ha Hk).
    destruct (Re.plus_from p k (String c' a' ++ s')); [discriminate | contradiction].
Qed.

Lemma upto_from_complete {A : Type} p (k : string -> option A) s' : forall a n,
  (String.length a <= n)%nat -> string_all p a = true -> k s' <> None ->
  Re.upto_from n p k (a ++ s') <> None.
Proof.
  induction a as [|c a IH]; intros n Hlen Ha Hk.
  - cbn [append]. destruct n as [|n]; [exact Hk|]. cbn.
    destruct s' as [|c r]; [exact Hk|].
    destruct (p c); [|exact Hk].
    destruct (Re.upto_from n p k r); [discriminate | exact Hk].
  - destruct n as [|n]; [cbn in Hlen; lia|].
    cbn in Ha. apply andb_true_iff in Ha as [Hc Ha]. cbn. rewrite Hc.
    specialize (IH n ltac:(cbn in Hlen; lia) Ha Hk).
    destruct (Re.upto_from n p k (a ++ s')); [discriminate | contradiction].
Qed.

Lemma run_complete {A : Type} : forall r a cs cs' (k : string -> Re.caps -> option A) s',
  matches r a cs cs' -> k s' cs' <> None -> Re.run r (a ++ s') cs k <> None.
Proof.
  induction r as [ |c|p|r1 IH1 r2 IH2|r1 IH1 r2 IH2|r IH|p|n p|i r IH];
    intros a cs cs' k s' Hm Hk; cbn in Hm; cbn [Re.run].
  - destruct Hm as [-> ->]. exact Hk.
  - destruct Hm as [-> ->]. cbn. rewrite Ascii.eqb_refl. exact Hk.
  - destruct Hm as (c & -> & Hc & ->). cbn. rewrite Hc. exact Hk.
  - destruct Hm as (a1 & a2 & cs1 & -> & H1 & H2). rewrite append_assoc.
    eapply IH1; [exact H1|]. eapply IH2; eassumption.
  - destruct Hm as [Hm|Hm].
    + specialize (IH1 _ _ _ k s' Hm Hk). destruct (Re.run r1 (a ++ s') cs k); [discriminate|contradiction].
    + destruct (Re.run r1 (a ++ s') cs k); [discriminate|]. eapply IH2; eassumption.
  - destruct Hm as [Hm|[-> ->]].
    + specialize (IH _ _ _ k s' Hm Hk). destruct (Re.run r (a ++ s') cs k); [discriminate|contradiction].
    + cbn [append]. destruct (Re.run r s' cs k); [discriminate | exact Hk].
  - destruct Hm as (Hne & Ha & ->). apply plus_from_complete; assumption.
  - destruct Hm as (Hlen & Ha & ->). apply upto_from_complete; assumption.
  - destruct Hm as (cs1 & Hm & ->). eapply IH; [exact Hm|]. rewrite consumed_app. exact Hk.
Qed.

Lemma fullmatch_complete r a cs : matches r a [] cs -> Re.fullmatch r a <> None.
Proof.
  intros Hm. unfold Re.fullmatch. rewrite <- (append_nil_r a) at 1.
  eapply run_complete; [exact Hm|]. discriminate.
Qed.

Lemma match_prefix_complete r a cs s' :
  matches r a [] cs -> Re.match_prefix r (a ++ s') <> None.
Proof.
  intros Hm. unfold Re.match_prefix. eapply run_complete; [exact Hm|]. discriminate.
Qed.

Lemma match_prefix_sound r s cs rest :
  Re.match_prefix r s = Some (cs, rest) ->
  exists a, s = (a ++ rest)%string /\ matches r a [] cs.
Proof.
  unfold Re.match_prefix. intros H. apply run_sound in H as (a & s' & cs' & -> & Hm & Hk).
  injection Hk as <- <-. eauto.
Qed.

(** ** Texts of digits *)

Lemma string_all_zero_padded w : forall n, string_all Text.is_digit (Text.zero_padded w n) = true.
Proof.
  induction w as [|w IH]; intros n; [reflexivity|].
  cbn [Text.zero_padded]. rewrite string_all_app, IH. cbn. rewrite digit_char_digit. reflexivity.
Qed.

Lemma length_zero_padded w : forall n, String.length (Text.zero_padded w n) = w.
Proof.
  induction w as [|w IH]; intros n; [reflexivity|].
  cbn [Text.zero_padded]. rewrite length_append, IH. cbn. lia.
Qed.

Lemma digits_value_app a : forall acc b,
  Text.digits_value acc (a ++ b) = Text.digits_value (Text.digits_value acc a) b.
Proof. induction a as [|c a IH]; intros acc b; cbn; [reflexivity | apply IH]. Qed.

Lemma digit_value_digit_char n : Text.digit_value (Text.digit_char n) = n mod 10.
Proof.
  unfold Text.digit_char.
  assert (H : 0 <= n mod 10 < 10) by (apply Z.mod_pos_bound; lia).
  assert (H' : n mod 10 = 0 \/ n mod 10 = 1 \/ n mod 10 = 2 \/ n mod 10 = 3 \/ n mod 10 = 4 \/
               n mod 10 = 5 \/ n mod 10 = 6 \/ n mod 10 = 7 \/ n mod 10 = 8 \/ n mod 10 = 9)
    by lia.
  repeat (destruct H' as [->|H']; [reflexivity|]). rewrite H'. reflexivity.
Qed.

Lemma digits_value_zero_padded w : forall n,
  Text.digits_value 0 (Text.zero_padded w n) = n mod 10 ^ Z.of_nat w.
Proof.
  induction w as [|w IH]; intros n.
  - cbn. rewrite Z.mod_1_r. reflexivity.
  - cbn [Text.zero_padded]. rewrite digits_value_app, IH. cbn [Text.digits_value].
    rewrite digit_value_digit_char, Nat2Z.inj_succ, Z.pow_succ_r by lia.
    rewrite (Z.rem_mul_r n 10 (10 ^ Z.of_nat w)) by lia. lia.
Qed.

Lemma zero_padded_value w n :
  0 <= n < 10 ^ Z.of_nat w -> Text.digits_value 0 (Text.zero_padded w n) = n.
Proof. intros H. rewrite digits_value_zero_padded. apply Z.mod_small, H. Qed.

(** Two runs of digits that end at a character which is no digit. *)
Lemma digits_prefix_unique a : forall b c r c' r',
  string_all Text.is_digit a = true -> string_all Text.is_digit b = true ->
  Text.is_digit c = false -> Text.is_digit c' = false ->
  (a ++ String c r)%string = (b ++ String c' r')%string ->
  a = b /\ c = c' /\ r = r'.
Proof.
  induction a as [|x a IH]; intros b c r c' r' Ha Hb Hc Hc' H.
  - destruct b as [|y b]; cbn in H.
    + injection H as -> ->. auto.
    + injection H as -> _. cbn in Hb. rewrite Hc in Hb. discriminate.
  - destruct b as [|y b]; cbn in H.
    + injection H as -> _. cbn in Ha. rewrite Hc' in Ha. discriminate.
    + injection H as -> H. cbn in Ha, Hb.
      apply andb_true_iff in Ha as [_ Ha]. apply andb_true_iff in Hb as [_ Hb].
      destruct (IH b c r c' r' Ha Hb Hc Hc' H) as (-> & -> & ->). auto.
Qed.

Lemma lower_app a b : Text.lower (a ++ b) = (Text.lower a ++ Text.lower b)%string.
Proof. induction a as [|c a IH]; cbn; [reflexivity | rewrite IH; reflexivity]. Qed.

Lemma lower_digits a : string_all Text.is_digit a = true -> Text.lower a = a.
Proof.
  induction a as [|c a IH]; cbn; [reflexivity|]. intros H.
  apply andb_true_iff in H as [Hc H]. rewrite (IH H).
  apply digit_facts in Hc. decompose [and] Hc. congruence.
Qed.

Lemma sub_spaces_plain a :
  string_all (fun c => negb (Text.is_space c)) a = true -> Text.sub_spaces false a = a.
Proof.
  induction a as [|c a IH]; cbn; [reflexivity|]. intros H.
  apply andb_true_iff in H as [Hc H]. apply negb_true_iff in Hc. rewrite Hc, (IH H). reflexivity.
Qed.

Lemma digits_plain a :
  string_all Text.is_digit a = true -> string_all (fun c => negb (Text.is_space c)) a = true.
Proof.
  apply string_all_impl. intros c H. apply digit_facts in H as [-> _]. reflexivity.
Qed.

(** ** [parse_offset]: the texts it reads *)

Lemma word_head w : word w -> exists c r, w = String c r /\ plain_char c = true.
Proof.
  intros [Hne H]. destruct w as [|c r]; [contradiction|].
  cbn in H. apply andb_true_iff in H as [H _]. eauto.
Qed.

Lemma join_head w ws : word w -> exists c r, join (w :: ws) = String c r /\ plain_char c = true.
Proof.
  intros Hw. destruct (word_head w Hw) as (c & r & -> & Hc).
  destruct ws; cbn; eauto.
Qed.

Lemma rstrip_app_keep b : b <> EmptyString -> Text.rstrip b = b ->
  forall a, Text.rstrip (a ++ b) = (a ++ b)%string.
Proof.
  intros Hne Hb. induction a as [|c a IH]; [exact Hb|].
  cbn. rewrite IH. destruct (a ++ b)%string eqn:E; [|reflexivity].
  destruct a; [cbn in E; contradiction | discriminate E].
Qed.

Lemma plain_not_space w : string_all plain_char w = true ->
  string_all (fun c => negb (Text.is_space c)) w = true.
Proof.
  apply string_all_impl. intros c H. apply andb_true_iff in H as [H _]. exact H.
Qed.

Lemma lower_plain w : string_all plain_char w = true -> Text.lower w = w.
Proof.
  induction w as [|c w IH]; cbn; [reflexivity|]. intros H.
  apply andb_true_iff in H as [Hc H]. rewrite (IH H).
  apply andb_true_iff in Hc as [_ Hc]. apply Ascii.eqb_eq in Hc. rewrite Hc. reflexivity.
Qed.

Lemma join_nonempty w ws : word w -> join (w :: ws) <> EmptyString.
Proof. intros Hw. destruct (join_head w ws Hw) as (c & r & -> & _). discriminate. Qed.

Lemma rstrip_join ws : Forall word ws -> Text.rstrip (join ws) = join ws.
Proof.
  induction 1 as [|w ws Hw Hws IH]; [reflexivity|].
  destruct ws as [|w' ws'].
  - cbn. apply rstrip_all, plain_not_space, Hw.
  - change (join (w :: w' :: ws')) with (w ++ String " " (join (w' :: ws')))%string.
    apply rstrip_app_keep; [discriminate|].
    change (String " " (join (w' :: ws'))) with (" " ++ join (w' :: ws'))%string.
    apply rstrip_app_keep; [|exact IH].
    apply join_nonempty. inversion Hws. assumption.
Qed.

Lemma lower_join ws : Forall word ws -> Text.lower (join ws) = join ws.
Proof.
  induction 1 as [|w ws Hw Hws IH]; [reflexivity|].
  destruct ws as [|w' ws'].
  - cbn. apply lower_plain, Hw.
  - change (join (w :: w' :: ws')) with (w ++ String " " (join (w' :: ws')))%string.
    rewrite lower_app. cbn [Text.lower]. rewrite IH, (lower_plain w) by apply Hw. reflexivity.
Qed.

Lemma sub_spaces_app w r :
  string_all plain_char w = true ->
  Text.sub_spaces false (w ++ r) = (w ++ Text.sub_spaces false r)%string.
Proof.
  induction w as [|c w IH]; cbn; [reflexivity|]. intros H.
  apply andb_true_iff in H as [Hc H]. apply andb_true_iff in Hc as [Hc _].
  apply negb_true_iff in Hc. rewrite Hc, (IH H). reflexivity.
Qed.

Lemma sub_spaces_join ws : Forall word ws -> Text.sub_spaces false (join ws) = join ws.
Proof.
  induction 1 as [|w ws Hw Hws IH]; [reflexivity|].
  destruct ws as [|w' ws'].
  - cbn. apply sub_spaces_plain, plain_not_space, Hw.
  - change (join (w :: w' :: ws')) with (w ++ String " " (join (w' :: ws')))%string.
    rewrite sub_spaces_app by apply Hw. f_equal.
    assert (Hw' : word w') by (inversion Hws; assumption).
    destruct (join_head w' ws' Hw') as (c & r & E & Hc). rewrite E in IH |- *.
    apply andb_true_iff in Hc as [Hc _]. apply negb_true_iff in Hc.
    cbn in IH |- *. rewrite Hc in IH |- *. rewrite IH. reflexivity.
Qed.

(** A text of words with one blank between them is left as it is. *)
Lemma normalized_join w ws : Forall word (w :: ws) -> normalized (join (w :: ws)) = join (w :: ws).
Proof.
  intros H. unfold normalized, Text.strip.
  assert (Hl : Text.lstrip (join (w :: ws)) = join (w :: ws)).
  { destruct (join_head w ws) as (c & r & E & Hc); [inversion H; assumption|].
    rewrite E. cbn. apply andb_true_iff in Hc as [Hc _]. apply negb_true_iff in Hc.
    rewrite Hc. reflexivity. }
  rewrite Hl, rstrip_join, lower_join, sub_spaces_join by exact H. reflexivity.
Qed.

Lemma digit_plain c : Text.is_digit c = true -> plain_char c = true.
Proof.
  destruct c as [[] [] [] [] [] [] [] []]; vm_compute; intros H;
    try discriminate H; reflexivity.
Qed.

Lemma digits_word n : digits n -> word n.
Proof.
  intros [Hne H]. split; [exact Hne|]. revert H. apply string_all_impl, digit_plain.
Qed.

Lemma matches_lit_intro w cs : matches (Re.lit w) w cs cs.
Proof.
  induction w as [|c w IH]; cbn; [auto|].
  exists (String c EmptyString), w, cs. auto.
Qed.

Lemma matches_alts_lits ws u cs : In u ws -> matches (Re.alts (map Re.lit ws)) u cs cs.
Proof.
  induction ws as [|w ws IH]; intros Hin; [destruct Hin|].
  destruct ws as [|w' ws'].
  - destruct Hin as [->|[]]. apply matches_lit_intro.
  - change (matches (Re.Alt (Re.lit w) (Re.alts (map Re.lit (w' :: ws')))) u cs cs).
    destruct Hin as [->|Hin]; [left; apply matches_lit_intro | right; apply IH, Hin].
Qed.

Lemma alts_lits_matches ws a cs cs' :
  matches (Re.alts (map Re.lit ws)) a cs cs' -> In a ws /\ cs' = cs.
Proof.
  induction ws as [|w ws IH]; intros H.
  - cbn in H. destruct H as (c & _ & Hc & _). discriminate Hc.
  - destruct ws as [|w' ws'].
    + apply matches_lit in H as [-> ->]. split; [left; reflexivity | reflexivity].
    + change (matches (Re.Alt (Re.lit w) (Re.alts (map Re.lit (w' :: ws')))) a cs cs') in H.
      destruct H as [H|H].
      * apply matches_lit in H as [-> ->]. split; [left; reflexivity | reflexivity].
      * apply IH in H as [H ->]. split; [right; exact H | reflexivity].
Qed.

Lemma append_inv_tail (t a b : string) : (a ++ t)%string = (b ++ t)%string -> a = b.
Proof.
  revert b. induction a as [|x a IH]; intros b H.
  - destruct b as [|y b]; [reflexivity|]. exfalso.
    apply (f_equal String.length) in H. cbn in H. rewrite length_append in H. lia.
  - destruct b as [|y b].
    + exfalso. apply (f_equal String.length) in H. cbn in H. rewrite length_append in H. lia.
    + cbn in H. injection H as -> H. f_equal. apply IH, H.
Qed.

(** No unit word is another one with an [s] after it. *)
Lemma unit_plural_unique days u g p p' :
  In u (unit_words days) -> In g (unit_words days) ->
  p = "" \/ p = "s" -> p' = "" \/ p' = "s" ->
  (u ++ p)%string = (g ++ p')%string -> u = g.
Proof.
  intros Hu Hg Hp Hp' H.
  assert (Hu' : In u (unit_words false)) by (destruct days; cbn in *; tauto).
  assert (Hg' : In g (unit_words false)) by (destruct days; cbn in *; tauto).
  clear Hu Hg. cbn in Hu', Hg'.
  destruct Hp as [->| ->], Hp' as [->| ->];
    decompose [or] Hu'; decompose [or] Hg'; subst; try contradiction;
    try reflexivity; discriminate H.
Qed.

Lemma unit_word days u p : In u (unit_words days) -> p = "" \/ p = "s" -> word (u ++ p).
Proof.
  intros Hu Hp.
  assert (Hu' : In u (unit_words false)) by (destruct days; cbn in *; tauto).
  clear Hu. cbn in Hu'.
  destruct Hp as [->| ->]; decompose [or] Hu'; subst; try contradiction;
    (split; [discriminate | reflexivity]).
Qed.

(** What [in ([0-9]+) (...)s?] takes. *)
Lemma rx_in_shape days s cs :
  Re.fullmatch (rx_in days) s = Some cs ->
  exists g1 g2 p,
    s = ("in " ++ g1 ++ " " ++ g2 ++ p)%string /\ digits g1 /\ In g2 (unit_words days) /\
    (p = "" \/ p = "s") /\ cs = [(2%nat, g2); (1%nat, g1)].
Proof.
  intros H. apply fullmatch_sound in H. unfold rx_in in H. cbn [Re.seqs matches] in H.
  destruct H as (a1 & r1 & cs1 & -> & Hin & a2 & r2 & cs2 & -> & (cs3 & (Hne & Hd & ->) & ->) &
                 a3 & r3 & cs4 & -> & [-> ->] & g2 & p & cs5 & -> & (cs6 & Hu & ->) & Hp).
  apply matches_lit in Hin as [-> ->].
  apply alts_lits_matches in Hu as [Hu ->].
  assert (Hp' : (p = "" \/ p = "s") /\ cs = [(2%nat, g2); (1%nat, a2)])
    by (destruct Hp as [[-> ->]|[-> ->]]; auto).
  destruct Hp' as [Hp' ->].
  exists a2, g2, p. split_all; auto. split; assumption.
Qed.

(** What [([0-9]+) (...)s? ago] takes. *)
Lemma rx_ago_shape days s cs :
  Re.fullmatch (rx_ago days) s = Some cs ->
  exists g1 g2 p,
    s = (g1 ++ " " ++ g2 ++ p ++ " ago")%string /\ digits g1 /\ In g2 (unit_words days) /\
    (p = "" \/ p = "s") /\ cs = [(2%nat, g2); (1%nat, g1)].
Proof.
  intros H. apply fullmatch_sound in H. unfold rx_ago in H. cbn [Re.seqs matches] in H.
  destruct H as (a2 & r2 & cs2 & -> & (cs3 & (Hne & Hd & ->) & ->) &
                 a3 & r3 & cs4 & -> & [-> ->] & g2 & r4 & cs5 & -> & (cs6 & Hu & ->) &
                 p & r5 & cs7 & -> & Hp & Hago).
  apply matches_lit in Hago as [-> ->].
  apply alts_lits_matches in Hu as [Hu ->].
  assert (Hp' : (p = "" \/ p = "s") /\ cs7 = [(2%nat, g2); (1%nat, a2)])
    by (destruct Hp as [[-> ->]|[-> ->]]; auto).
  destruct Hp' as [Hp' ->].
  exists a2, g2, p. split_all; auto. split; assumption.
Qed.

Lemma eqb_digit_other d x :
  Text.is_digit d = true -> Text.is_digit x = false -> Ascii.eqb d x = false.
Proof.
  intros Hd Hx. destruct (Ascii.eqb d x) eqn:E; [|reflexivity].
  apply Ascii.eqb_eq in E. subst x. congruence.
Qed.

Lemma matches_rx_in days n u p :
  digits n -> In u (unit_words days) -> p = "" \/ p = "s" ->
  matches (rx_in days) ("in " ++ n ++ " " ++ u ++ p) [] [(2%nat, u); (1%nat, n)].
Proof.
  intros [Hne Hd] Hu Hp. unfold rx_in. cbn [Re.seqs matches].
  exists "in "%string, (n ++ " " ++ u ++ p)%string, []. split_all; [reflexivity|apply matches_lit_intro|].
  exists n, (" " ++ u ++ p)%string, [(1%nat, n)]. split_all; [reflexivity| |].
  { exists []. auto. }
  exists " "%string, (u ++ p)%string, [(1%nat, n)]. split_all; [reflexivity|auto|reflexivity|].
  exists u, p, [(2%nat, u); (1%nat, n)]. split_all; [reflexivity| |].
  { exists [(1%nat, n)]. split; [apply matches_alts_lits, Hu | reflexivity]. }
  destruct Hp as [->| ->]; [right|left]; auto.
Qed.

Lemma matches_rx_ago days n u p :
  digits n -> In u (unit_words days) -> p = "" \/ p = "s" ->
  matches (rx_ago days) (n ++ " " ++ u ++ p ++ " ago") [] [(2%nat, u); (1%nat, n)].
Proof.
  intros [Hne Hd] Hu Hp. unfold rx_ago. cbn [Re.seqs matches].
  exists n, (" " ++ u ++ p ++ " ago")%string, [(1%nat, n)]. split_all; [reflexivity| |].
  { exists []. auto. }
  exists " "%string, (u ++ p ++ " ago")%string, [(1%nat, n)]. split_all; [reflexivity|auto|reflexivity|].
  exists u, (p ++ " ago")%string, [(2%nat, u); (1%nat, n)]. split_all; [reflexivity| |].
  { exists [(1%nat, n)]. split; [apply matches_alts_lits, Hu | reflexivity]. }
  exists p, " ago"%string, [(2%nat, u); (1%nat, n)]. split_all; [reflexivity| |apply matches_lit_intro].
  destruct Hp as [->| ->]; [right|left]; auto.
Qed.

Lemma fullmatch_rx_in days n u p :
  digits n -> In u (unit_words days) -> p = "" \/ p = "s" ->
  Re.fullmatch (rx_in days) ("in " ++ n ++ " " ++ u ++ p) = Some [(2%nat, u); (1%nat, n)].
Proof.
  intros Hn Hu Hp.
  destruct (Re.fullmatch (rx_in days) ("in " ++ n ++ " " ++ u ++ p)) as [cs|] eqn:E.
  - apply rx_in_shape in E as (g1 & g2 & p' & Hs & [_ Hg1] & Hg2 & Hp' & ->).
    cbn in Hs. injection Hs as Hs.
    apply digits_prefix_unique in Hs as (<- & _ & Hs); try reflexivity; [|apply Hn|exact Hg1].
    rewrite (unit_plural_unique days u g2 p p' Hu Hg2 Hp Hp' Hs). reflexivity.
  - exfalso. eapply fullmatch_complete; [|exact E]. apply matches_rx_in; assumption.
Qed.

Lemma fullmatch_rx_ago days n u p :
  digits n -> In u (unit_words days) -> p = "" \/ p = "s" ->
  Re.fullmatch (rx_ago days) (n ++ " " ++ u ++ p ++ " ago") = Some [(2%nat, u); (1%nat, n)].
Proof.
  intros Hn Hu Hp.
  destruct (Re.fullmatch (rx_ago days) (n ++ " " ++ u ++ p ++ " ago")) as [cs|] eqn:E.
  - apply rx_ago_shape in E as (g1 & g2 & p' & Hs & [_ Hg1] & Hg2 & Hp' & ->).
    cbn [append] in Hs.
    apply digits_prefix_unique in Hs as (<- & _ & Hs); try reflexivity; [|apply Hn|exact Hg1].
    rewrite <- !append_assoc in Hs. apply append_inv_tail in Hs.
    rewrite (unit_plural_unique days u g2 p p' Hu Hg2 Hp Hp' Hs). reflexivity.
  - exfalso. eapply fullmatch_complete; [|exact E]. apply matches_rx_ago; assumption.
Qed.

Lemma fullmatch_rx_in_digit days d r : Text.is_digit d = true ->
  Re.fullmatch (rx_in days) (String d r) = None.
Proof.
  intros Hd. destruct (Re.fullmatch (rx_in days) (String d r)) as [cs|] eqn:E; [|reflexivity].
  apply rx_in_shape in E as (g1 & g2 & p' & Hs & _). cbn in Hs. injection Hs as -> _.
  discriminate Hd.
Qed.

Lemma parse_offset_in h days n u p :
  digits n -> In u (unit_words days) -> p = "" \/ p = "s" ->
  parse_offset h (VStr ("in " ++ n ++ " " ++ u ++ p)) days
  = res_bind (Cal.timedelta_kw (u ++ "s") (Text.digits_value 0 n)) (fun td => Ok (Some td)).
Proof.
  intros Hn Hu Hp.
  pose proof (digits_word n Hn) as Hwn. pose proof (unit_word days u p Hu Hp) as Hwu.
  assert (Hwin : word "in") by (split; [discriminate | reflexivity]).
  assert (Hwago : word "ago") by (split; [discriminate | reflexivity]).
  assert (Hnorm : Text.sub_spaces false (Text.lower (Text.strip ("in " ++ n ++ " " ++ u ++ p)))
                  = ("in " ++ n ++ " " ++ u ++ p)%string).
  { apply (normalized_join "in" [n; (u ++ p)%string]).
    repeat (apply Forall_cons_2; [assumption|]). apply Forall_nil_2. }
  unfold parse_offset. cbn [truthy Text.is_empty append negb]. cbn [append] in Hnorm.
  rewrite Hnorm.
  replace (if days
           then if String.eqb (String "i" (String "n" (String " " (n ++ String " " (u ++ p))))) "today"
                then Some 0
                else if String.eqb (String "i" (String "n" (String " " (n ++ String " " (u ++ p))))) "yesterday"
                     then Some (- Cal.DAY_US)
                     else if String.eqb (String "i" (String "n" (String " " (n ++ String " " (u ++ p))))) "tomorrow"
                          then Some Cal.DAY_US else None
           else if String.eqb (String "i" (String "n" (String " " (n ++ String " " (u ++ p))))) "now"
                then Some 0 else None) with (@None Z) by (destruct days; reflexivity).
  pose proof (fullmatch_rx_in days n u p Hn Hu Hp) as Hm. cbn [append] in Hm. rewrite Hm.
  unfold offset_of_match. cbn [group_text Re.group Nat.eqb default].
  rewrite Z.mul_1_l. reflexivity.
Qed.

Lemma parse_offset_ago h days n u p :
  digits n -> In u (unit_words days) -> p = "" \/ p = "s" ->
  parse_offset h (VStr (n ++ " " ++ u ++ p ++ " ago")) days
  = res_bind (Cal.timedelta_kw (u ++ "s") (- Text.digits_value 0 n)) (fun td => Ok (Some td)).
Proof.
  intros Hn Hu Hp.
  pose proof (digits_word n Hn) as Hwn. pose proof (unit_word days u p Hu Hp) as Hwu.
  assert (Hwin : word "in") by (split; [discriminate | reflexivity]).
  assert (Hwago : word "ago") by (split; [discriminate | reflexivity]).
  destruct Hn as [Hne Hd]. destruct n as [|d n']; [contradiction|].
  assert (Hd0 : Text.is_digit d = true) by (cbn in Hd; apply andb_true_iff in Hd as [H _]; exact H).
  assert (Hnorm : Text.sub_spaces false
                    (Text.lower (Text.strip (String d n' ++ " " ++ u ++ p ++ " ago")))
                  = (String d n' ++ " " ++ u ++ p ++ " ago")%string).
  { pose proof (normalized_join (String d n') [(u ++ p)%string; "ago"%string]) as H.
    cbn [join] in H. unfold normalized in H. rewrite append_assoc in H. cbn [append] in H |- *.
    apply H. repeat (apply Forall_cons_2; [assumption|]). apply Forall_nil_2. }
  unfold parse_offset. cbn [truthy Text.is_empty append negb]. cbn [append] in Hnorm.
  rewrite Hnorm.
  assert (Hfix : forall x w, Text.is_digit x = false ->
            String.eqb (String d (n' ++ String " " (u ++ p ++ " ago"))) (String x w) = false).
  { intros x w Hx. cbn. rewrite (eqb_digit_other d x Hd0 Hx). reflexivity. }
  rewrite !Hfix by reflexivity.
  replace (if days then @None Z else None) with (@None Z) by (destruct days; reflexivity).
  rewrite fullmatch_rx_in_digit by exact Hd0.
  pose proof (fullmatch_rx_ago days (String d n') u p (conj Hne Hd) Hu Hp) as Hm.
  cbn [append] in Hm. rewrite Hm.
  unfold offset_of_match. cbn [group_text Re.group Nat.eqb default].
  replace (-1 * Text.digits_value 0 (String d n')) with (- Text.digits_value 0 (String d n')) by lia.
  reflexivity.
Qed.

(** X11. [parse_offset] reads ["in N unit"] as [N] units and ["N unit ago"] as
    [-N] units, for every run of digits [N] and every unit of its list,
    with or without the plural [s]: the result is what [timedelta] makes
    of the keyword [unit + 's'], so a [TypeError] for [year]. *)
Theorem parse_offset_reads h days n u p :
  digits n -> In u (unit_words days) -> p = "" \/ p = "s" ->
  parse_offset h (VStr ("in " ++ n ++ " " ++ u ++ p)) days
  = res_bind (Cal.timedelta_kw (u ++ "s") (Text.digits_value 0 n)) (fun td => Ok (Some td)) /\
  parse_offset h (VStr (n ++ " " ++ u ++ p ++ " ago")) days
  = res_bind (Cal.timedelta_kw (u ++ "s") (- Text.digits_value 0 n)) (fun td => Ok (Some td)).
Proof.
  intros Hn Hu Hp. split; [apply parse_offset_in | apply parse_offset_ago]; assumption.
Qed.

Lemma parse_offset_reads_witness :
  digits "36" /\ In "hour" (unit_words false) /\ ("s" = "" \/ "s" = "s") /\
  parse_offset [] (VStr ("in " ++ "36" ++ " " ++ "hour" ++ "s")) false
  = res_bind (Cal.timedelta_kw ("hour" ++ "s") (Text.digits_value 0 "36"))
             (fun td => Ok (Some td)) /\
  parse_offset [] (VStr ("36" ++ " " ++ "hour" ++ "s" ++ " ago")) false
  = res_bind (Cal.timedelta_kw ("hour" ++ "s") (- Text.digits_value 0 "36"))
             (fun td => Ok (Some td)).
Proof.
  split; [split; [discriminate | reflexivity]|].
  split; [cbn; tauto|]. split; [right; reflexivity|].
  apply (parse_offset_reads [] false "36" "hour" "s").
  - split; [discriminate | reflexivity].
  - cbn. tauto.
  - right. reflexivity.
Defined.

(** ** Years of four digits *)

(** A year from 1000 on is written with four digits. *)
Lemma format_year_four y : 1000 <= y -> Cal.format_year y = Text.zero_padded 4 y.
Proof.
  intros H. unfold Cal.format_year, Cal.year_width.
  destruct (Z.ltb_spec y 10); [lia|]. destruct (Z.ltb_spec y 100); [lia|].
  destruct (Z.ltb_spec y 1000); [lia|]. reflexivity.
Qed.

Lemma format_datetime_padded d :
  1000 <= year d <= 9999 -> Cal.format_datetime d = padded_datetime d.
Proof.
  intros H. unfold Cal.format_datetime, padded_datetime.
  rewrite (format_year_four _ (proj1 H)). reflexivity.
Qed.

Lemma format_date_padded d :
  1000 <= dyear d <= 9999 -> Cal.format_date d = padded_date d.
Proof.
  intros H. unfold Cal.format_date, padded_date.
  rewrite (format_year_four _ (proj1 H)). reflexivity.
Qed.

(** ** [dump_datetime] and [parse_datetime] *)

Lemma run_d09 {A : Type} z s cs (k : string -> Re.caps -> option A) :
  Re.run Cal.d09 (String (Text.digit_char z) s) cs k = k s cs.
Proof. unfold Cal.d09. cbn. rewrite digit_char_digit. reflexivity. Qed.

Lemma upto_from_all {A : Type} p (k : string -> option A) rest x : forall a n,
  String.length a = n -> string_all p a = true -> k rest = Some x ->
  Re.upto_from n p k (a ++ rest) = Some x.
Proof.
  induction a as [|c a IH]; intros n Hlen Ha Hk.
  - cbn in Hlen. subst n. exact Hk.
  - destruct n as [|n]; [discriminate Hlen|]. cbn in Hlen, Ha |- *.
    apply andb_true_iff in Ha as [Hc Ha]. rewrite Hc.
    rewrite (IH n) by (auto; lia). reflexivity.
Qed.

Ltac pad_const :=
  repeat match goal with
         | |- context [Text.zero_padded ?w ?v] =>
             let s := eval vm_compute in (Text.zero_padded w v) in
             change (Text.zero_padded w v) with s
         end.

Lemma run_rx_Y {A : Type} y rest cs (k : string -> Re.caps -> option A) :
  Re.run Cal.rx_Y (Text.zero_padded 4 y ++ rest) cs k = k rest cs.
Proof.
  unfold Cal.rx_Y. cbn [Text.zero_padded append Re.seqs Re.run].
  rewrite !run_d09. reflexivity.
Qed.

Lemma run_rx_m {A : Type} v rest cs (k : string -> Re.caps -> option A) x :
  1 <= v <= 12 -> k rest cs = Some x ->
  Re.run Cal.rx_m (Text.zero_padded 2 v ++ rest) cs k = Some x.
Proof.
  intros Hv Hk.
  assert (H : v = 1 \/ v = 2 \/ v = 3 \/ v = 4 \/ v = 5 \/ v = 6 \/ v = 7 \/ v = 8 \/ v = 9 \/
              v = 10 \/ v = 11 \/ v = 12) by lia.
  unfold Cal.rx_m, Cal.dr, Cal.c, Cal.d09.
  repeat (destruct H as [->|H]; [pad_const; cbn; rewrite Hk; reflexivity|]).
  subst v. pad_const. cbn. rewrite Hk. reflexivity.
Qed.

Lemma run_rx_d {A : Type} v rest cs (k : string -> Re.caps -> option A) x :
  1 <= v <= 31 -> k rest cs = Some x ->
  Re.run Cal.rx_d (Text.zero_padded 2 v ++ rest) cs k = Some x.
Proof.
  intros Hv Hk.
  assert (H : v = 1 \/ v = 2 \/ v = 3 \/ v = 4 \/ v = 5 \/ v = 6 \/ v = 7 \/ v = 8 \/ v = 9 \/
              v = 10 \/ v = 11 \/ v = 12 \/ v = 13 \/ v = 14 \/ v = 15 \/ v = 16 \/ v = 17 \/
              v = 18 \/ v = 19 \/ v = 20 \/ v = 21 \/ v = 22 \/ v = 23 \/ v = 24 \/ v = 25 \/
              v = 26 \/ v = 27 \/ v = 28 \/ v = 29 \/ v = 30 \/ v = 31) by lia.
  unfold Cal.rx_d, Cal.dr, Cal.c, Cal.d09.
  repeat (destruct H as [->|H]; [pad_const; cbn; rewrite Hk; reflexivity|]).
  subst v. pad_const. cbn. rewrite Hk. reflexivity.
Qed.

Lemma run_rx_H {A : Type} v rest cs (k : string -> Re.caps -> option A) x :
  0 <= v <= 23 -> k rest cs = Some x ->
  Re.run Cal.rx_H (Text.zero_padded 2 v ++ rest) cs k = Some x.
Proof.
  intros Hv Hk.
  assert (H : v = 0 \/ v = 1 \/ v = 2 \/ v = 3 \/ v = 4 \/ v = 5 \/ v = 6 \/ v = 7 \/ v = 8 \/
              v = 9 \/ v = 10 \/ v = 11 \/ v = 12 \/ v = 13 \/ v = 14 \/ v = 15 \/ v = 16 \/
              v = 17 \/ v = 18 \/ v = 19 \/ v = 20 \/ v = 21 \/ v = 22 \/ v = 23) by lia.
  unfold Cal.rx_H, Cal.dr, Cal.c, Cal.d09.
  repeat (destruct H as [->|H]; [pad_const; cbn; rewrite Hk; reflexivity|]).
  subst v. pad_const. cbn. rewrite Hk. reflexivity.
Qed.

(** The tens of a number below 60. *)
Lemma tens_below_60 v : 0 <= v <= 59 ->
  Text.in_range 48 53 (Text.digit_char (v / 10)) = true /\
  Ascii.eqb "6" (Text.digit_char (v / 10)) = false.
Proof.
  intros Hv.
  assert (H : 0 <= v / 10 <= 5).
  { split; [apply Z.div_pos; lia|].
    assert (v / 10 < 6) by (apply Z.div_lt_upper_bound; lia). lia. }
  assert (H' : v / 10 = 0 \/ v / 10 = 1 \/ v / 10 = 2 \/ v / 10 = 3 \/ v / 10 = 4 \/ v / 10 = 5)
    by lia.
  repeat (destruct H' as [->|H']; [split; reflexivity|]). rewrite H'. split; reflexivity.
Qed.

Lemma run_rx_M {A : Type} v rest cs (k : string -> Re.caps -> option A) x :
  0 <= v <= 59 -> k rest cs = Some x ->
  Re.run Cal.rx_M (Text.zero_padded 2 v ++ rest) cs k = Some x.
Proof.
  intros Hv Hk. destruct (tens_below_60 v Hv) as [Ht _].
  unfold Cal.rx_M, Cal.dr. cbn [Text.zero_padded append Re.alts Re.run].
  rewrite Ht, run_d09, Hk. reflexivity.
Qed.

Lemma run_rx_S {A : Type} v rest cs (k : string -> Re.caps -> option A) x :
  0 <= v <= 59 -> k rest cs = Some x ->
  Re.run Cal.rx_S (Text.zero_padded 2 v ++ rest) cs k = Some x.
Proof.
  intros Hv Hk. destruct (tens_below_60 v Hv) as [Ht H6].
  unfold Cal.rx_S, Cal.dr, Cal.c. cbn [Text.zero_padded append Re.alts Re.run Re.lit].
  rewrite H6, Ht, run_d09, Hk. reflexivity.
Qed.

Lemma run_rx_f {A : Type} v rest cs (k : string -> Re.caps -> option A) x :
  k rest cs = Some x ->
  Re.run Cal.rx_f (Text.zero_padded 6 v ++ rest) cs k = Some x.
Proof.
  intros Hk. unfold Cal.rx_f.
  change (Text.zero_padded 6 v)
    with (Text.zero_padded 5 (v / 10) ++ String (Text.digit_char v) "")%string.
  assert (E : exists c a, Text.zero_padded 6 v = String c a /\ Text.is_digit c = true /\
                          String.length a = 5%nat /\ string_all Text.is_digit a = true).
  { pose proof (string_all_zero_padded 6 v) as Hall.
    pose proof (length_zero_padded 6 v) as Hlen.
    destruct (Text.zero_padded 6 v) as [|c a]; [discriminate Hlen|].
    cbn in Hall, Hlen. apply andb_true_iff in Hall as [Hc Ha].
    exists c, a. split_all; auto. }
  destruct E as (c & a & E & Hc & Hlen & Ha).
  change (Text.zero_padded 5 (v / 10) ++ String (Text.digit_char v) "")%string
    with (Text.zero_padded 6 v).
  rewrite E. cbn [append Re.run]. unfold Cal.d09. cbn [Re.run]. rewrite Hc.
  apply upto_from_all; assumption.
Qed.

Lemma valid_datetime_bounds d :
  valid_datetime d ->
  1 <= year d <= 9999 /\ 1 <= month d <= 12 /\ 1 <= day d <= 31 /\
  0 <= hour d <= 23 /\ 0 <= minute d <= 59 /\ 0 <= second d <= 59 /\
  0 <= microsecond d <= 999999.
Proof.
  unfold valid_datetime, Cal.make_datetime. intros H.
  destruct (_ && _) eqn:E in H; [|discriminate H].
  repeat (apply andb_true_iff in E as [E ?]).
  assert (Cal.days_in_month (year d) (month d) <= 31).
  { unfold Cal.days_in_month.
    repeat match goal with |- context [if ?b then _ else _] => destruct b end; lia. }
  lia.
Qed.

Lemma lstrip_zero_padded w n : Text.lstrip (Text.zero_padded (S w) n) = Text.zero_padded (S w) n.
Proof.
  pose proof (string_all_zero_padded (S w) n) as H.
  pose proof (length_zero_padded (S w) n) as Hl.
  destruct (Text.zero_padded (S w) n) as [|c r]; [discriminate Hl|].
  cbn in H |- *. apply andb_true_iff in H as [H _].
  apply digit_facts in H as [-> _]. reflexivity.
Qed.

Ltac next_sep :=
  cbv beta; rewrite ?consumed_app; unfold Cal.c at 1;
  cbn [append Re.lit Re.run Ascii.eqb Bool.eqb].

Lemma match_format_datetime d :
  valid_datetime d ->
  Re.match_prefix Cal.rx_datetime (padded_datetime d)
  = Some ([(7%nat, Text.zero_padded 6 (microsecond d)); (6%nat, Text.zero_padded 2 (second d));
           (5%nat, Text.zero_padded 2 (minute d)); (4%nat, Text.zero_padded 2 (hour d));
           (3%nat, Text.zero_padded 2 (day d)); (2%nat, Text.zero_padded 2 (month d));
           (1%nat, Text.zero_padded 4 (year d))], EmptyString).
Proof.
  intros Hv. apply valid_datetime_bounds in Hv as (Hy & Hm & Hd & HH & HM & HS & Hf).
  unfold Re.match_prefix, Cal.rx_datetime, padded_datetime.
  cbn [Re.seqs Re.run]. rewrite run_rx_Y. next_sep.
  apply run_rx_m; [exact Hm|]. next_sep.
  apply run_rx_d; [exact Hd|]. cbv beta. rewrite consumed_app.
  unfold Re.chr_nocase at 1. cbn [append Re.run]. rewrite Ascii.eqb_refl.
  apply run_rx_H; [exact HH|]. next_sep.
  apply run_rx_M; [exact HM|]. next_sep.
  apply run_rx_S; [exact HS|]. next_sep.
  apply run_rx_f. cbv beta. rewrite consumed_app.
  unfold Re.chr_nocase at 1. cbn [append Re.run]. rewrite Ascii.eqb_refl.
  reflexivity.
Qed.

(** [strptime] reads back what [strftime] wrote. *)
Lemma strptime_format_datetime d :
  valid_datetime d -> Cal.strptime_datetime (padded_datetime d) = Ok d.
Proof.
  intros Hv. unfold Cal.strptime_datetime. rewrite (match_format_datetime d Hv).
  cbn [Text.is_empty].
  pose proof (valid_datetime_bounds d Hv) as (Hy & Hm & Hd & HH & HM & HS & Hf).
  unfold Cal.field, Cal.fraction. cbn [Re.group Nat.eqb].
  rewrite !lstrip_zero_padded, length_zero_padded.
  rewrite !zero_padded_value by (cbn; lia).
  replace (microsecond d * 10 ^ (6 - Z.of_nat 6)) with (microsecond d) by (cbn; lia).
  exact Hv.
Qed.

Lemma fullmatch_rx_ago_dash days y R : digits y ->
  Re.fullmatch (rx_ago days) (y ++ String "-" R) = None.
Proof.
  intros [_ Hy].
  destruct (Re.fullmatch (rx_ago days) (y ++ String "-" R)) as [cs|] eqn:E; [|reflexivity].
  apply rx_ago_shape in E as (g1 & g2 & p' & Hs & [_ Hg1] & _). cbn [append] in Hs.
  apply digits_prefix_unique in Hs as (_ & Hc & _); try reflexivity; try assumption.
  discriminate Hc.
Qed.

(** A text that is, once normalized, a run of digits and a dash is no
    offset. *)
Lemma parse_offset_none h s days y R :
  s <> EmptyString -> normalized s = (y ++ String "-" R)%string -> digits y ->
  parse_offset h (VStr s) days = Ok None.
Proof.
  intros Hs Hn Hy. unfold parse_offset. cbn [truthy].
  destruct s as [|c0 s0]; [contradiction|]. cbn [Text.is_empty negb].
  fold (normalized (String c0 s0)). rewrite Hn.
  destruct Hy as [Hne Hd]. destruct y as [|d y']; [contradiction|].
  assert (Hd0 : Text.is_digit d = true) by (cbn in Hd; apply andb_true_iff in Hd as [H _]; exact H).
  cbn [append].
  assert (Hfix : forall x w, Text.is_digit x = false ->
            String.eqb (String d (y' ++ String "-" R)) (String x w) = false).
  { intros x w Hx. cbn. rewrite (eqb_digit_other d x Hd0 Hx). reflexivity. }
  rewrite !Hfix by reflexivity.
  replace (if days then @None Z else None) with (@None Z) by (destruct days; reflexivity).
  rewrite fullmatch_rx_in_digit by exact Hd0.
  change (String d (y' ++ String "-" R)) with (String d y' ++ String "-" R)%string.
  rewrite fullmatch_rx_ago_dash by (split; assumption). reflexivity.
Qed.

Lemma plain_format_datetime d :
  string_all (fun c => negb (Text.is_space c)) (padded_datetime d) = true.
Proof.
  unfold padded_datetime.
  repeat (rewrite string_all_app; apply andb_true_iff; split;
          [apply digits_plain, string_all_zero_padded|]; try (cbn [append string_all];
          apply andb_true_iff; split; [reflexivity|])).
  reflexivity.
Qed.

Lemma normalized_dash y R :
  string_all Text.is_digit y = true ->
  string_all (fun c => negb (Text.is_space c)) (y ++ String "-" R) = true ->
  exists R', normalized (y ++ String "-" R) = (y ++ String "-" R')%string.
Proof.
  intros Hy Hall. unfold normalized. rewrite (strip_all _ Hall).
  rewrite lower_app, (lower_digits y Hy). cbn [Text.lower].
  rewrite sub_spaces_app by (revert Hy; apply string_all_impl, digit_plain).
  cbn. eauto.
Qed.

Lemma format_datetime_nonempty d : padded_datetime d <> EmptyString.
Proof. unfold padded_datetime. cbn [Text.zero_padded append]. discriminate. Qed.

Lemma parse_format_datetime lib st d default :
  valid_datetime d ->
  parse_datetime lib st (VStr (padded_datetime d)) default = Ok (Some d).
Proof.
  intros Hv.
  assert (Hoff : parse_offset (heap st) (VStr (padded_datetime d)) false = Ok None).
  { destruct (normalized_dash (Text.zero_padded 4 (year d))
                (Text.zero_padded 2 (month d) ++ "-"
                 ++ Text.zero_padded 2 (day d) ++ "T" ++ Text.zero_padded 2 (hour d) ++ ":"
                 ++ Text.zero_padded 2 (minute d) ++ ":" ++ Text.zero_padded 2 (second d) ++ "."
                 ++ Text.zero_padded 6 (microsecond d) ++ "Z"))
      as [R' HR].
    - apply string_all_zero_padded.
    - apply plain_format_datetime.
    - eapply parse_offset_none; [apply format_datetime_nonempty | exact HR|].
      split; [|apply string_all_zero_padded].
      intros E. apply (f_equal String.length) in E. rewrite length_zero_padded in E.
      discriminate E. }
  unfold parse_datetime. cbn [truthy].
  destruct (padded_datetime d) as [|c r] eqn:E; [exfalso; eapply format_datetime_nonempty, E|].
  cbn [Text.is_empty negb]. rewrite Hoff. cbn [res_bind offset_truthy].
  rewrite <- E, strip_all by apply plain_format_datetime.
  rewrite strptime_format_datetime by exact Hv. reflexivity.
Qed.

(** X12. [parse_datetime] undoes [dump_datetime]: an instant that is written and
    read back is the same instant.  (Years below 1000 are left out:
    [strftime] does not always write them with four digits.) *)
Theorem datetime_round_trip lib st d :
  valid_datetime d -> 1000 <= year d ->
  exists t, dump_datetime (Some d) = Some t /\
            forall default, parse_datetime lib st (VStr t) default = Ok (Some d).
Proof.
  intros Hv Hy. exists (Cal.format_datetime d). split; [reflexivity|].
  intros default. rewrite format_datetime_padded.
  - apply parse_format_datetime, Hv.
  - apply valid_datetime_bounds in Hv. lia.
Qed.

Lemma datetime_round_trip_witness :
  valid_datetime (mk_datetime 2024 2 29 23 59 59 123456) /\
  1000 <= year (mk_datetime 2024 2 29 23 59 59 123456) /\
  exists t, dump_datetime (Some (mk_datetime 2024 2 29 23 59 59 123456)) = Some t /\
            forall default,
              parse_datetime example_lib (initial_state example_now) (VStr t) default
              = Ok (Some (mk_datetime 2024 2 29 23 59 59 123456)).
Proof.
  split; [reflexivity|]. split; [cbn; lia|].
  apply (datetime_round_trip example_lib (initial_state example_now)
           (mk_datetime 2024 2 29 23 59 59 123456)).
  - reflexivity.
  - cbn. lia.
Defined.

(** ** [dump_date] and [parse_date] *)

Lemma valid_date_bounds d :
  valid_date d -> 1 <= dyear d <= 9999 /\ 1 <= dmonth d <= 12 /\ 1 <= dday d <= 31.
Proof.
  unfold valid_date, Cal.make_date. intros H.
  destruct (_ && _) eqn:E in H; [|discriminate H].
  repeat (apply andb_true_iff in E as [E ?]).
  assert (Cal.days_in_month (dyear d) (dmonth d) <= 31).
  { unfold Cal.days_in_month.
    repeat match goal with |- context [if ?b then _ else _] => destruct b end; lia. }
  lia.
Qed.

Lemma match_format_date d :
  valid_date d ->
  Re.match_prefix Cal.rx_date (padded_date d)
  = Some ([(3%nat, Text.zero_padded 2 (dday d)); (2%nat, Text.zero_padded 2 (dmonth d));
           (1%nat, Text.zero_padded 4 (dyear d))], EmptyString).
Proof.
  intros Hv. apply valid_date_bounds in Hv as (Hy & Hm & Hd).
  unfold Re.match_prefix, Cal.rx_date, padded_date.
  cbn [Re.seqs Re.run]. rewrite run_rx_Y. next_sep.
  apply run_rx_m; [exact Hm|]. next_sep.
  rewrite <- (append_nil_r (Text.zero_padded 2 (dday d))).
  apply run_rx_d; [exact Hd|]. rewrite consumed_app, append_nil_r. reflexivity.
Qed.

Lemma strptime_format_date d : valid_date d -> Cal.strptime_date (padded_date d) = Ok d.
Proof.
  intros Hv. unfold Cal.strptime_date. rewrite (match_format_date d Hv).
  cbn [Text.is_empty].
  pose proof (valid_date_bounds d Hv) as (Hy & Hm & Hd).
  unfold Cal.field. cbn [Re.group Nat.eqb].
  rewrite !lstrip_zero_padded.
  rewrite !zero_padded_value by (cbn; lia).
  exact Hv.
Qed.

Lemma plain_format_date d :
  string_all (fun c => negb (Text.is_space c)) (padded_date d) = true.
Proof.
  unfold padded_date.
  repeat (rewrite string_all_app; apply andb_true_iff; split;
          [apply digits_plain, string_all_zero_padded|]; try (cbn [append string_all];
          apply andb_true_iff; split; [reflexivity|])).
  apply digits_plain, string_all_zero_padded.
Qed.

Lemma parse_format_date lib st d default :
  valid_date d -> parse_date lib st (VStr (padded_date d)) default = Ok (VDate d).
Proof.
  intros Hv.
  assert (Hne : padded_date d <> EmptyString).
  { intros E. apply (f_equal String.length) in E. unfold padded_date in E.
    rewrite length_append, length_zero_padded in E. discriminate E. }
  assert (Hoff : parse_offset (heap st) (VStr (padded_date d)) true = Ok None).
  { destruct (normalized_dash (Text.zero_padded 4 (dyear d))
                (Text.zero_padded 2 (dmonth d) ++ "-" ++ Text.zero_padded 2 (dday d)))
      as [R' HR].
    - apply string_all_zero_padded.
    - apply plain_format_date.
    - eapply parse_offset_none; [exact Hne | exact HR|].
      split; [|apply string_all_zero_padded].
      intros E. apply (f_equal String.length) in E. rewrite length_zero_padded in E.
      discriminate E. }
  unfold parse_date. cbn [truthy].
  destruct (padded_date d) as [|c r] eqn:E; [contradiction|].
  cbn [Text.is_empty negb]. rewrite Hoff. cbn [res_bind offset_truthy].
  rewrite <- E, strip_all by apply plain_format_date.
  rewrite strptime_format_date by exact Hv. reflexivity.
Qed.

(** X13. [parse_date] undoes [dump_date], for the years that are written with
    four digits. *)
Theorem date_round_trip lib st d :
  valid_date d -> 1000 <= dyear d ->
  exists t, dump_date (Some d) = Some t /\
            forall default, parse_date lib st (VStr t) default = Ok (VDate d).
Proof.
  intros Hv Hy. exists (Cal.format_date d). split; [reflexivity|].
  intros default. rewrite format_date_padded.
  - apply parse_format_date, Hv.
  - apply valid_date_bounds in Hv. lia.
Qed.

Lemma date_round_trip_witness :
  valid_date (mk_date 2023 12 31) /\ 1000 <= dyear (mk_date 2023 12 31) /\
  exists t, dump_date (Some (mk_date 2023 12 31)) = Some t /\
            forall default,
              parse_date example_lib (initial_state example_now) (VStr t) default
              = Ok (VDate (mk_date 2023 12 31)).
Proof.
  split; [reflexivity|]. split; [cbn; lia|].
  apply (date_round_trip example_lib (initial_state example_now) (mk_date 2023 12 31)).
  - reflexivity.
  - cbn. lia.
Defined.

(** ** [parse_datetime]: relative instants *)

Lemma strip_join w ws : Forall word (w :: ws) -> Text.strip (join (w :: ws)) = join (w :: ws).
Proof.
  intros H. unfold Text.strip.
  assert (Hl : Text.lstrip (join (w :: ws)) = join (w :: ws)).
  { destruct (join_head w ws) as (c & r & E & Hc); [inversion H; assumption|].
    rewrite E. cbn. apply andb_true_iff in Hc as [Hc _]. apply negb_true_iff in Hc.
    rewrite Hc. reflexivity. }
  rewrite Hl. apply rstrip_join, H.
Qed.

Lemma strptime_nondigit c r :
  Text.is_digit c = false -> Cal.strptime_datetime (String c r) = Raise ValueError.
Proof.
  intros H. unfold Cal.strptime_datetime, Re.match_prefix, Cal.rx_datetime, Cal.rx_Y, Cal.d09.
  cbn [Re.seqs Re.run]. rewrite H. reflexivity.
Qed.

Lemma strptime_digits_blank n r :
  string_all Text.is_digit n = true ->
  Cal.strptime_datetime (n ++ String " " r) = Raise ValueError.
Proof.
  intros Hn. unfold Cal.strptime_datetime.
  destruct (Re.match_prefix Cal.rx_datetime (n ++ String " " r)) as [[cs rest]|] eqn:E;
    [|reflexivity].
  exfalso. apply match_prefix_sound in E as (a & Ha & Hm).
  unfold Cal.rx_datetime in Hm. cbn [Re.seqs matches] in Hm.
  destruct Hm as (y & a2 & cs1 & -> & (cs0 & Hy & _) & b1 & b2 & cs2 & -> & Hdash & _).
  unfold Cal.c in Hdash. apply matches_lit in Hdash as [-> _].
  assert (Hyd : string_all Text.is_digit y = true).
  { unfold Cal.rx_Y, Cal.d09 in Hy. cbn [Re.seqs matches] in Hy.
    destruct Hy as (y1 & r1 & c1 & -> & (x1 & -> & H1 & _) & y2 & r2 & c2 & -> &
                    (x2 & -> & H2 & _) & y3 & r3 & c3 & -> & (x3 & -> & H3 & _) &
                    x4 & -> & H4 & _).
    cbn. rewrite H1, H2, H3, H4. reflexivity. }
  rewrite !append_assoc in Ha. cbn [append] in Ha.
  apply digits_prefix_unique in Ha as (_ & Hc & _); try reflexivity; try assumption.
  discriminate Hc.
Qed.

Lemma parse_datetime_offset lib st s default r :
  s <> EmptyString ->
  parse_offset (heap st) (VStr s) false = res_bind r (fun td => Ok (Some td)) ->
  Cal.strptime_datetime (Text.strip s) = Raise ValueError ->
  parse_datetime lib st (VStr s) default = instant_after (clock st) r.
Proof.
  intros Hs Hoff Hstrp. unfold parse_datetime. cbn [truthy].
  destruct s as [|c0 s0]; [contradiction|]. cbn [Text.is_empty negb].
  rewrite Hoff. destruct r as [td|e]; [|reflexivity].
  cbn [res_bind offset_truthy instant_after]. destruct (td =? 0); [|reflexivity].
  rewrite Hstrp. reflexivity.
Qed.

(** X14. [parse_datetime] reads ["in N unit"] as the instant [N] units after
    now and ["N unit ago"] as the instant [N] units before now, when [N]
    is not zero; it raises [ValueError] when [N] is zero, and the
    [TypeError] of [timedelta] when the unit is [year]. *)
Theorem relative_instant lib st default n u p :
  digits n -> In u (unit_words false) -> p = "" \/ p = "s" ->
  parse_datetime lib st (VStr ("in " ++ n ++ " " ++ u ++ p)) default
  = instant_after (clock st) (Cal.timedelta_kw (u ++ "s") (Text.digits_value 0 n)) /\
  parse_datetime lib st (VStr (n ++ " " ++ u ++ p ++ " ago")) default
  = instant_after (clock st) (Cal.timedelta_kw (u ++ "s") (- Text.digits_value 0 n)).
Proof.
  intros Hn Hu Hp.
  pose proof (digits_word n Hn) as Hwn. pose proof (unit_word false u p Hu Hp) as Hwu.
  assert (Hwin : word "in") by (split; [discriminate | reflexivity]).
  assert (Hwago : word "ago") by (split; [discriminate | reflexivity]).
  split.
  - apply parse_datetime_offset.
    + discriminate.
    + apply parse_offset_in; assumption.
    + pose proof (strip_join "in" [n; (u ++ p)%string]) as H. cbn [join append] in H |- *.
      rewrite H by (repeat (apply Forall_cons_2; [assumption|]); apply Forall_nil_2).
      apply strptime_nondigit. reflexivity.
  - apply parse_datetime_offset.
    + destruct Hn as [Hne _]. destruct n; [contradiction | discriminate].
    + apply parse_offset_ago; assumption.
    + pose proof (strip_join n [(u ++ p)%string; "ago"%string]) as H. cbn [join] in H.
      rewrite append_assoc in H. cbn [append] in H |- *.
      rewrite H by (repeat (apply Forall_cons_2; [assumption|]); apply Forall_nil_2).
      apply strptime_digits_blank, Hn.
Qed.

Lemma relative_instant_witness :
  digits "2" /\ In "week" (unit_words false) /\ ("s" = "" \/ "s" = "s") /\
  parse_datetime example_lib (initial_state example_now)
                 (VStr ("in " ++ "2" ++ " " ++ "week" ++ "s")) None
  = instant_after (clock (initial_state example_now))
                  (Cal.timedelta_kw ("week" ++ "s") (Text.digits_value 0 "2")) /\
  parse_datetime example_lib (initial_state example_now)
                 (VStr ("2" ++ " " ++ "week" ++ "s" ++ " ago")) None
  = instant_after (clock (initial_state example_now))
                  (Cal.timedelta_kw ("week" ++ "s") (- Text.digits_value 0 "2")).
Proof.
  split; [split; [discriminate | reflexivity]|].
  split; [cbn; tauto|]. split; [right; reflexivity|].
  apply (relative_instant example_lib (initial_state example_now) None "2" "week" "s").
  - split; [discriminate | reflexivity].
  - cbn. tauto.
  - right. reflexivity.
Defined.

(** Two weeks from the first of June 2024 at noon, and two weeks before. *)
Example in_two_weeks :
  instant_after example_now (Cal.timedelta_kw "weeks" 2)
  = Ok (Some (mk_datetime 2024 6 15 12 0 0 0)) /\
  instant_after example_now (Cal.timedelta_kw "weeks" (-2))
  = Ok (Some (mk_datetime 2024 5 18 12 0 0 0)) /\
  instant_after example_now (Cal.timedelta_kw "weeks" 0) = Raise ValueError /\
  instant_after example_now (Cal.timedelta_kw "years" 2) = Raise TypeError.
Proof. split_all; vm_compute; reflexivity. Qed.

(** ** [dump_datetime]: the texts sort as the instants *)

Lemma compare_digit_char a b :
  Ascii.compare (Text.digit_char a) (Text.digit_char b) = (a mod 10 ?= b mod 10).
Proof.
  unfold Ascii.compare, Text.digit_char.
  assert (Ha : 0 <= a mod 10 < 10) by (apply Z.mod_pos_bound; lia).
  assert (Hb : 0 <= b mod 10 < 10) by (apply Z.mod_pos_bound; lia).
  rewrite !N_ascii_embedding by lia.
  rewrite <- N2Z.inj_compare, !N2Z.inj_add, !Z2N.id by lia.
  change (Z.of_N 48) with 48.
  rewrite !(Z.add_comm _ 48). apply Z.add_compare_mono_l.
Qed.

Lemma compare_tens a b :
  0 <= a -> 0 <= b ->
  (a ?= b) = match a / 10 ?= b / 10 with
             | Eq => a mod 10 ?= b mod 10
             | c => c
             end.
Proof.
  intros Ha Hb.
  pose proof (Z.div_mod a 10 ltac:(lia)). pose proof (Z.div_mod b 10 ltac:(lia)).
  pose proof (Z.mod_pos_bound a 10 ltac:(lia)). pose proof (Z.mod_pos_bound b 10 ltac:(lia)).
  destruct (Z.compare_spec (a / 10) (b / 10)) as [E|E|E].
  - destruct (Z.compare_spec (a mod 10) (b mod 10)).
    + apply Z.compare_eq_iff. lia.
    + apply Z.compare_lt_iff. lia.
    + apply Z.compare_gt_iff. lia.
  - apply Z.compare_lt_iff. lia.
  - apply Z.compare_gt_iff. lia.
Qed.

(** Numbers written with the same number of digits sort as numbers. *)
Lemma compare_zero_padded w : forall a b s t,
  0 <= a < 10 ^ Z.of_nat w -> 0 <= b < 10 ^ Z.of_nat w ->
  String.compare (Text.zero_padded w a ++ s) (Text.zero_padded w b ++ t)
  = match a ?= b with
    | Eq => String.compare s t
    | c => c
    end.
Proof.
  induction w as [|w IH]; intros a b s t Ha Hb.
  - cbn in Ha, Hb. assert (a = 0) by lia. assert (b = 0) by lia. subst. reflexivity.
  - rewrite Nat2Z.inj_succ, Z.pow_succ_r in Ha, Hb by lia.
    cbn [Text.zero_padded]. rewrite !append_assoc. cbn [append].
    rewrite IH.
    2: { split; [apply Z.div_pos; lia | apply Z.div_lt_upper_bound; lia]. }
    2: { split; [apply Z.div_pos; lia | apply Z.div_lt_upper_bound; lia]. }
    rewrite (compare_tens a b) by lia.
    destruct (a / 10 ?= b / 10); try reflexivity.
    cbn [String.compare]. rewrite compare_digit_char.
    destruct (a mod 10 ?= b mod 10); reflexivity.
Qed.

Lemma compare_same_head c s t :
  String.compare (String c s) (String c t) = String.compare s t.
Proof.
  cbn [String.compare]. unfold Ascii.compare. now rewrite N.compare_refl.
Qed.

Lemma format_datetime_sorts a b :
  valid_datetime a -> valid_datetime b ->
  String.compare (padded_datetime a) (padded_datetime b) = Cal.compare a b.
Proof.
  intros Ha Hb.
  apply valid_datetime_bounds in Ha as (Ha1 & Ha2 & Ha3 & Ha4 & Ha5 & Ha6 & Ha7).
  apply valid_datetime_bounds in Hb as (Hb1 & Hb2 & Hb3 & Hb4 & Hb5 & Hb6 & Hb7).
  unfold padded_datetime, Cal.compare, Cal.fields. cbn [Cal.cmp_fields].
  rewrite compare_zero_padded by (cbn; lia).
  destruct (year a ?= year b); try reflexivity. cbn [append].
  rewrite compare_same_head, compare_zero_padded by (cbn; lia).
  destruct (month a ?= month b); try reflexivity. cbn [append].
  rewrite compare_same_head, compare_zero_padded by (cbn; lia).
  destruct (day a ?= day b); try reflexivity. cbn [append].
  rewrite compare_same_head, compare_zero_padded by (cbn; lia).
  destruct (hour a ?= hour b); try reflexivity. cbn [append].
  rewrite compare_same_head, compare_zero_padded by (cbn; lia).
  destruct (minute a ?= minute b); try reflexivity. cbn [append].
  rewrite compare_same_head, compare_zero_padded by (cbn; lia).
  destruct (second a ?= second b); try reflexivity. cbn [append].
  rewrite compare_same_head, compare_zero_padded by (cbn; lia).
  destruct (microsecond a ?= microsecond b); reflexivity.
Qed.

(** X15. [dump_datetime] (utils.py): the format is sortable. The texts of two
    instants of the years 1000 to 9999 compare, character by character as
    Python compares [str], the way the instants themselves compare; so
    equal texts come from equal instants only, and [<=] on the texts is
    [<=] on the instants. *)
Theorem dumped_instants_sort a b ta tb :
  valid_datetime a -> valid_datetime b ->
  1000 <= year a -> 1000 <= year b ->
  dump_datetime (Some a) = Some ta ->
  dump_datetime (Some b) = Some tb ->
  String.compare ta tb = Cal.compare a b.
Proof.
  intros Ha Hb Hya Hyb [= <-] [= <-].
  rewrite !format_datetime_padded.
  - now apply format_datetime_sorts.
  - apply valid_datetime_bounds in Hb. lia.
  - apply valid_datetime_bounds in Ha. lia.
Qed.

Lemma dumped_instants_sort_witness :
  String.compare "2024-02-29T23:59:59.123456Z" "2024-03-01T00:00:00.000000Z"
  = Cal.compare (mk_datetime 2024 2 29 23 59 59 123456) (mk_datetime 2024 3 1 0 0 0 0).
Proof.
  apply (dumped_instants_sort (mk_datetime 2024 2 29 23 59 59 123456)
                              (mk_datetime 2024 3 1 0 0 0 0)).
  - reflexivity.
  - reflexivity.
  - cbn. lia.
  - cbn. lia.
  - reflexivity.
  - reflexivity.
Defined.

(** ** [parse_date]: relative dates *)

Lemma strptime_date_nondigit c r :
  Text.is_digit c = false -> Cal.strptime_date (String c r) = Raise ValueError.
Proof.
  intros H. unfold Cal.strptime_date, Re.match_prefix, Cal.rx_date, Cal.rx_Y, Cal.d09.
  cbn [Re.seqs Re.run]. rewrite H. reflexivity.
Qed.

Lemma strptime_date_digits_blank n r :
  string_all Text.is_digit n = true ->
  Cal.strptime_date (n ++ String " " r) = Raise ValueError.
Proof.
  intros Hn. unfold Cal.strptime_date.
  destruct (Re.match_prefix Cal.rx_date (n ++ String " " r)) as [[cs rest]|] eqn:E;
    [|reflexivity].
  exfalso. apply match_prefix_sound in E as (a & Ha & Hm).
  unfold Cal.rx_date in Hm. cbn [Re.seqs matches] in Hm.
  destruct Hm as (y & a2 & cs1 & -> & (cs0 & Hy & _) & b1 & b2 & cs2 & -> & Hdash & _).
  unfold Cal.c in Hdash. apply matches_lit in Hdash as [-> _].
  assert (Hyd : string_all Text.is_digit y = true).
  { unfold Cal.rx_Y, Cal.d09 in Hy. cbn [Re.seqs matches] in Hy.
    destruct Hy as (y1 & r1 & c1 & -> & (x1 & -> & H1 & _) & y2 & r2 & c2 & -> &
                    (x2 & -> & H2 & _) & y3 & r3 & c3 & -> & (x3 & -> & H3 & _) &
                    x4 & -> & H4 & _).
    cbn. rewrite H1, H2, H3, H4. reflexivity. }
  rewrite !append_assoc in Ha. cbn [append] in Ha.
  apply digits_prefix_unique in Ha as (_ & Hc & _); try reflexivity; try assumption.
  discriminate Hc.
Qed.

Lemma parse_date_offset lib st s default r :
  s <> EmptyString ->
  parse_offset (heap st) (VStr s) true = res_bind r (fun td => Ok (Some td)) ->
  Cal.strptime_date (Text.strip s) = Raise ValueError ->
  parse_date lib st (VStr s) default = date_after (Cal.date_of (clock st)) r.
Proof.
  intros Hs Hoff Hstrp. unfold parse_date. cbn [truthy].
  destruct s as [|c0 s0]; [contradiction|]. cbn [Text.is_empty negb].
  rewrite Hoff. destruct r as [td|e]; [|reflexivity].
  cbn [res_bind offset_truthy date_after]. destruct (td =? 0); [|reflexivity].
  rewrite Hstrp. reflexivity.
Qed.

(** X16. [parse_date] reads ["in N unit"] as the date [N] units after today and
    ["N unit ago"] as the date [N] units before today, for the units [week]
    and [day] and [N] not zero; it raises [ValueError] when [N] is zero, as
    it does for ["today"], and the [TypeError] of [timedelta] when the unit
    is [year].  ["tomorrow"] and ["yesterday"] are the days next to today. *)
Theorem relative_date lib st default n u p :
  digits n -> In u (unit_words true) -> p = "" \/ p = "s" ->
  parse_date lib st (VStr ("in " ++ n ++ " " ++ u ++ p)) default
  = date_after (Cal.date_of (clock st)) (Cal.timedelta_kw (u ++ "s") (Text.digits_value 0 n)) /\
  parse_date lib st (VStr (n ++ " " ++ u ++ p ++ " ago")) default
  = date_after (Cal.date_of (clock st)) (Cal.timedelta_kw (u ++ "s") (- Text.digits_value 0 n)) /\
  parse_date lib st (VStr "today") default = Raise ValueError /\
  parse_date lib st (VStr "tomorrow") default
  = date_after (Cal.date_of (clock st)) (Cal.timedelta_kw "days" 1) /\
  parse_date lib st (VStr "yesterday") default
  = date_after (Cal.date_of (clock st)) (Cal.timedelta_kw "days" (-1)).
Proof.
  intros Hn Hu Hp.
  pose proof (digits_word n Hn) as Hwn. pose proof (unit_word true u p Hu Hp) as Hwu.
  assert (Hwin : word "in") by (split; [discriminate | reflexivity]).
  assert (Hwago : word "ago") by (split; [discriminate | reflexivity]).
  split_all.
  - apply parse_date_offset.
    + discriminate.
    + apply parse_offset_in; assumption.
    + pose proof (strip_join "in" [n; (u ++ p)%string]) as H. cbn [join append] in H |- *.
      rewrite H by (repeat (apply Forall_cons_2; [assumption|]); apply Forall_nil_2).
      apply strptime_date_nondigit. reflexivity.
  - apply parse_date_offset.
    + destruct Hn as [Hne _]. destruct n; [contradiction | discriminate].
    + apply parse_offset_ago; assumption.
    + pose proof (strip_join n [(u ++ p)%string; "ago"%string]) as H. cbn [join] in H.
      rewrite append_assoc in H. cbn [append] in H |- *.
      rewrite H by (repeat (apply Forall_cons_2; [assumption|]); apply Forall_nil_2).
      apply strptime_date_digits_blank, Hn.
  - reflexivity.
  - reflexivity.
  - reflexivity.
Qed.

Lemma relative_date_witness :
  parse_date example_lib (initial_state example_now) (VStr "in 2 weeks") VNone
  = Ok (VDate (mk_date 2024 6 15)) /\
  parse_date example_lib (initial_state example_now) (VStr "2 weeks ago") VNone
  = Ok (VDate (mk_date 2024 5 18)).
Proof.
  destruct (relative_date example_lib (initial_state example_now) VNone "2" "week" "s")
    as (H1 & H2 & _).
  - split; [discriminate | reflexivity].
  - cbn. tauto.
  - right. reflexivity.
  - split; [exact H1 | exact H2].
Defined.

(** ** [Coordinate]: sums, opposites and merged positions *)

Lemma new_coordinate_returns x y z st :
  caches_ok st ->
  returns (new_coordinate x y z) st (fun r st' =>
    r = VObj Coordinate (next_id st) (length (heap st)) /\
    heap st' = heap st ++ [[(VStr "x", x); (VStr "y", y); (VStr "z", z)]; []] /\
    caches_ok st').
Proof.
  intros Hok. unfold new_coordinate.
  apply returns_bind. eexists _, _. split; [reflexivity|].
  unfold construct. change (is_point_class Coordinate) with false. cbv iota.
  set (d := [(VStr "x", x); (VStr "y", y); (VStr "z", z)]).
  set (st0 := set_heap (heap st ++ [d]) st).
  assert (Hok0 : caches_ok st0) by (apply caches_ok_set_heap, Hok).
  assert (Hd : data_ok (heap st0) (VDict (length (heap st)))).
  { cbn. rewrite length_app. cbn. lia. }
  apply returns_bind.
  eapply returns_weaken; [apply Entity_new_returns; assumption|].
  cbn beta zeta. intros self st1 (-> & Hheap & Hok1).
  apply returns_bind.
  eexists tt, _. split; [apply Entity_init_returns|]. apply returns_ret.
  assert (Hs : store_of (heap st0) (VDict (length (heap st))) = length (heap st)).
  { unfold store_of, st0. cbn [heap set_heap]. rewrite heap_get_snoc. reflexivity. }
  assert (Hh1 : heap st1 = heap st ++ [d; []]).
  { rewrite Hheap, Hs. unfold st0. cbn [heap set_heap].
    rewrite heap_get_app_l by (rewrite length_app; cbn; lia).
    rewrite heap_get_snoc.
    change (with_defaults (field_names Coordinate) d) with d.
    rewrite <- app_assoc. cbn [app].
    rewrite insert_app_r_alt by lia. rewrite Nat.sub_diag. reflexivity. }
  rewrite Hs, dict_update_nil, insert_heap_get, set_heap_id.
  split; [reflexivity|]. split; [exact Hh1 | exact Hok1].
Qed.

Lemma attr_getattr self k v st :
  attr (heap st) self k = Some v -> getattr self k st = (Ok v, st).
Proof.
  destruct self; try discriminate. cbn [attr]. apply getattr_returns.
Qed.

Lemma attr_new_coordinate h id x y z :
  let h' := h ++ [[(VStr "x", x); (VStr "y", y); (VStr "z", z)]; []] in
  attr h' (VObj Coordinate id (length h)) "x" = Some x /\
  attr h' (VObj Coordinate id (length h)) "y" = Some y /\
  attr h' (VObj Coordinate id (length h)) "z" = Some z.
Proof.
  cbn [attr]. unfold heap_get. rewrite lookup_app_r by lia. rewrite Nat.sub_diag.
  split_all; reflexivity.
Qed.

Lemma attr_kept h x self k v : attr h self k = Some v -> attr (h ++ x) self k = Some v.
Proof.
  destruct self; try discriminate. cbn [attr]. unfold heap_get. intros H.
  destruct (h !! l) as [d|] eqn:E; [|discriminate H].
  rewrite lookup_app_l by (apply lookup_lt_Some in E; exact E). rewrite E. exact H.
Qed.

Lemma at_position_kept h x self a b c :
  at_position h self a b c -> at_position (h ++ x) self a b c.
Proof. intros (H1 & H2 & H3). unfold at_position. split_all; apply attr_kept; assumption. Qed.

Lemma new_record_app st id st' x :
  heap st' = heap st ++ x -> new_record st (VObj Coordinate id (length (heap st))) st'.
Proof.
  intros Hh. split.
  - eexists _, _. split; [reflexivity | lia].
  - intros l Hl. rewrite Hh. apply heap_get_app_l, Hl.
Qed.

(** The sum of two records with integer coordinates. *)
Lemma Coordinate_add_ints depth a b x1 y1 z1 x2 y2 z2 st :
  caches_ok st -> at_position (heap st) a x1 y1 z1 -> at_position (heap st) b x2 y2 z2 ->
  returns (Coordinate_add (S depth) a b) st (fun r st' =>
    r = VObj Coordinate (next_id st) (length (heap st)) /\
    heap st' = heap st ++ [[(VStr "x", VInt (x1 + x2)); (VStr "y", VInt (y1 + y2));
                            (VStr "z", VInt (z1 + z2))]; []] /\
    caches_ok st').
Proof.
  intros Hok (Ha1 & Ha2 & Ha3) (Hb1 & Hb2 & Hb3). cbn [Coordinate_add].
  apply returns_bind. eexists _, _. split; [apply attr_getattr, Ha1|].
  apply returns_bind. eexists _, _. split; [apply attr_getattr, Hb1|].
  apply returns_bind. eexists _, _. split; [reflexivity|].
  apply returns_bind. eexists _, _. split; [apply attr_getattr, Ha2|].
  apply returns_bind. eexists _, _. split; [apply attr_getattr, Hb2|].
  apply returns_bind. eexists _, _. split; [reflexivity|].
  apply returns_bind. eexists _, _. split; [apply attr_getattr, Ha3|].
  apply returns_bind. eexists _, _. split; [apply attr_getattr, Hb3|].
  apply returns_bind. eexists _, _. split; [reflexivity|].
  apply new_coordinate_returns, Hok.
Qed.

(** The opposite of a record with integer coordinates. *)
Lemma Coordinate_neg_ints depth a x y z st :
  caches_ok st -> at_position (heap st) a x y z ->
  returns (Coordinate_neg (S depth) a) st (fun r st' =>
    r = VObj Coordinate (next_id st) (length (heap st)) /\
    heap st' = heap st ++ [[(VStr "x", VInt (- x)); (VStr "y", VInt (- y));
                            (VStr "z", VInt (- z))]; []] /\
    caches_ok st').
Proof.
  intros Hok (Ha1 & Ha2 & Ha3). cbn [Coordinate_neg].
  apply returns_bind. eexists _, _. split; [apply attr_getattr, Ha1|].
  apply returns_bind. eexists _, _. split; [reflexivity|].
  apply returns_bind. eexists _, _. split; [apply attr_getattr, Ha2|].
  apply returns_bind. eexists _, _. split; [reflexivity|].
  apply returns_bind. eexists _, _. split; [apply attr_getattr, Ha3|].
  apply returns_bind. eexists _, _. split; [reflexivity|].
  apply new_coordinate_returns, Hok.
Qed.

(** X17. [Coordinate.__add__]: the sum of two records with integer coordinates,
    points among them, is a new record of [Coordinate] itself at the sum of
    the positions; the operands, and every other mapping, are as they were. *)
Theorem coordinate_sum depth a b x1 y1 z1 x2 y2 z2 st :
  caches_ok st -> at_position (heap st) a x1 y1 z1 -> at_position (heap st) b x2 y2 z2 ->
  returns (Coordinate_add (S depth) a b) st (fun r st' =>
    at_position (heap st') r (x1 + x2) (y1 + y2) (z1 + z2) /\ new_record st r st').
Proof.
  intros Hok Ha Hb.
  eapply returns_weaken; [apply (Coordinate_add_ints depth a b); eassumption|].
  intros r st' (-> & Hh & _). split.
  - rewrite Hh. apply attr_new_coordinate.
  - eapply new_record_app, Hh.
Qed.

Lemma coordinate_sum_witness :
  returns (Coordinate_add 1 (VObj Coordinate 0 0) (VObj Plant 1 1))
    (example_state [[(VStr "x", VInt 1); (VStr "y", VInt 2); (VStr "z", VInt 3)];
                    [(VStr "x", VInt 10); (VStr "y", VInt 20); (VStr "z", VInt (-3))]])
    (fun r st' =>
       at_position (heap st') r (1 + 10) (2 + 20) (3 + -3) /\
       new_record (example_state [[(VStr "x", VInt 1); (VStr "y", VInt 2); (VStr "z", VInt 3)];
                                  [(VStr "x", VInt 10); (VStr "y", VInt 20);
                                   (VStr "z", VInt (-3))]]) r st').
Proof.
  apply (coordinate_sum 0 (VObj Coordinate 0 0) (VObj Plant 1 1) 1 2 3 10 20 (-3)
           (example_state [[(VStr "x", VInt 1); (VStr "y", VInt 2); (VStr "z", VInt 3)];
                           [(VStr "x", VInt 10); (VStr "y", VInt 20); (VStr "z", VInt (-3))]])).
  - apply example_caches_ok.
  - unfold at_position. split_all; reflexivity.
  - unfold at_position. split_all; reflexivity.
Defined.

(** X18. [Coordinate.__neg__] and [__add__]: a record with integer coordinates
    and its opposite add up to the origin, and [-(-a)] is at the position
    of [a]; each result is a new record. *)
Theorem coordinate_opposite depth depth' a x y z st :
  caches_ok st -> at_position (heap st) a x y z ->
  returns (let* n := Coordinate_neg (S depth) a in Coordinate_add (S depth') a n) st
          (fun r st' => at_position (heap st') r 0 0 0 /\ new_record st r st') /\
  returns (let* n := Coordinate_neg (S depth) a in Coordinate_neg (S depth') n) st
          (fun r st' => at_position (heap st') r x y z /\ new_record st r st').
Proof.
  intros Hok Ha. split.
  - apply returns_bind.
    eapply returns_weaken; [apply (Coordinate_neg_ints depth a); eassumption|].
    intros n st1 (-> & Hh1 & Hok1).
    eapply returns_weaken.
    + apply (Coordinate_add_ints depth' a _ x y z (- x) (- y) (- z)); [exact Hok1 | |].
      * rewrite Hh1. apply at_position_kept, Ha.
      * rewrite Hh1. apply attr_new_coordinate.
    + intros r st' (-> & Hh & _). rewrite !Z.add_opp_diag_r in Hh. split.
      * rewrite Hh. apply attr_new_coordinate.
      * split.
        -- eexists _, _. split; [reflexivity|]. rewrite Hh1, length_app. lia.
        -- intros l Hl. rewrite Hh, Hh1, <- app_assoc. apply heap_get_app_l, Hl.
  - apply returns_bind.
    eapply returns_weaken; [apply (Coordinate_neg_ints depth a); eassumption|].
    intros n st1 (-> & Hh1 & Hok1).
    eapply returns_weaken.
    + apply (Coordinate_neg_ints depth' _ (- x) (- y) (- z)); [exact Hok1|].
      rewrite Hh1. apply attr_new_coordinate.
    + intros r st' (-> & Hh & _). rewrite !Z.opp_involutive in Hh. split.
      * rewrite Hh. apply attr_new_coordinate.
      * split.
        -- eexists _, _. split; [reflexivity|]. rewrite Hh1, length_app. lia.
        -- intros l Hl. rewrite Hh, Hh1, <- app_assoc. apply heap_get_app_l, Hl.
Qed.

Lemma merged_returns self lo k st :
  (dict_get (VStr k) (heap_get (heap st) lo) = None -> attr (heap st) self k <> None) ->
  exists v,
    merged self (VDict lo) k st = (Ok v, st) /\
    Some v = match dict_get (VStr k) (heap_get (heap st) lo) with
             | Some w => Some w
             | None => attr (heap st) self k
             end.
Proof.
  intros H. unfold merged, bind. cbn [py_contains getitem].
  destruct (dict_get (VStr k) (heap_get (heap st) lo)) as [w|] eqn:E.
  - exists w. rewrite bool_decide_true by (eexists; reflexivity). rewrite E. split; reflexivity.
  - rewrite bool_decide_false by (intros [? [=]]).
    destruct (attr (heap st) self k) as [v|] eqn:Ea; [|exfalso; apply H; reflexivity].
    exists v. split; [apply attr_getattr, Ea | reflexivity].
Qed.

(** X19. [Coordinate.merge] with a mapping: the result is a new record of
    [Coordinate] itself; each of its coordinates is the entry of the
    mapping under that name when there is one, be it [None], and the
    coordinate of [self] otherwise. *)
Theorem merge_overrides self lo st :
  caches_ok st ->
  (forall k, In k ["x"; "y"; "z"]%string ->
             dict_get (VStr k) (heap_get (heap st) lo) = None -> attr (heap st) self k <> None) ->
  returns (Coordinate_merge self (VDict lo)) st (fun r st' =>
    (forall k, In k ["x"; "y"; "z"]%string ->
               attr (heap st') r k = match dict_get (VStr k) (heap_get (heap st) lo) with
                                     | Some w => Some w
                                     | None => attr (heap st) self k
                                     end) /\
    new_record st r st').
Proof.
  intros Hok H. unfold Coordinate_merge.
  destruct (merged_returns self lo "x" st) as (x & Hx & Ex); [apply H; cbn; tauto|].
  destruct (merged_returns self lo "y" st) as (y & Hy & Ey); [apply H; cbn; tauto|].
  destruct (merged_returns self lo "z" st) as (z & Hz & Ez); [apply H; cbn; tauto|].
  apply returns_bind. eexists _, _. split; [exact Hx|].
  apply returns_bind. eexists _, _. split; [exact Hy|].
  apply returns_bind. eexists _, _. split; [exact Hz|].
  eapply returns_weaken; [apply new_coordinate_returns, Hok|].
  intros r st' (-> & Hh & _). split.
  - destruct (attr_new_coordinate (heap st) (next_id st) x y z) as (A1 & A2 & A3).
    rewrite Hh. intros k [<-|[<-|[<-|[]]]].
    + rewrite <- Ex. exact A1.
    + rewrite <- Ey. exact A2.
    + rewrite <- Ez. exact A3.
  - eapply new_record_app, Hh.
Qed.

Lemma merge_overrides_witness :
  returns (Coordinate_merge (VObj Plant 0 0) (VDict 1))
    (example_state [[(VStr "x", VInt 1); (VStr "y", VInt 2); (VStr "z", VInt 3);
                     (VStr "name", VStr "basil")];
                    [(VStr "z", VInt 0)]])
    (fun r st' =>
       (forall k, In k ["x"; "y"; "z"]%string ->
                  attr (heap st') r k
                  = match dict_get (VStr k) [(VStr "z", VInt 0)] with
                    | Some w => Some w
                    | None => dict_get (VStr k)
                                [(VStr "x", VInt 1); (VStr "y", VInt 2); (VStr "z", VInt 3);
                                 (VStr "name", VStr "basil")]
                    end) /\
       new_record (example_state [[(VStr "x", VInt 1); (VStr "y", VInt 2); (VStr "z", VInt 3);
                                   (VStr "name", VStr "basil")];
                                  [(VStr "z", VInt 0)]]) r st').
Proof.
  apply (merge_overrides (VObj Plant 0 0) 1%nat
           (example_state [[(VStr "x", VInt 1); (VStr "y", VInt 2); (VStr "z", VInt 3);
                            (VStr "name", VStr "basil")];
                           [(VStr "z", VInt 0)]])).
  - apply example_caches_ok.
  - intros k [<-|[<-|[<-|[]]]]; vm_compute; discriminate.
Defined.

Lemma coordinate_opposite_witness :
  returns (let* n := Coordinate_neg 1 (VObj Plant 0 0) in Coordinate_add 1 (VObj Plant 0 0) n)
    (example_state [[(VStr "x", VInt 1); (VStr "y", VInt 2); (VStr "z", VInt 3)]])
    (fun r st' =>
       at_position (heap st') r 0 0 0 /\
       new_record (example_state [[(VStr "x", VInt 1); (VStr "y", VInt 2); (VStr "z", VInt 3)]])
                  r st').
Proof.
  apply (coordinate_opposite 0 0 (VObj Plant 0 0) 1 2 3
           (example_state [[(VStr "x", VInt 1); (VStr "y", VInt 2); (VStr "z", VInt 3)]])).
  - apply example_caches_ok.
  - unfold at_position. split_all; reflexivity.
Defined.

(** ** [Point.apply]: updates that add *)

Lemma attr_none_getattr self k st :
  attr (heap st) self k = None -> getattr self k st = (Raise AttributeError, st).
Proof.
  destruct self; try reflexivity. cbn [attr]. intros H.
  unfold getattr, bind, read_dict, gets. cbv beta. rewrite H. reflexivity.
Qed.

Lemma dict_get_some_lt (h : list dict) loc k v :
  dict_get k (heap_get h loc) = Some v -> (loc < length h)%nat.
Proof.
  unfold heap_get. destruct (h !! loc) as [d|] eqn:E; [|discriminate].
  intros _. apply lookup_lt_Some in E. exact E.
Qed.

(** X9. An update whose key carries the mark [+] adds the value to what the
    record holds under the key, in the metadata or in the record itself,
    and stores the sum there; it raises [KeyError] when there is nothing
    under the key.  What is held may be a record: a record of [Coordinate]
    is added with [__add__], which stores a new [Coordinate] when both
    have integer coordinates and raises [AttributeError] when the value
    has no attribute [x]; any other record raises [TypeError].  Anything
    else is added with [+=], whose errors are raised.  No error writes
    anything. *)
Theorem marked_update_appends depth c id l key val st :
  caches_ok st -> is_str val = false ->
  forall loc,
    (if routed_to_meta c key
     then dict_get (VStr "meta") (heap_get (heap st) l) = Some (VDict loc)
     else loc = l) ->
    let d := heap_get (heap st) loc in
    exists r st',
      apply_update (S depth) (VObj c id l) (("+" ++ key)%string, val) st = (r, st') /\
      match dict_get (VStr key) d with
      | None => r = Raise KeyError /\ heap st' = heap st
      | Some (VObj oc oid ol) =>
          if is_coordinate oc then
            (forall x1 y1 z1 x2 y2 z2,
                at_position (heap st) (VObj oc oid ol) x1 y1 z1 ->
                at_position (heap st) val x2 y2 z2 ->
                r = Ok tt /\
                heap st'
                = <[loc := dict_set (VStr key)
                             (VObj Coordinate (next_id st) (length (heap st))) d]>
                    (heap st ++ [[(VStr "x", VInt (x1 + x2)); (VStr "y", VInt (y1 + y2));
                                  (VStr "z", VInt (z1 + z2))]; []])) /\
            (attr (heap st) (VObj oc oid ol) "x" <> None -> attr (heap st) val "x" = None ->
             r = Raise AttributeError /\ heap st' = heap st)
          else r = Raise TypeError /\ heap st' = heap st
      | Some old =>
          match py_iadd (heap st) old val with
          | Ok new => r = Ok tt /\ heap st' = <[loc := dict_set (VStr key) new d]> (heap st)
          | Raise e => r = Raise e /\ heap st' = heap st
          end
      end.
Proof.
  intros Hok Hs loc Hloc d. unfold apply_update.
  rewrite (bind_ok _ _ _ _ _ (update_value_plain val st Hs)).
  unfold store_update. cbn [append]. rewrite startswith_mark. cbv zeta. cbn [drop_first type_of].
  destruct (class_props_ok c st Hok) as (ps & st1 & Hps & Hn & Hok1 & Hw).
  destruct Hw as (Hh & Hid & _).
  rewrite (bind_ok _ _ _ _ _ Hps), (ismeta_of_routed ps c key Hn).
  assert (Hdata : (if routed_to_meta c key then getattr (VObj c id l) "meta" else ret (VDict l)) st1
                  = (Ok (VDict loc), st1)).
  { destruct (routed_to_meta c key).
    - apply getattr_returns. rewrite Hh. exact Hloc.
    - rewrite Hloc. reflexivity. }
  rewrite (bind_ok _ _ _ _ _ Hdata).
  unfold bind at 1, read_dict, gets. cbv beta iota. rewrite Hh. fold d.
  destruct (dict_get (VStr key) d) as [old|] eqn:Hold.
  2: { eexists _, _. split; [reflexivity|]. auto. }
  assert (Hplain : forall new e,
            (py_iadd (heap st) old val = Ok new ->
             exists st', (let* new := fun st => (py_iadd (heap st) old val, st) in
                          let* d' := read_dict loc in
                          write_dict loc (dict_set (VStr key) new d')) st1 = (Ok tt, st') /\
                         heap st' = <[loc := dict_set (VStr key) new d]> (heap st)) /\
            (py_iadd (heap st) old val = Raise e ->
             (let* new := fun st => (py_iadd (heap st) old val, st) in
              let* d' := read_dict loc in
              write_dict loc (dict_set (VStr key) new d')) st1 = (Raise e, st1))).
  { intros new e. split; intros H; unfold bind at 1; rewrite Hh, H; [|reflexivity].
    eexists. split; [reflexivity|]. cbn [heap set_heap]. rewrite Hh. reflexivity. }
  assert (Hother : forall (P : Prop), (forall oc oid ol, old <> VObj oc oid ol) ->
            iadd (S depth) old val = (fun st => (py_iadd (heap st) old val, st))).
  { intros _ Hno. destruct old; try reflexivity. exfalso. eapply Hno. reflexivity. }
  destruct old as [| | | | | | | | | |oc oid ol];
    try (rewrite (Hother True) by (intros; discriminate);
         destruct (py_iadd (heap st) _ val) as [new|e] eqn:Hi;
         [destruct (proj1 (Hplain new TypeError) eq_refl) as (st' & Hr & Hh');
          exists (Ok tt), st'; split; [exact Hr | auto]
         |exists (Raise e), st1; split; [apply (proj2 (Hplain VNone e)); reflexivity | auto]]).
  clear Hplain Hother. cbn [iadd].
  destruct (is_coordinate oc) eqn:Hc.
  2: { eexists _, _. split; [reflexivity|]. auto. }
  destruct (Coordinate_add (S depth) (VObj oc oid ol) val st1) as [[new|e] st2] eqn:Hadd.
  - eexists _, _. split.
    { rewrite (bind_ok _ _ _ _ _ Hadd). reflexivity. }
    split.
    + intros x1 y1 z1 x2 y2 z2 Ha Hb.
      destruct (Coordinate_add_ints depth (VObj oc oid ol) val x1 y1 z1 x2 y2 z2 st1 Hok1)
        as (r' & st2' & Hadd' & -> & Hh2 & _); [rewrite Hh; exact Ha | rewrite Hh; exact Hb|].
      rewrite Hadd in Hadd'. injection Hadd' as -> <-.
      split; [reflexivity|]. cbn [heap set_heap]. rewrite Hh2, Hh, Hid.
      rewrite heap_get_app_l by (eapply dict_get_some_lt; exact Hold). reflexivity.
    + intros Hx Hn'. exfalso.
      cbn [Coordinate_add] in Hadd.
      destruct (attr (heap st) (VObj oc oid ol) "x") as [x|] eqn:Ex; [|contradiction].
      rewrite <- Hh in Ex, Hn'.
      rewrite (bind_ok _ _ _ _ _ (attr_getattr _ _ _ _ Ex)) in Hadd.
      rewrite (bind_raise _ _ _ _ _ (attr_none_getattr _ _ _ Hn')) in Hadd. discriminate Hadd.
  - eexists _, _. split.
    { rewrite (bind_raise _ _ _ _ _ Hadd). reflexivity. }
    split.
    + intros x1 y1 z1 x2 y2 z2 Ha Hb. exfalso.
      destruct (Coordinate_add_ints depth (VObj oc oid ol) val x1 y1 z1 x2 y2 z2 st1 Hok1)
        as (r' & st2' & Hadd' & _); [rewrite Hh; exact Ha | rewrite Hh; exact Hb|].
      rewrite Hadd in Hadd'. discriminate Hadd'.
    + intros Hx Hn'. cbn [Coordinate_add] in Hadd.
      destruct (attr (heap st) (VObj oc oid ol) "x") as [x|] eqn:Ex; [|contradiction].
      rewrite <- Hh in Ex, Hn'.
      rewrite (bind_ok _ _ _ _ _ (attr_getattr _ _ _ _ Ex)) in Hadd.
      rewrite (bind_raise _ _ _ _ _ (attr_none_getattr _ _ _ Hn')) in Hadd.
      injection Hadd as <- <-. split; [reflexivity | exact Hh].
Qed.

Lemma marked_update_appends_witness :
  caches_ok (example_state [[(VStr "meta", VDict 1)]; [(VStr "count", VInt 2)]]) /\
  is_str (VInt 3) = false /\
  dict_get (VStr "meta")
    (heap_get (heap (example_state [[(VStr "meta", VDict 1)]; [(VStr "count", VInt 2)]])) 0)
  = Some (VDict 1) /\
  exists r st',
    apply_update 1 (VObj Plant 0 0) ("+count", VInt 3)
      (example_state [[(VStr "meta", VDict 1)]; [(VStr "count", VInt 2)]]) = (r, st') /\
    r = Ok tt /\ heap st' = [[(VStr "meta", VDict 1)]; [(VStr "count", VInt 5)]].
Proof.
  split; [apply example_caches_ok|]. split; [reflexivity|]. split; [reflexivity|].
  destruct (marked_update_appends 0 Plant 0 0 "count" (VInt 3)
              (example_state [[(VStr "meta", VDict 1)]; [(VStr "count", VInt 2)]])
              (example_caches_ok _) eq_refl 1%nat eq_refl) as (r & st' & H & Hr).
  exists r, st'. split; [exact H|]. exact Hr.
Defined.

(** An update that adds a record of [Coordinate] to the offset held in the
    metadata: the metadata holds a new [Coordinate], the sum. *)
Example offset_update_adds_coordinates :
  heap (snd (apply_update 1 (VObj Plant 0 0) ("+offset", VObj Coordinate 2 3)
               (example_state [[(VStr "meta", VDict 1)];
                               [(VStr "offset", VObj Coordinate 1 2)];
                               [(VStr "x", VInt 1); (VStr "y", VInt 2); (VStr "z", VInt 3)];
                               [(VStr "x", VInt 10); (VStr "y", VInt 20); (VStr "z", VInt 30)]])))
  = [[(VStr "meta", VDict 1)];
     [(VStr "offset", VObj Coordinate 0 4)];
     [(VStr "x", VInt 1); (VStr "y", VInt 2); (VStr "z", VInt 3)];
     [(VStr "x", VInt 10); (VStr "y", VInt 20); (VStr "z", VInt 30)];
     [(VStr "x", VInt 11); (VStr "y", VInt 22); (VStr "z", VInt 33)];
     []].
Proof. vm_compute. reflexivity. Qed.
